(** * Reviews, ratings and media lifecycle of the marketplace backend

    A shallow embedding of the route handlers that create product reviews,
    record public reviews and votes, create products and delete products
    and events, together with the properties the design document states
    about them.

    Conventions of the embedding.
    - A request body is the JSON value ([value]) that the body parser
      hands to the handler, an object; a string is the sequence of its
      UTF-8 bytes; a JavaScript number is an exact rational ([Q]): rounding
      of binary64 arithmetic, NaN and the infinities are outside the model
      (a JSON body cannot carry NaN).
    - The authentication middleware of a route has run: a handler is given
      the id of the authenticated user where it reads one.
    - The document database is a record of finite maps from the
      hexadecimal string of a document's [_id] to the document.  Its
      operations always complete; a lost connection is not modelled.
    - The media service (Cloudinary) and the clock are inputs of a handler
      ([Env]); every call that leaves the process is appended to a trace.
    - Library functions whose code is not part of the repository
      (ObjectId validation and casting, Mongoose string casting, the
      product schema) are variables of the section [Backend]. *)

From Stdlib Require Import QArith Ascii String.
From stdpp Require Import gmap strings list.

Set Warnings "-register-all".

Local Open Scope string_scope.
Local Open Scope Z_scope.

(** ** JavaScript values *)

Inductive value : Type :=
| VUndefined
| VNull
| VBool (b : bool)
| VNum (q : Q)
| VStr (s : string)
| VArr (l : list value)
| VObj (fields : list (string * value)).

(** [!!v]: the falsy values are undefined, null, false, 0 and the empty
    string. *)
Definition truthy (v : value) : bool :=
  match v with
  | VUndefined | VNull => false
  | VBool b => b
  | VNum q => negb (Qeq_bool q 0)
  | VStr s => negb (String.eqb s EmptyString)
  | VArr _ | VObj _ => true
  end.

(** [Array.isArray(v)] *)
Definition isArray (v : value) : bool :=
  match v with VArr _ => true | _ => false end.

(** Own property lookup in an object literal; a later binding of the same
    key wins, as in [JSON.parse] and in object spread. *)
Fixpoint assoc_last (k : string) (fs : list (string * value)) (found : value)
  : value :=
  match fs with
  | [] => found
  | (k', v) :: rest =>
      assoc_last k rest (if String.eqb k k' then v else found)
  end.

(** [obj.k] where [obj] is known not to be null or undefined (a request
    body, a parsed document): absent keys and non-objects give undefined. *)
Definition field (k : string) (obj : value) : value :=
  match obj with
  | VObj fs => assoc_last k fs VUndefined
  | _ => VUndefined
  end.

(** [v.k] for an arbitrary value: reading a property of null or undefined
    raises a TypeError ([None]). *)
Definition prop (k : string) (v : value) : option value :=
  match v with
  | VUndefined | VNull => None
  | _ => Some (field k v)
  end.

(** The [...rest] of a destructuring: the fields not named explicitly. *)
Definition omit (names : list string) (obj : value) : list (string * value) :=
  match obj with
  | VObj fs =>
      filter (fun kv => negb (existsb (String.eqb (fst kv)) names)) fs
  | _ => []
  end.

(** Comparison of numbers: [a < b] and [a > b]. *)
Definition Qltb (a b : Q) : bool := negb (Qle_bool b a).
Definition Qgtb (a b : Q) : bool := Qltb b a.

(** White space removed by [String.prototype.trim], on the UTF-8 bytes of
    a string: tab to carriage return and space; U+00A0; U+1680; U+2000 to
    U+200A, U+2028, U+2029, U+202F; U+205F; U+3000; U+FEFF. *)
Definition is_space (c : ascii) : bool :=
  let n := nat_of_ascii c in
  ((9 <=? n)%nat && (n <=? 13)%nat) || (n =? 32)%nat.

Definition is_space2 (c1 c2 : ascii) : bool :=
  (nat_of_ascii c1 =? 194)%nat && (nat_of_ascii c2 =? 160)%nat.

Definition is_space3 (c1 c2 c3 : ascii) : bool :=
  let n1 := nat_of_ascii c1 in
  let n2 := nat_of_ascii c2 in
  let n3 := nat_of_ascii c3 in
  ((n1 =? 225) && (n2 =? 154) && (n3 =? 128))%nat
  || ((n1 =? 226) && (n2 =? 128)
      && (((128 <=? n3) && (n3 <=? 138))
          || (n3 =? 168) || (n3 =? 169) || (n3 =? 175)))%nat
  || ((n1 =? 226) && (n2 =? 129) && (n3 =? 159))%nat
  || ((n1 =? 227) && (n2 =? 128) && (n3 =? 128))%nat
  || ((n1 =? 239) && (n2 =? 187) && (n3 =? 191))%nat.

(** [s.trim()] is the empty string. *)
Fixpoint trim_is_empty (s : string) : bool :=
  match s with
  | EmptyString => true
  | String c1 r1 =>
      if is_space c1 then trim_is_empty r1
      else
        match r1 with
        | String c2 r2 =>
            if is_space2 c1 c2 then trim_is_empty r2
            else
              match r2 with
              | String c3 r3 =>
                  if is_space3 c1 c2 c3 then trim_is_empty r3 else false
              | EmptyString => false
              end
        | EmptyString => false
        end
  end.

(** The elements visited by [for (const x of v)]: those of an array, the
    characters of a string (byte by byte: the handlers look at no more
    than whether there is one); other values are not iterable ([None]). *)
Fixpoint chars (s : string) : list value :=
  match s with
  | EmptyString => []
  | String c rest => VStr (String c EmptyString) :: chars rest
  end.

Definition iterate (v : value) : option (list value) :=
  match v with
  | VArr l => Some l
  | VStr s => Some (chars s)
  | _ => None
  end.

(** ** [JSON.parse]

    The grammar of ECMA-404, read in two passes without recursion on the
    nesting depth: a scanner that turns characters into tokens and a
    pushdown recogniser that assembles the value.  A [\uXXXX] escape is
    stored as the UTF-8 bytes of its character, two escapes that form a
    surrogate pair as the four bytes of the character of the pair.  A
    number is the double nearest to the decimal literal. *)

Module JSON.

Inductive token : Type :=
| TLBrace | TRBrace | TLBracket | TRBracket | TColon | TComma
| TScalar (v : value).

Definition string_of_rev (acc : list ascii) : string :=
  string_of_list_ascii (rev acc).

Definition is_digit (c : ascii) : bool :=
  let n := nat_of_ascii c in (48 <=? n)%nat && (n <=? 57)%nat.

Definition digit_val (c : ascii) : Z := Z.of_nat (nat_of_ascii c) - 48.

Definition hex_val (c : ascii) : option Z :=
  let n := Z.of_nat (nat_of_ascii c) in
  if (48 <=? n) && (n <=? 57) then Some (n - 48)
  else if (65 <=? n) && (n <=? 70) then Some (n - 55)
  else if (97 <=? n) && (n <=? 102) then Some (n - 87)
  else None.

Definition byte (n : Z) : ascii := ascii_of_nat (Z.to_nat n).

(** The double quote. *)
Definition quote : ascii := byte 34.

(** UTF-8 bytes of a code point, most significant byte first; a surrogate
    on its own is written like any other 16-bit code unit. *)
Definition utf8 (u : Z) : list ascii :=
  if u <? 128 then [byte u]
  else if u <? 2048 then [byte (192 + u / 64); byte (128 + u mod 64)]
  else if u <? 65536 then
    [byte (224 + u / 4096); byte (128 + (u / 64) mod 64);
     byte (128 + u mod 64)]
  else [byte (240 + u / 262144); byte (128 + (u / 4096) mod 64);
        byte (128 + (u / 64) mod 64); byte (128 + u mod 64)].

(** The code unit written by the three bytes [b1 b2 b3], when these are
    the bytes of a surrogate: a high one (D800 to DBFF) for [high], a low
    one (DC00 to DFFF) otherwise. *)
Definition surrogate (high : bool) (b1 b2 b3 : ascii) : option Z :=
  let n1 := Z.of_nat (nat_of_ascii b1) in
  let n2 := Z.of_nat (nat_of_ascii b2) in
  let n3 := Z.of_nat (nat_of_ascii b3) in
  if (n1 =? 237)
     && (if high then (160 <=? n2) && (n2 <=? 175)
         else (176 <=? n2) && (n2 <=? 191))
     && (128 <=? n3) && (n3 <=? 191)
  then Some (53248 + 64 * (n2 - 128) + (n3 - 128))
  else None.

(** A high surrogate followed by a low one is one character: its bytes
    are those of the code point of the pair. *)
Fixpoint join_surrogates (s : list ascii) : list ascii :=
  match s with
  | [] => []
  | b1 :: r1 =>
      match r1 with
      | b2 :: b3 :: b4 :: b5 :: b6 :: rest =>
          match surrogate true b1 b2 b3, surrogate false b4 b5 b6 with
          | Some hi, Some lo =>
              (utf8 (65536 + 1024 * (hi - 55296) + (lo - 56320))
               ++ join_surrogates rest)%list
          | _, _ => b1 :: join_surrogates r1
          end
      | _ => b1 :: join_surrogates r1
      end
  end.

(** The text of a string literal whose bytes were read latest first. *)
Definition string_of_literal (acc : list ascii) : string :=
  string_of_list_ascii (join_surrogates (rev acc)).

(** *** Numbers *)

(** Leading digits of [s]: their value, how many there are, what follows. *)
Fixpoint digits (s : list ascii) (acc : Z) (n : Z) : Z * Z * list ascii :=
  match s with
  | c :: rest =>
      if is_digit c then digits rest (10 * acc + digit_val c) (n + 1)
      else (acc, n, s)
  | [] => (acc, n, s)
  end.

(** [m * 10 ^ e] as a rational. *)
Definition scale10 (m e : Z) : Q :=
  if 0 <=? e then Qmake (m * 10 ^ e) 1
  else Qmake m (Z.to_pos (10 ^ (- e))).

(** The exponent part, if any, must reach the end of the text. *)
Definition exponent (s : list ascii) : option Z :=
  match s with
  | [] => Some 0
  | c :: rest =>
      if Ascii.eqb c "e" || Ascii.eqb c "E" then
        let '(neg, rest') :=
          match rest with
          | "-"%char :: r => (true, r)
          | "+"%char :: r => (false, r)
          | _ => (false, rest)
          end in
        match digits rest' 0 0 with
        | (e, n, []) => if 0 <? n then Some (if neg then - e else e) else None
        | _ => None
        end
      else None
  end.

(** The fraction part, if any, then the exponent: the mantissa and the
    decimal exponent of the whole number. *)
Definition fraction (int : Z) (s : list ascii) : option (Z * Z) :=
  match s with
  | "."%char :: rest =>
      match digits rest int 0 with
      | (m, n, rest') =>
          if 0 <? n then
            match exponent rest' with
            | Some e => Some (m, e - n)
            | None => None
            end
          else None
      end
  | _ =>
      match exponent s with
      | Some e => Some (int, e)
      | None => None
      end
  end.

(** [2 ^ e <= n / d], for positive [n] and [d]. *)
Definition pow2_le (e n d : Z) : bool :=
  if 0 <=? e then d * 2 ^ e <=? n else d <=? n * 2 ^ (- e).

(** The double nearest to a rational, ties to the even mantissa: 53 bits
    of mantissa from exponent -1022 on, fewer below.  What is beyond the
    largest double is an infinity in JavaScript; it is written here as
    plus or minus [2 ^ 1024], which no double is. *)
Definition binary64 (q : Q) : Q :=
  let n := Z.abs (Qnum q) in
  let d := Z.pos (Qden q) in
  if n =? 0 then 0%Q
  else
    let e0 := Z.log2 n - Z.log2 d in
    let e := if pow2_le e0 n d then e0 else e0 - 1 in
    let k := 52 - Z.max e (-1022) in
    let num := if 0 <=? k then n * 2 ^ k else n in
    let den := if 0 <=? k then d else d * 2 ^ (- k) in
    let low := num / den in
    let r := num mod den in
    let m := if 2 * r <? den then low
             else if den <? 2 * r then low + 1
             else if Z.even low then low else low + 1 in
    let v := if 0 <=? k then Qred (Qmake m (Z.to_pos (2 ^ k)))
             else Qmake (m * 2 ^ (- k)) 1 in
    let v := if Qle_bool (Qmake (2 ^ 1024) 1) v then Qmake (2 ^ 1024) 1
             else v in
    if Qnum q <? 0 then Qopp v else v.

Definition number (s : list ascii) : option Q :=
  let '(neg, s1) :=
    match s with
    | "-"%char :: r => (true, r)
    | _ => (false, s)
    end in
  let body :=
    match s1 with
    | "0"%char :: rest => fraction 0 rest
    | c :: _ =>
        if is_digit c then
          match digits s1 0 0 with
          | (i, _, rest) => fraction i rest
          end
        else None
    | [] => None
    end in
  match body with
  | Some (m, e) => Some (binary64 (scale10 (if neg then - m else m) e))
  | None => None
  end.

(** A maximal run of letters, digits, signs and dots is one literal or one
    number. *)
Definition is_atom_char (c : ascii) : bool :=
  let n := nat_of_ascii c in
  is_digit c
  || ((65 <=? n)%nat && (n <=? 90)%nat)
  || ((97 <=? n)%nat && (n <=? 122)%nat)
  || Ascii.eqb c "-" || Ascii.eqb c "+" || Ascii.eqb c ".".

Definition atom (text : list ascii) : option value :=
  let s := string_of_rev text in
  if String.eqb s "true" then Some (VBool true)
  else if String.eqb s "false" then Some (VBool false)
  else if String.eqb s "null" then Some VNull
  else match number (rev text) with
       | Some q => Some (VNum q)
       | None => None
       end.

(** *** Scanner *)

Inductive lexstate : Type :=
| LIdle
| LString (acc : list ascii)
| LEscape (acc : list ascii)
| LUnicode (acc : list ascii) (code : Z) (missing : nat)
| LAtom (text : list ascii).

Definition is_json_space (c : ascii) : bool :=
  let n := nat_of_ascii c in
  (n =? 32)%nat || (n =? 9)%nat || (n =? 10)%nat || (n =? 13)%nat.

(** One character seen between tokens. *)
Definition lex_idle (c : ascii) (out : list token)
  : option (lexstate * list token) :=
  if is_json_space c then Some (LIdle, out)
  else if Ascii.eqb c "{" then Some (LIdle, TLBrace :: out)
  else if Ascii.eqb c "}" then Some (LIdle, TRBrace :: out)
  else if Ascii.eqb c "[" then Some (LIdle, TLBracket :: out)
  else if Ascii.eqb c "]" then Some (LIdle, TRBracket :: out)
  else if Ascii.eqb c ":" then Some (LIdle, TColon :: out)
  else if Ascii.eqb c "," then Some (LIdle, TComma :: out)
  else if Ascii.eqb c quote then Some (LString [], out)
  else if is_atom_char c then Some (LAtom [c], out)
  else None.

Definition escape (c : ascii) : option ascii :=
  if Ascii.eqb c quote || Ascii.eqb c "\" || Ascii.eqb c "/" then Some c
  else if Ascii.eqb c "b" then Some (byte 8)
  else if Ascii.eqb c "f" then Some (byte 12)
  else if Ascii.eqb c "n" then Some (byte 10)
  else if Ascii.eqb c "r" then Some (byte 13)
  else if Ascii.eqb c "t" then Some (byte 9)
  else None.

Definition lex_step (st : lexstate) (c : ascii) (out : list token)
  : option (lexstate * list token) :=
  match st with
  | LIdle => lex_idle c out
  | LString acc =>
      if Ascii.eqb c quote then
        Some (LIdle, TScalar (VStr (string_of_literal acc)) :: out)
      else if Ascii.eqb c "\" then Some (LEscape acc, out)
      else if (nat_of_ascii c <? 32)%nat then None
      else Some (LString (c :: acc), out)
  | LEscape acc =>
      if Ascii.eqb c "u" then Some (LUnicode acc 0 4, out)
      else match escape c with
           | Some c' => Some (LString (c' :: acc), out)
           | None => None
           end
  | LUnicode acc code missing =>
      match hex_val c with
      | Some d =>
          let code' := 16 * code + d in
          match missing with
          | S (S k) => Some (LUnicode acc code' (S k), out)
          | _ => Some (LString (rev (utf8 code') ++ acc), out)
          end
      | None => None
      end
  | LAtom text =>
      if is_atom_char c then Some (LAtom (c :: text), out)
      else match atom text with
           | Some v => lex_idle c (TScalar v :: out)
           | None => None
           end
  end.

Fixpoint lex (st : lexstate) (out : list token) (s : string)
  : option (list token) :=
  match s with
  | EmptyString =>
      match st with
      | LIdle => Some (rev out)
      | LAtom text =>
          match atom text with
          | Some v => Some (rev (TScalar v :: out))
          | None => None
          end
      | _ => None
      end
  | String c rest =>
      match lex_step st c out with
      | Some (st', out') => lex st' out' rest
      | None => None
      end
  end.

(** *** Recogniser *)

(** A container whose closing bracket has not been read yet: the elements
    (or members) read so far, latest first, and for an object the key whose
    value is being read. *)
Inductive container : Type :=
| CArr (acc : list value)
| CObj (acc : list (string * value)) (key : string).

Inductive pstate : Type :=
| SValue (stk : list container)
| SArrStart (stk : list container)
| SObjStart (stk : list container)
| SKey (acc : list (string * value)) (stk : list container)
| SColon (acc : list (string * value)) (key : string) (stk : list container)
| SAfterElem (acc : list value) (stk : list container)
| SAfterMember (acc : list (string * value)) (stk : list container)
| SDone (v : value).

(** A complete value goes into the innermost open container. *)
Definition deliver (v : value) (stk : list container) : pstate :=
  match stk with
  | [] => SDone v
  | CArr acc :: stk' => SAfterElem (v :: acc) stk'
  | CObj acc key :: stk' => SAfterMember ((key, v) :: acc) stk'
  end.

Definition start_value (t : token) (stk : list container) : option pstate :=
  match t with
  | TScalar v => Some (deliver v stk)
  | TLBracket => Some (SArrStart stk)
  | TLBrace => Some (SObjStart stk)
  | _ => None
  end.

Definition pstep (st : pstate) (t : token) : option pstate :=
  match st, t with
  | SValue stk, _ => start_value t stk
  | SArrStart stk, TRBracket => Some (deliver (VArr []) stk)
  | SArrStart stk, _ => start_value t (CArr [] :: stk)
  | SObjStart stk, TRBrace => Some (deliver (VObj []) stk)
  | SObjStart stk, TScalar (VStr k) => Some (SColon [] k stk)
  | SKey acc stk, TScalar (VStr k) => Some (SColon acc k stk)
  | SColon acc k stk, TColon => Some (SValue (CObj acc k :: stk))
  | SAfterElem acc stk, TComma => Some (SValue (CArr acc :: stk))
  | SAfterElem acc stk, TRBracket => Some (deliver (VArr (rev acc)) stk)
  | SAfterMember acc stk, TComma => Some (SKey acc stk)
  | SAfterMember acc stk, TRBrace => Some (deliver (VObj (rev acc)) stk)
  | _, _ => None
  end.

Fixpoint assemble (st : pstate) (ts : list token) : option value :=
  match ts with
  | [] => match st with SDone v => Some v | _ => None end
  | t :: rest =>
      match pstep st t with
      | Some st' => assemble st' rest
      | None => None
      end
  end.

(** [JSON.parse(text)]: the value, or [None] for a SyntaxError. *)
Definition parse (text : string) : option value :=
  match lex LIdle [] text with
  | Some ts => assemble (SValue []) ts
  | None => None
  end.

End JSON.

(** ** Documents *)

(** An uploaded medium: [{ public_id, url }]. *)
Record ImageLink : Type := {
  public_id : value;
  url : value;
}.

(** A review embedded in a product.  [user] is the string form of the
    reviewer's id, [None] when the stored review has none. *)
Record Review : Type := {
  user : option string;
  rating : Q;
  comment : value;
  productId : value;
  createdAt : Z;
}.

(** A product document: the paths the handlers read or write, and the rest
    of the document. *)
Record Product : Type := {
  images : list ImageLink;
  reviews : list Review;
  ratings : option Q;
  product_doc : value;
}.

(** A line of an order's cart; the cart may hold null entries. *)
Record CartItem : Type := {
  item_productId : option string;
  isReviewed : bool;
}.

Record Order : Type := {
  cart : list (option CartItem);
}.

Record Event : Type := {
  event_images : list ImageLink;
  event_doc : value;
}.

(** model/publicReview.js *)
Record PublicReview : Type := {
  name : string;
  review_rating : Q;
  review_comment : string;
  helpfulUp : Z;
  helpfulDown : Z;
  review_createdAt : Z;
}.

(** ** The world outside a handler *)

(** Calls that leave the process, in the order they are made. *)
Inductive Call : Type :=
| DbFind (model : string) (id : value)
| DbCreate (model : string) (id : string)
| DbSave (model : string) (id : string)
| DbRemove (model : string) (id : string)
| DbUpdate (model : string) (id : value)
| CloudUpload (payload : value) (folder : string)
| CloudDestroy (id : value)
| ConsoleError (text : string).

Record World : Type := {
  products : gmap string Product;
  orders : gmap string Order;
  shops : gmap string value;
  events : gmap string Event;
  publicReviews : gmap string PublicReview;
  trace : list Call;
}.

(** The database alone, without the trace. *)
Definition same_db (w w' : World) : Prop :=
  products w' = products w /\ orders w' = orders w /\ shops w' = shops w
  /\ events w' = events w /\ publicReviews w' = publicReviews w.

Definition log (c : Call) (w : World) : World :=
  {| products := products w; orders := orders w; shops := shops w;
     events := events w; publicReviews := publicReviews w;
     trace := trace w ++ [c] |}.

Definition set_products (f : gmap string Product -> gmap string Product)
  (w : World) : World :=
  {| products := f (products w); orders := orders w; shops := shops w;
     events := events w; publicReviews := publicReviews w;
     trace := trace w |}.

Definition set_orders (f : gmap string Order -> gmap string Order)
  (w : World) : World :=
  {| products := products w; orders := f (orders w); shops := shops w;
     events := events w; publicReviews := publicReviews w;
     trace := trace w |}.

Definition set_events (f : gmap string Event -> gmap string Event)
  (w : World) : World :=
  {| products := products w; orders := orders w; shops := shops w;
     events := f (events w); publicReviews := publicReviews w;
     trace := trace w |}.

Definition set_publicReviews
  (f : gmap string PublicReview -> gmap string PublicReview)
  (w : World) : World :=
  {| products := products w; orders := orders w; shops := shops w;
     events := events w; publicReviews := f (publicReviews w);
     trace := trace w |}.

(** What a handler does not decide: the clock, the id the database gives
    to a new document, and the answers of the media service.  The [i]-th
    upload of a request answers [{ public_id, secure_url }] or fails; the
    [i]-th destroy fails or not. *)
Record Env : Type := {
  now : Z;
  new_id : string;
  upload_result : nat -> value -> option (string * string);
  destroy_fails : nat -> value -> bool;
}.

(** ** Responses *)

(** utils/ErrorHandler: [new ErrorHandler(message, statusCode)]. *)
Record ErrorHandler : Type := {
  message : string;
  statusCode : Z;
}.

(** The JSON bodies sent with [success: true]. *)
Inductive Body : Type :=
| Message (text : string)
| Created (id : string) (product : Product)
| VoteRecorded (text : string) (up down : Z).

(** How a request ends: [res.status(s).json(body)], [next(err)] with an
    ErrorHandler, or an exception that leaves the handler (which
    catchAsyncErrors forwards to [next]). *)
Inductive Outcome : Type :=
| Json (status : Z) (body : Body)
| Next (err : ErrorHandler)
| Rejected (error_message : string).

Definition fail (text : string) (code : Z) : Outcome :=
  Next {| message := text; statusCode := code |}.

(** ** Handler computations

    A step of a handler yields a value, returns from the handler
    ([return next(...)]), or throws. *)

Inductive Step (A : Type) : Type :=
| Val (a : A)
| Return (o : Outcome)
| Raise (error_message : string).

Arguments Val {A} a.
Arguments Return {A} o.
Arguments Raise {A} error_message.

Definition M (A : Type) : Type := World -> Step A * World.

Definition ret {A} (a : A) : M A := fun w => (Val a, w).

Definition bind {A B} (m : M A) (k : A -> M B) : M B :=
  fun w =>
    match m w with
    | (Val a, w') => k a w'
    | (Return o, w') => (Return o, w')
    | (Raise e, w') => (Raise e, w')
    end.

Definition exit {A} (o : Outcome) : M A := fun w => (Return o, w).

Definition raise {A} (e : string) : M A := fun w => (Raise e, w).

(** [try { m } catch (error) { h error.message }]: a [return] inside the
    block is not caught. *)
Definition try_catch {A} (m : M A) (h : string -> M A) : M A :=
  fun w =>
    match m w with
    | (Raise e, w') => h e w'
    | r => r
    end.

Definition call (c : Call) : M unit := fun w => (Val tt, log c w).

Definition update (f : World -> World) : M unit := fun w => (Val tt, f w).

Definition read {A} (f : World -> A) : M A := fun w => (Val (f w), w).

Notation "'let*' x ':=' m 'in' k" := (bind m (fun x => k))
  (at level 10, x name, m at level 100, k at level 200).

Notation "m ';;' k" := (bind m (fun _ => k))
  (at level 100, k at level 200, right associativity).

(** A route: the outcome of the request and the world it leaves. *)
Definition route (m : M Outcome) (w : World) : Outcome * World :=
  match m w with
  | (Val o, w') => (o, w')
  | (Return o, w') => (o, w')
  | (Raise e, w') => (Rejected e, w')
  end.

(** ** The route handlers *)

Section Backend.

(** [mongoose.Types.ObjectId.isValid]. *)
Variable ObjectId_isValid : value -> bool.

(** The cast of a query id to an ObjectId, given by the hexadecimal string
    of the result; [None] is a CastError. *)
Variable castObjectId : value -> option string.

(** The cast of a value to a schema path of type String; [None] is a
    CastError. *)
Variable castString : value -> option string.

(** model/product.js: casting and validation of the data handed to
    [Product.create], an error message or the document. *)
Variable Product_schema : value -> string + Product.

(** [Model.findById(id)]: the document and its key, or null. *)
Definition findById {A} (model : string) (coll : World -> gmap string A)
  (id : value) : M (option (string * A)) :=
  call (DbFind model id);;
  match castObjectId id with
  | None => raise "Cast to ObjectId failed"
  | Some k => read (fun w => pair k <$> coll w !! k)
  end.

(** [s === v] for a string [s]. *)
Definition is_str (s : string) (v : value) : bool :=
  match v with
  | VStr t => String.eqb s t
  | _ => false
  end.

(** [list.includes(v)] for a list of strings. *)
Definition includes (l : list string) (v : value) : bool :=
  existsb (fun s => is_str s v) l.

(** *** controller/publicReview.js *)

(** [x || 0] for a counter. *)
Definition or0 (x : Z) : Z := if x =? 0 then 0 else x.

Definition vote_up (r : PublicReview) : PublicReview :=
  {| name := name r; review_rating := review_rating r;
     review_comment := review_comment r;
     helpfulUp := or0 (helpfulUp r) + 1; helpfulDown := helpfulDown r;
     review_createdAt := review_createdAt r |}.

Definition vote_down (r : PublicReview) : PublicReview :=
  {| name := name r; review_rating := review_rating r;
     review_comment := review_comment r;
     helpfulUp := helpfulUp r; helpfulDown := or0 (helpfulDown r) + 1;
     review_createdAt := review_createdAt r |}.

(** POST /vote-helpful *)
Definition vote_helpful (body : value) : M Outcome :=
  let reviewId := field "reviewId" body in
  let vote := field "vote" body in
  if negb (truthy reviewId) || negb (truthy vote)
     || negb (includes ["up"; "down"] vote)
  then exit (fail "Invalid vote data" 400)
  else
    let* review := findById "PublicReview" publicReviews reviewId in
    match review with
    | None => exit (fail "Review not found" 404)
    | Some (k, review) =>
        let review :=
          if is_str "up" vote then vote_up review
          else if is_str "down" vote then vote_down review
          else review in
        call (DbSave "PublicReview" k);;
        update (set_publicReviews <[k := review]>);;
        ret (Json 200 (VoteRecorded "Vote recorded" (helpfulUp review)
                         (helpfulDown review)))
    end.

(** [typeof rating !== "number" || rating < 1 || rating > 5] *)
Definition bad_rating (rating : value) : bool :=
  match rating with
  | VNum r => Qltb r 1 || Qgtb r 5
  | _ => true
  end.

(** The number held by a value that passed [bad_rating]. *)
Definition number_of (v : value) : Q :=
  match v with
  | VNum r => r
  | _ => 0
  end.

(** [PublicReview.create(data)] under the schema of model/publicReview.js:
    [name] and [comment] are required strings. *)
Definition PublicReview_create (env : Env) (vname : value) (r : Q)
  (vcomment : value) (created : Z) : M unit :=
  match castString vname, castString vcomment with
  | Some n, Some c =>
      if String.eqb n EmptyString || String.eqb c EmptyString then
        raise "PublicReview validation failed"
      else
        call (DbCreate "PublicReview" (new_id env));;
        update (set_publicReviews
          <[new_id env :=
              {| name := n; review_rating := r; review_comment := c;
                 helpfulUp := 0; helpfulDown := 0;
                 review_createdAt := created |}]>)
  | _, _ => raise "PublicReview validation failed"
  end.

(** POST /public *)
Definition public_review (env : Env) (body : value) : M Outcome :=
  let rating := field "rating" body in
  let comment := field "comment" body in
  let name := field "name" body in
  if negb (truthy rating) || negb (truthy comment) || negb (truthy name)
  then exit (fail "Name, rating, and comment are required" 400)
  else if bad_rating rating
  then exit (fail "Rating must be a number between 1 and 5" 400)
  else
    PublicReview_create env name (number_of rating) comment (now env);;
    ret (Json 201 (Message "Thank you for your review!")).

(** *** The product controller (src/unnamed/part_000) *)

(** [rev?.user?.toString() === user.toString()] *)
Definition by_user (u : string) (rev : Review) : bool :=
  match user rev with
  | Some u' => String.eqb u' u
  | None => false
  end.

(** Assignment to the fields of the first element that satisfies [f] (the
    element [Array.prototype.find] returns). *)
Fixpoint update_first {A} (f : A -> bool) (g : A -> A) (l : list A)
  : list A :=
  match l with
  | [] => []
  | x :: rest => if f x then g x :: rest else x :: update_first f g rest
  end.

Definition edit_review (r : Q) (c : value) (t : Z) (rev : Review) : Review :=
  {| user := user rev; rating := r; comment := c;
     productId := productId rev; createdAt := t |}.

(** The review list after the submission of user [u]. *)
Definition upsert_review (u : string) (r : Q) (c pid : value) (t : Z)
  (revs : list Review) : list Review :=
  match find (by_user u) revs with
  | Some _ => update_first (by_user u) (edit_review r c t) revs
  | None =>
      revs ++ [{| user := Some u; rating := r; comment := c;
                  productId := pid; createdAt := t |}]
  end.

(** [reviews.reduce((sum, review) => sum + review.rating, 0)] *)
Definition totalRating (revs : list Review) : Q :=
  fold_left (fun sum review => sum + rating review)%Q revs 0%Q.

Definition average (revs : list Review) : Q :=
  (totalRating revs / inject_Z (Z.of_nat (length revs)))%Q.

Definition with_reviews (revs : list Review) (p : Product) : Product :=
  {| images := images p; reviews := revs; ratings := Some (average revs);
     product_doc := product_doc p |}.

(** [item && item.productId && item.productId.toString() === productId] *)
Definition line_matches (pid : value) (item : option CartItem) : bool :=
  match item with
  | Some line =>
      match item_productId line with
      | Some s => negb (String.eqb s EmptyString) && is_str s pid
      | None => false
      end
  | None => false
  end.

(** [{ $set: { "cart.$[elem].isReviewed": true } }] with the array filter
    [{ "elem.productId": id }]. *)
Definition mark_reviewed (k : string) (o : Order) : Order :=
  {| cart :=
       map (fun item : option CartItem =>
              match item with
              | Some line =>
                  if decide (item_productId line = Some k)
                  then Some {| item_productId := item_productId line;
                               isReviewed := true |}
                  else item
              | None => None
              end) (cart o) |}.

Definition Order_markReviewed (orderId pid : value) : M unit :=
  match castObjectId pid with
  | None => raise "Argument passed in must be a valid ObjectId"
  | Some k =>
      call (DbUpdate "Order" orderId);;
      match castObjectId orderId with
      | None => raise "Cast to ObjectId failed"
      | Some o => update (set_orders (alter (mark_reviewed k) o))
      end
  end.

(** PUT /create-new-review, for the authenticated user [u]. *)
Definition create_new_review (env : Env) (u : string) (body : value)
  : M Outcome :=
  try_catch
    (let rating := field "rating" body in
     let comment := field "comment" body in
     let productId := field "productId" body in
     let orderId := field "orderId" body in
     if negb (ObjectId_isValid productId) || negb (ObjectId_isValid orderId)
     then exit (fail "Invalid product or order ID" 400)
     else if bad_rating rating
     then exit (fail "Rating must be a number between 1 and 5" 400)
     else
       let* product := findById "Product" products productId in
       match product with
       | None => exit (fail "Product not found" 404)
       | Some (k, product) =>
           let* order := findById "Order" orders orderId in
           match order with
           | None => exit (fail "Order not found" 404)
           | Some (_, order) =>
               let isProductInOrder :=
                 existsb (line_matches productId) (cart order) in
               if negb isProductInOrder
               then exit (fail "Product not found in order" 400)
               else
                 let revs :=
                   upsert_review u (number_of rating) comment productId
                     (now env) (reviews product) in
                 call (DbSave "Product" k);;
                 update (set_products <[k := with_reviews revs product]>);;
                 Order_markReviewed orderId productId;;
                 ret (Json 200 (Message "Reviewed successfully!"))
           end
       end)
    (fun error =>
       call (ConsoleError "Error creating review:");;
       exit (fail (if String.eqb error EmptyString
                   then "Something went wrong"
                   else error) 400)).

(** [!location], or [location.trim()] is the empty string; [trim] exists
    on strings only. *)
Definition blank (location : value) : M bool :=
  if negb (truthy location) then ret true
  else match location with
       | VStr s => ret (trim_is_empty s)
       | _ => raise "location.trim is not a function"
       end.

(** The images of a request as a list: a string stands for one image, an
    array for its elements, anything else for none. *)
Definition imagesArray_of (images : value) : list value :=
  match images with
  | VStr _ => [images]
  | VArr l => l
  | _ => []
  end.

Definition link_value (public_id url : string) : value :=
  VObj [("public_id", VStr public_id); ("url", VStr url)].

(** [cloudinary.v2.uploader.upload(payload, { folder })] as the [i]-th
    upload of the request. *)
Definition cloud_upload (env : Env) (i : nat) (payload : value)
  (folder : string) : M (string * string) :=
  call (CloudUpload payload folder);;
  match upload_result env i payload with
  | Some result => ret result
  | None => raise "upload failed"
  end.

(** The upload loop of create-product: a failed upload ends the request. *)
Fixpoint upload_images (env : Env) (i : nat) (imagesArray : list value)
  (imagesLinks : list value) : M (list value) :=
  match imagesArray with
  | [] => ret imagesLinks
  | image :: rest =>
      let* imagesLinks :=
        try_catch
          (let* result := cloud_upload env i image "products" in
           ret (imagesLinks ++ [link_value (fst result) (snd result)])%list)
          (fun _ => exit (fail "Image upload failed" 500)) in
      upload_images env (S i) rest imagesLinks
  end.

(** [Array.isArray(details) ? details : []] *)
Definition details_of (details : value) : value :=
  if isArray details then details else VArr [].

(** [Product.create(productData)] *)
Definition Product_create (env : Env) (productData : value)
  : M (string * Product) :=
  match Product_schema productData with
  | inl error => raise error
  | inr product =>
      call (DbCreate "Product" (new_id env));;
      update (set_products <[new_id env := product]>);;
      ret (new_id env, product)
  end.

(** A date as its time value. *)
Definition date (t : Z) : value := VNum (inject_Z t).

(** POST /create-product *)
Definition create_product (env : Env) (body : value) : M Outcome :=
  try_catch
    (let shopId := field "shopId" body in
     let images := field "images" body in
     let location := field "location" body in
     let details := field "details" body in
     let rest := omit ["shopId"; "images"; "location"; "details"] body in
     let* no_location := blank location in
     if no_location
     then exit (fail "Product location is required" 400)
     else if negb (truthy shopId)
     then exit (fail "Shop ID is required" 400)
     else
       let* shop := findById "Shop" shops shopId in
       match shop with
       | None => exit (fail "Shop Id is invalid!" 400)
       | Some (_, shop) =>
           let imagesArray := imagesArray_of images in
           let* imagesLinks := upload_images env 0 imagesArray [] in
           let productData :=
             VObj (rest ++ [("location", location);
                            ("details", details_of details);
                            ("images", VArr imagesLinks);
                            ("shopId", shopId);
                            ("shop", shop);
                            ("sold_out", VNum 0);
                            ("createdAt", date (now env))])%list in
           let* created := Product_create env productData in
           ret (Json 201 (Created (fst created) (snd created)))
       end)
    (fun error => exit (fail error 400)).

(** [cloudinary.v2.uploader.destroy(public_id)] as the [i]-th destroy of
    the request. *)
Definition cloud_destroy (env : Env) (i : nat) (id : value) : M unit :=
  call (CloudDestroy id);;
  if destroy_fails env i id then raise "destroy failed" else ret tt.

(** The deletion loop of the delete routes: a failure is written to the
    console and the loop goes on. *)
Fixpoint destroy_images (env : Env) (text : string) (i : nat)
  (l : list ImageLink) : M unit :=
  match l with
  | [] => ret tt
  | image :: rest =>
      try_catch (cloud_destroy env i (public_id image))
        (fun _ => call (ConsoleError text));;
      destroy_images env text (S i) rest
  end.

(** DELETE /delete-shop-product/:id; [product.remove()] deletes the
    document. *)
Definition delete_shop_product (env : Env) (id : string) : M Outcome :=
  try_catch
    (let* product := findById "Product" products (VStr id) in
     match product with
     | None => exit (fail "Product not found with this id" 404)
     | Some (k, product) =>
         destroy_images env "Failed to delete image:" 0 (images product);;
         call (DbRemove "Product" k);;
         update (set_products (delete k));;
         ret (Json 200 (Message "Product deleted successfully!"))
     end)
    (fun error => exit (fail error 400)).

(** *** controller/event.js *)

(** DELETE /delete-shop-event/:id; [event.remove()] deletes the
    document. *)
Definition delete_shop_event (env : Env) (id : string) : M Outcome :=
  let* event := findById "Event" events (VStr id) in
  match event with
  | None => exit (fail "Event not found with this ID" 404)
  | Some (k, event) =>
      destroy_images env "Cloudinary deletion error:" 0 (event_images event);;
      call (DbRemove "Event" k);;
      update (set_events (delete k));;
      ret (Json 200 (Message "Event deleted successfully!"))
  end.

(** *** The product controller that takes uploaded media
    (second part of src/controller/publicReview.js) *)

(** [parseMediaArray] *)
Definition parseMediaArray (media : value) : value :=
  if negb (truthy media) then VArr []
  else match media with
       | VStr s =>
           match JSON.parse s with
           | Some v => v
           | None => VArr []
           end
       | VArr _ => media
       | _ => VArr []
       end.

(** [!img.public_id || !img.url] *)
Definition bad_link (img : value) : M bool :=
  match prop "public_id" img with
  | None => raise "Cannot read properties of null"
  | Some id =>
      if negb (truthy id) then ret true
      else match prop "url" img with
           | None => raise "Cannot read properties of null"
           | Some u => ret (negb (truthy u))
           end
  end.

Fixpoint check_links (text : string) (l : list value) : M unit :=
  match l with
  | [] => ret tt
  | img :: rest =>
      let* bad := bad_link img in
      if bad then exit (fail text 400) else check_links text rest
  end.

(** [for (const img of links) { ... }] *)
Definition check_media (text : string) (links : value) : M unit :=
  match iterate links with
  | Some l => check_links text l
  | None => raise "links is not iterable"
  end.

(** POST /create-product, with media uploaded beforehand *)
Definition create_product_with_media (env : Env) (body : value)
  : M Outcome :=
  let shopId := field "shopId" body in
  let images := field "images" body in
  let videos := field "videos" body in
  let location := field "location" body in
  let details := field "details" body in
  let rest :=
    omit ["shopId"; "images"; "videos"; "location"; "details"] body in
  let* no_location := blank location in
  if no_location
  then exit (fail "Product location is required" 400)
  else if negb (truthy shopId)
  then exit (fail "Shop ID is required" 400)
  else
    let* shop := findById "Shop" shops shopId in
    match shop with
    | None => exit (fail "Invalid Shop ID" 400)
    | Some (_, shop) =>
        let imagesLinks := parseMediaArray images in
        let videoLinks := parseMediaArray videos in
        check_media "Invalid image data format" imagesLinks;;
        check_media "Invalid video data format" videoLinks;;
        let productData :=
          VObj (rest ++ [("location", location);
                         ("details", details_of details);
                         ("images", imagesLinks);
                         ("videos", videoLinks);
                         ("shopId", shopId);
                         ("shop", shop);
                         ("sold_out", VNum 0);
                         ("createdAt", date (now env))])%list in
        let* created := Product_create env productData in
        ret (Json 201 (Created (fst created) (snd created)))
    end.

End Backend.

(** ** A concrete deployment, for the examples

    Ids are 24-digit hexadecimal strings, which every version of the
    libraries accepts and casts to themselves (in lower case). *)

Module Sample.

Definition is_hex (c : ascii) : bool :=
  match JSON.hex_val c with Some _ => true | None => false end.

Definition lower (c : ascii) : ascii :=
  let n := nat_of_ascii c in
  if (65 <=? n)%nat && (n <=? 90)%nat then ascii_of_nat (n + 32) else c.

Definition isValid (v : value) : bool :=
  match v with
  | VStr s =>
      (String.length s =? 24)%nat && forallb is_hex (list_ascii_of_string s)
  | _ => false
  end.

Definition castId (v : value) : option string :=
  match v with
  | VStr s =>
      if isValid v
      then Some (string_of_list_ascii (map lower (list_ascii_of_string s)))
      else None
  | _ => None
  end.

Definition castStr (v : value) : option string :=
  match v with
  | VStr s => Some s
  | _ => None
  end.

Definition link_of (v : value) : ImageLink :=
  {| public_id := field "public_id" v; url := field "url" v |}.

(** A schema that requires a name and takes the images as they come. *)
Definition schema (data : value) : string + Product :=
  if truthy (field "name" data) then
    inr {| images := map link_of (imagesArray_of (field "images" data));
           reviews := []; ratings := None; product_doc := data |}
  else inl "Please enter your product name!".

Definition product_id : string := "64b7f0c2a1d3e4f5a6b7c8d9".
Definition order_id : string := "64b7f0c2a1d3e4f5a6b7c8e0".
Definition shop_id : string := "64b7f0c2a1d3e4f5a6b7c8f1".
Definition review_id : string := "64b7f0c2a1d3e4f5a6b7c902".
Definition event_id : string := "64b7f0c2a1d3e4f5a6b7c913".

Definition picture (n : string) : ImageLink :=
  {| public_id := VStr ("products/" ++ n);
     url := VStr ("http://x/" ++ n ++ ".png") |}.

Definition product0 : Product :=
  {| images := [picture "1"; picture "2"; picture "3"];
     reviews := []; ratings := None;
     product_doc := VObj [("name", VStr "Flat")] |}.

Definition order0 : Order :=
  {| cart := [Some {| item_productId := Some product_id;
                      isReviewed := false |}] |}.

Definition review0 : PublicReview :=
  {| name := "Ann"; review_rating := 5; review_comment := "Good";
     helpfulUp := 0; helpfulDown := 0; review_createdAt := 0 |}.

Definition event0 : Event :=
  {| event_images := [picture "4"; picture "5"; picture "6"];
     event_doc := VObj [("name", VStr "Open day")] |}.

Definition world0 : World :=
  {| products := {[ product_id := product0 ]};
     orders := {[ order_id := order0 ]};
     shops := {[ shop_id := VObj [("name", VStr "Shop")] ]};
     events := {[ event_id := event0 ]};
     publicReviews := {[ review_id := review0 ]};
     trace := [] |}.

(** A media service that never fails, and one whose second call fails. *)
Definition env_at (t : Z) : Env :=
  {| now := t; new_id := "64b7f0c2a1d3e4f5a6b7ca00";
     upload_result := fun i _ => Some ("products/new", "http://x/new.png");
     destroy_fails := fun _ _ => false |}.

Definition env_second_fails : Env :=
  {| now := 7; new_id := "64b7f0c2a1d3e4f5a6b7ca00";
     upload_result :=
       fun i _ => if (i =? 1)%nat then None
                  else Some ("products/new", "http://x/new.png");
     destroy_fails := fun i _ => (i =? 1)%nat |}.

Definition review_body (r : Q) (c : string) : value :=
  VObj [("rating", VNum r); ("comment", VStr c);
        ("productId", VStr product_id); ("orderId", VStr order_id)].

Definition submit (t : Z) (u : string) (r : Q) (c : string) (w : World)
  : Outcome * World :=
  route (create_new_review isValid castId (env_at t) u (review_body r c)) w.

End Sample.

(** ** Vocabulary of the properties *)

(** The arithmetic mean of a list of numbers: their sum over their count. *)
Fixpoint Qsum (l : list Q) : Q :=
  match l with
  | [] => 0%Q
  | x :: rest => (x + Qsum rest)%Q
  end.

Definition mean (l : list Q) : Q :=
  (Qsum l / inject_Z (Z.of_nat (length l)))%Q.

(** The reviews of a reviewer in a review list. *)
Definition reviews_by (u : string) (revs : list Review) : list Review :=
  filter (fun rev => user rev = Some u) revs.

(** A rating within the bounds. *)
Definition in_bounds (r : Q) : Prop := (1 <= r /\ r <= 5)%Q.

(** A valid vote direction. *)
Definition direction (v : value) : Prop := v = VStr "up" \/ v = VStr "down".

(** A public review with other vote counters. *)
Definition with_votes (up down : Z) (r : PublicReview) : PublicReview :=
  {| name := name r; review_rating := review_rating r;
     review_comment := review_comment r;
     helpfulUp := up; helpfulDown := down;
     review_createdAt := review_createdAt r |}.

(** The media ids handed to the media service for deletion, in order. *)
Definition destroyed (t : list Call) : list value :=
  omap (fun c => match c with CloudDestroy id => Some id | _ => None end) t.

(** A request answered with status 200. *)
Definition accepted (o : Outcome) : bool :=
  match o with
  | Json status _ => status =? 200
  | _ => false
  end.

(** Successive submissions of one reviewer, each with its own clock and
    body; [None] as soon as one of them is not answered with 200. *)
Fixpoint submit_all (isValid : value -> bool) (cast : value -> option string)
  (u : string) (calls : list (Env * value)) (w : World) : option World :=
  match calls with
  | [] => Some w
  | (env, body) :: rest =>
      let r := route (create_new_review isValid cast env u body) w in
      if accepted (fst r) then submit_all isValid cast u rest (snd r)
      else None
  end.

(** The reading of the rating rule that admits whole numbers only: the
    review that an accepted submission stores for the reviewer carries a
    whole number from 1 to 5. *)
Definition stores_integers_only : Prop :=
  forall isValid cast env u body w b w' k p rev,
    route (create_new_review isValid cast env u body) w = (Json 200 b, w') ->
    cast (field "productId" body) = Some k ->
    products w' !! k = Some p ->
    In rev (reviews p) ->
    user rev = Some u ->
    exists n : Z, (rating rev == inject_Z n)%Q /\ 1 <= n <= 5.

(** The reading of the vote rule under which every review id that
    resolves to no stored review is answered "Review not found" (404):
    whenever the direction is valid and no stored review is reached
    through the id of the request. *)
Definition not_found_when_unresolved : Prop :=
  forall (cast : value -> option string) body w,
    direction (field "vote" body) ->
    (forall k, cast (field "reviewId" body) = Some k ->
               publicReviews w !! k = None) ->
    fst (route (vote_helpful cast body) w) = fail "Review not found" 404.

(** The reading of the media rule under which one normalisation does
    both: the bare string "http://x/1.png" stands for the list of that
    one string, and the string "{not valid json" for the empty list. *)
Definition normalizes_both (normalize : value -> value) : Prop :=
  normalize (VStr "http://x/1.png") = VArr [VStr "http://x/1.png"]
  /\ normalize (VStr "{not valid json") = VArr [].

(** The normalisations of the images field in the two create-product
    routes: that of the product controller, which uploads, and that of
    the controller that takes uploaded media. *)
Definition media_normalizations : list (value -> value) :=
  [fun images => VArr (imagesArray_of images); parseMediaArray].

(** Product creation has a normalisation of the images field that does
    both. *)
Definition media_normalization_as_stated : Prop :=
  exists normalize,
    In normalize media_normalizations /\ normalizes_both normalize.

(** ** Vocabulary of the further properties *)

(** The payloads handed to the media service for upload, with their
    folders, in order. *)
Definition uploaded (t : list Call) : list (value * string) :=
  omap (fun c => match c with
                 | CloudUpload payload folder => Some (payload, folder)
                 | _ => None
                 end) t.

(** The body of a vote. *)
Definition vote_body (id : value) (d : string) : value :=
  VObj [("reviewId", id); ("vote", VStr d)].

(** Successive votes on one review: the answers and the world they
    leave. *)
Fixpoint vote_all (cast : value -> option string) (id : value)
  (ds : list string) (w : World) : list Outcome * World :=
  match ds with
  | [] => ([], w)
  | d :: rest =>
      let r := route (vote_helpful cast (vote_body id d)) w in
      let rs := vote_all cast id rest (snd r) in
      (fst r :: fst rs, snd rs)
  end.

(** How many of the votes go in direction [d]. *)
Definition votes (d : string) (ds : list string) : Z :=
  Z.of_nat (length (filter (fun x => x = d) ds)).

(** The data that create-product hands to [Product.create] for a request
    body, the shop found and the links of the uploaded images. *)
Definition productData_of (env : Env) (body shop : value)
  (imagesLinks : list value) : value :=
  VObj (omit ["shopId"; "images"; "location"; "details"] body
        ++ [("location", field "location" body);
            ("details", details_of (field "details" body));
            ("images", VArr imagesLinks);
            ("shopId", field "shopId" body);
            ("shop", shop);
            ("sold_out", VNum 0);
            ("createdAt", date (now env))])%list.

(** The links of the images when every upload succeeds; [None] when one of
    them fails. *)
Fixpoint links_of (env : Env) (i : nat) (imagesArray : list value)
  : option (list value) :=
  match imagesArray with
  | [] => Some []
  | image :: rest =>
      match upload_result env i image, links_of env (S i) rest with
      | Some result, Some links =>
          Some (link_value (fst result) (snd result) :: links)
      | _, _ => None
      end
  end.

(** A media descriptor with a [public_id] and a [url]. *)
Definition good_link (img : value) : bool :=
  truthy (field "public_id" img) && truthy (field "url" img).

(** Neither null nor undefined. *)
Definition not_nullish (v : value) : bool :=
  match v with
  | VUndefined | VNull => false
  | _ => true
  end.

(** ** Regular expressions

    The regular expressions of the controllers use classes, literals,
    sequence, alternation and [+]; for these, [RegExp.prototype.test] is
    membership in the language of the expression, decided here with
    derivatives. *)

Module Regex.

Section Symbols.

Context {A : Type}.

Inductive re : Type :=
| Void
| Eps
| Sym (p : A -> bool)
| Cat (r s : re)
| Alt (r s : re)
| Star (r : re).

(** [r+] *)
Definition Plus (r : re) : re := Cat r (Star r).

(** Any input. *)
Definition Any : re := Star (Sym (fun _ => true)).

Fixpoint nullable (r : re) : bool :=
  match r with
  | Void => false
  | Eps => true
  | Sym _ => false
  | Cat r s => nullable r && nullable s
  | Alt r s => nullable r || nullable s
  | Star _ => true
  end.

Fixpoint deriv (a : A) (r : re) : re :=
  match r with
  | Void => Void
  | Eps => Void
  | Sym p => if p a then Eps else Void
  | Cat r s =>
      if nullable r then Alt (Cat (deriv a r) s) (deriv a s)
      else Cat (deriv a r) s
  | Alt r s => Alt (deriv a r) (deriv a s)
  | Star r => Cat (deriv a r) (Star r)
  end.

(** [/^r$/.test(input)] *)
Fixpoint test_whole (r : re) (input : list A) : bool :=
  match input with
  | [] => nullable r
  | a :: rest => test_whole (deriv a r) rest
  end.

(** [/r/.test(input)]: the expression matches somewhere. *)
Definition test (r : re) (input : list A) : bool :=
  test_whole (Cat Any (Cat r Any)) input.

(** The language of an expression. *)
Inductive Matches : re -> list A -> Prop :=
| MEps : Matches Eps []
| MSym p a : p a = true -> Matches (Sym p) [a]
| MCat r s l1 l2 :
    Matches r l1 -> Matches s l2 -> Matches (Cat r s) (l1 ++ l2)
| MAltL r s l : Matches r l -> Matches (Alt r s) l
| MAltR r s l : Matches s l -> Matches (Alt r s) l
| MStarNil r : Matches (Star r) []
| MStarCons r l1 l2 :
    Matches r l1 -> Matches (Star r) l2 -> Matches (Star r) (l1 ++ l2).

End Symbols.

Arguments re A : clear implicits.

(** The expression of a literal text. *)
Fixpoint Lit (s : list ascii) : re ascii :=
  match s with
  | [] => Eps
  | c :: rest => Cat (Sym (Ascii.eqb c)) (Lit rest)
  end.

(** [w1|w2|...] *)
Fixpoint OneOf (words : list string) : re ascii :=
  match words with
  | [] => Void
  | w :: rest => Alt (Lit (list_ascii_of_string w)) (OneOf rest)
  end.

End Regex.

(** ** Text *)

(** A string as a regular expression or [trim] sees it: one unit for
    each white-space character, whatever the number of its bytes, and one
    for each byte of any other character.  The expressions of the
    controllers never tell the bytes of one character from several
    characters. *)
Inductive glyph : Type :=
| Space
| Byte (c : ascii).

Fixpoint glyphs (s : string) : list glyph :=
  match s with
  | EmptyString => []
  | String c1 r1 =>
      if is_space c1 then Space :: glyphs r1
      else
        match r1 with
        | String c2 r2 =>
            if is_space2 c1 c2 then Space :: glyphs r2
            else
              match r2 with
              | String c3 r3 =>
                  if is_space3 c1 c2 c3 then Space :: glyphs r3
                  else Byte c1 :: glyphs r1
              | EmptyString => Byte c1 :: glyphs r1
              end
        | EmptyString => [Byte c1]
        end
  end.

Definition is_byte (c : ascii) (g : glyph) : bool :=
  match g with
  | Byte c' => Ascii.eqb c c'
  | Space => false
  end.

(** [\s] and [[^\s@]] *)
Definition is_white (g : glyph) : bool :=
  match g with Space => true | Byte _ => false end.

Definition not_white_or_at (g : glyph) : bool :=
  negb (is_white g) && negb (is_byte "@" g).

(** [s.split(sep)] for a separator of one character. *)
Fixpoint split_on (sep : ascii) (s : list ascii) : list (list ascii) :=
  match s with
  | [] => [[]]
  | c :: rest =>
      if Ascii.eqb c sep then [] :: split_on sep rest
      else
        match split_on sep rest with
        | piece :: pieces => (c :: piece) :: pieces
        | [] => [[c]]
        end
  end.

(** [pieces.pop()] on the pieces of a split, of which there is always
    one. *)
Definition pop (pieces : list (list ascii)) : list ascii :=
  List.last pieces [].

Definition ascii_lower (c : ascii) : ascii :=
  let n := nat_of_ascii c in
  if (65 <=? n)%nat && (n <=? 90)%nat then ascii_of_nat (n + 32) else c.

(** [s.toLowerCase()] on the UTF-8 bytes of a string, as far as a test
    for ASCII text can tell: the ASCII capitals, U+0130 (bytes 196, 176),
    which becomes "i" and U+0307 (bytes 204, 135), and U+212A, the Kelvin
    sign (bytes 226, 132, 170), which becomes "k".  The lower case of any
    other character holds no ASCII character; it is left as it is. *)
Fixpoint toLowerCase (s : list ascii) : list ascii :=
  match s with
  | [] => []
  | c1 :: r1 =>
      match r1 with
      | c2 :: r2 =>
          if (nat_of_ascii c1 =? 196)%nat && (nat_of_ascii c2 =? 176)%nat
          then "i"%char :: ascii_of_nat 204 :: ascii_of_nat 135
                 :: toLowerCase r2
          else
            match r2 with
            | c3 :: r3 =>
                if (nat_of_ascii c1 =? 226)%nat
                   && (nat_of_ascii c2 =? 132)%nat
                   && (nat_of_ascii c3 =? 170)%nat
                then "k"%char :: toLowerCase r3
                else ascii_lower c1 :: toLowerCase r1
            | [] => ascii_lower c1 :: toLowerCase r1
            end
      | [] => [ascii_lower c1]
      end
  end.

(** Removal of the white-space characters in front of a list of bytes;
    a white-space character takes one, two or three bytes. *)
Fixpoint strip (sp1 : ascii -> bool) (sp2 : ascii -> ascii -> bool)
  (sp3 : ascii -> ascii -> ascii -> bool) (s : list ascii) : list ascii :=
  match s with
  | [] => []
  | c1 :: r1 =>
      if sp1 c1 then strip sp1 sp2 sp3 r1
      else
        match r1 with
        | c2 :: r2 =>
            if sp2 c1 c2 then strip sp1 sp2 sp3 r2
            else
              match r2 with
              | c3 :: r3 =>
                  if sp3 c1 c2 c3 then strip sp1 sp2 sp3 r3 else s
              | [] => s
              end
        | [] => s
        end
  end.

Definition trimStart (s : list ascii) : list ascii :=
  strip is_space is_space2 is_space3 s.

(** At the end, the bytes of a character come in reverse. *)
Definition trimEnd (s : list ascii) : list ascii :=
  rev (strip is_space (fun c2 c1 => is_space2 c1 c2)
         (fun c3 c2 c1 => is_space3 c1 c2 c3) (rev s)).

(** [s.trim()] *)
Definition trim (s : list ascii) : list ascii := trimEnd (trimStart s).

(** How many bytes a capital of more than one byte at the head of a list
    takes: 2 for U+0130, 3 for U+212A, 0 when there is none. *)
Definition wide_capital (s : list ascii) : nat :=
  match s with
  | c1 :: c2 :: r2 =>
      if (nat_of_ascii c1 =? 196)%nat && (nat_of_ascii c2 =? 176)%nat
      then 2%nat
      else
        match r2 with
        | c3 :: _ =>
            if (nat_of_ascii c1 =? 226)%nat && (nat_of_ascii c2 =? 132)%nat
               && (nat_of_ascii c3 =? 170)%nat
            then 3%nat else 0%nat
        | [] => 0%nat
        end
  | _ => 0%nat
  end.

(** How many bytes a white-space character at the head of a list takes,
    0 when there is none. *)
Definition white_prefix (sp1 : ascii -> bool) (sp2 : ascii -> ascii -> bool)
  (sp3 : ascii -> ascii -> ascii -> bool) (s : list ascii) : nat :=
  match s with
  | [] => 0%nat
  | c1 :: r1 =>
      if sp1 c1 then 1%nat
      else
        match r1 with
        | c2 :: r2 =>
            if sp2 c1 c2 then 2%nat
            else
              match r2 with
              | c3 :: _ => if sp3 c1 c2 c3 then 3%nat else 0%nat
              | [] => 0%nat
              end
        | [] => 0%nat
        end
  end.

(** ** Further route handlers *)

(** *** The upload filter (second part of src/controller/publicReview.js) *)

(** [/jpeg|jpg|png|gif|mp4|mov|avi|mkv|webm/] *)
Definition allowedTypes_words : list string :=
  ["jpeg"; "jpg"; "png"; "gif"; "mp4"; "mov"; "avi"; "mkv"; "webm"].

Definition allowedTypes : Regex.re ascii := Regex.OneOf allowedTypes_words.

(** [file.originalname.toLowerCase().split(".").pop()] *)
Definition extension (originalname : string) : list ascii :=
  pop (split_on "." (toLowerCase (list_ascii_of_string originalname))).

(** [fileFilter]: what is handed to the callback, [cb(null, true)] or
    [cb(new ErrorHandler("Unsupported file type", 400))]. *)
Definition fileFilter (originalname : string) : ErrorHandler + bool :=
  if Regex.test allowedTypes (extension originalname) then inr true
  else inl {| message := "Unsupported file type"; statusCode := 400 |}.

(** *** controller/message.js *)

(** [/^[^\s@]+@[^\s@]+\.[^\s@]+$/] *)
Definition emailRegex : Regex.re glyph :=
  Regex.Cat (Regex.Plus (Regex.Sym not_white_or_at))
    (Regex.Cat (Regex.Sym (is_byte "@"))
       (Regex.Cat (Regex.Plus (Regex.Sym not_white_or_at))
          (Regex.Cat (Regex.Sym (is_byte "."))
             (Regex.Plus (Regex.Sym not_white_or_at))))).

(** The answers of the contact route: [{ error }] or [{ message }] with a
    status. *)
Inductive Reply : Type :=
| ReplyError (status : Z) (error : string)
| ReplyMessage (status : Z) (text : string).

(** The message collection and the console. *)
Record Inbox : Type := {
  inbox_messages : gmap string value;
  inbox_console : list string;
}.

(** An event data record as create-event builds it.  A date is null
    ([None]), invalid ([Some None]) or a time; a number may be NaN
    ([None]). *)
Record EventData : Type := {
  e_name : value;
  e_description : value;
  e_category : value;
  e_startDate : option (option Z);
  e_endDate : option (option Z);
  e_status : value;
  e_tags : list value;
  e_originalPrice : Q;
  e_discountPrice : option Q;
  e_stock : option Q;
  e_images : list value;
  e_shopId : string;
  e_shop : value;
}.

Section Further.

Variable castObjectId : value -> option string.

(** [String(v)] for a value that is not a string. *)
Variable toString : value -> string.

(** [Number(v)]; [None] is NaN. *)
Variable toNumber : value -> option Q.

(** [new Date(v)]: the time value; [None] is an invalid date. *)
Variable newDate : value -> option Z.

(** model/message.js and model/event.js: casting and validation of the
    data handed to the model, an error message or the document. *)
Variable Message_schema : value -> string + value.
Variable Event_schema : EventData -> string + Event.

(** [populate("seller")] on a shop: the id of its seller, [None] when the
    shop has no seller or the seller is gone. *)
Variable seller_of : value -> option string.

(** [emailRegex.test(email)] *)
Definition email_ok (email : value) : bool :=
  Regex.test_whole emailRegex
    (glyphs (match email with VStr s => s | _ => toString email end)).

(** POST /contact *)
Definition contact (env : Env) (body : value) (box : Inbox)
  : Reply * Inbox :=
  let name := field "name" body in
  let email := field "email" body in
  let subject := field "subject" body in
  let message := field "message" body in
  if negb (truthy name) || negb (truthy email) || negb (truthy subject)
     || negb (truthy message)
  then (ReplyError 400 "All fields are required.", box)
  else if negb (email_ok email)
  then (ReplyError 400 "Invalid email format.", box)
  else
    match Message_schema (VObj [("name", name); ("email", email);
                                ("subject", subject); ("message", message)])
    with
    | inr doc =>
        (ReplyMessage 200 "Message received and saved!",
         {| inbox_messages := <[new_id env := doc]> (inbox_messages box);
            inbox_console := inbox_console box |})
    | inl _ =>
        (ReplyError 500 "Failed to save message.",
         {| inbox_messages := inbox_messages box;
            inbox_console :=
              (inbox_console box ++ ["Error saving message:"])%list |})
    end.

(** *** controller/event.js, further *)

(** [tags.split(",").map((tag) => tag.trim()).filter((tag) => tag.length > 0)]
    for a string, the array itself for an array, no tag otherwise. *)
Definition clean_tags (s : string) : list (list ascii) :=
  List.filter (fun tag => match tag with [] => false | _ => true end)
    (map trim (split_on "," (list_ascii_of_string s))).

Definition tagsArray_of (tags : value) : list value :=
  match tags with
  | VStr s => map (fun tag => VStr (string_of_list_ascii tag)) (clean_tags s)
  | VArr l => l
  | _ => []
  end.

(** [v ? new Date(v) : null] *)
Definition date_of (v : value) : option (option Z) :=
  if truthy v then Some (newDate v) else None.

(** [Number(v) || 0] *)
Definition number_or_0 (v : value) : Q :=
  match toNumber v with
  | Some q => if Qeq_bool q 0 then 0%Q else q
  | None => 0%Q
  end.

(** The upload loop of create-event: nothing catches a failed upload. *)
Fixpoint upload_event_images (env : Env) (i : nat) (imagesArray : list value)
  (imagesLinks : list value) : M (list value) :=
  match imagesArray with
  | [] => ret imagesLinks
  | image :: rest =>
      let* result := cloud_upload env i image "events" in
      upload_event_images env (S i) rest
        (imagesLinks ++ [link_value (fst result) (snd result)])%list
  end.

(** [Event.create(eventData)] *)
Definition Event_create (env : Env) (eventData : EventData)
  : M (string * Event) :=
  match Event_schema eventData with
  | inl error => raise error
  | inr event =>
      call (DbCreate "Event" (new_id env));;
      update (set_events <[new_id env := event]>);;
      ret (new_id env, event)
  end.

Definition eventData_of (body : value) (shop_id : string) (shop : value)
  (imagesLinks : list value) : EventData :=
  {| e_name := field "name" body;
     e_description := field "description" body;
     e_category := field "category" body;
     e_startDate := date_of (field "startDate" body);
     e_endDate := date_of (field "endDate" body);
     e_status := if truthy (field "status" body) then field "status" body
                 else VStr "Running";
     e_tags := tagsArray_of (field "tags" body);
     e_originalPrice := number_or_0 (field "originalPrice" body);
     e_discountPrice := toNumber (field "discountPrice" body);
     e_stock := toNumber (field "stock" body);
     e_images := imagesLinks;
     e_shopId := shop_id;
     e_shop := VObj [("_id", VStr shop_id); ("name", field "name" shop)] |}.

(** POST /create-event: on completion the event and its id, sent with
    status 201. *)
Definition create_event (env : Env) (body : value) : M (string * Event) :=
  let shopId := field "shopId" body in
  let images := field "images" body in
  if negb (truthy shopId)
  then exit (fail "Shop ID is required." 400)
  else
    let* shop := findById castObjectId "Shop" shops shopId in
    match shop with
    | None => exit (fail "Invalid Shop ID." 400)
    | Some (shop_id, shop) =>
        let* imagesArray :=
          match images with
          | VStr _ => ret [images]
          | VArr l => ret l
          | _ => exit (fail "Images must be a string or array." 400)
          end in
        let* imagesLinks := upload_event_images env 0 imagesArray [] in
        Event_create env (eventData_of body shop_id shop imagesLinks)
    end.

(** How a request for a new event ends. *)
Inductive EventReply : Type :=
| EventCreated (id : string) (event : Event)
| EventFailed (o : Outcome).

Definition event_route (m : M (string * Event)) (w : World)
  : EventReply * World :=
  match m w with
  | (Val created, w') => (EventCreated (fst created) (snd created), w')
  | (Return o, w') => (EventFailed o, w')
  | (Raise e, w') => (EventFailed (Rejected e), w')
  end.

(** *** The event controller that checks the owner (bundled with
    src/model/blog.js) *)

(** DELETE /delete-shop-event/:id, for the authenticated user [u]. *)
Definition delete_own_shop_event (env : Env) (u : string) (id : string)
  : M Outcome :=
  let* event := findById castObjectId "Event" events (VStr id) in
  match event with
  | None => exit (fail "Event not found with this ID" 404)
  | Some (k, event) =>
      match prop "_id" (field "shop" (event_doc event)) with
      | None => raise "Cannot read properties of undefined"
      | Some shop_id =>
          let* shop := findById castObjectId "Shop" shops shop_id in
          match shop with
          | None => exit (fail "Shop not found for this event" 404)
          | Some (_, shop) =>
              let owner :=
                match seller_of shop with
                | Some seller => String.eqb seller u
                | None => false
                end in
              if negb owner
              then exit (fail "Unauthorized: You can't delete this event."
                           403)
              else
                destroy_images env "Cloudinary deletion failed:" 0
                  (event_images event);;
                call (DbRemove "Event" k);;
                update (set_events (delete k));;
                ret (Json 200 (Message "Event deleted successfully!"))
          end
      end
  end.

End Further.


(** [typeof v === "string" || Array.isArray(v)] *)
Definition string_or_array (v : value) : bool :=
  match v with
  | VStr _ | VArr _ => true
  | _ => false
  end.
(** ** A concrete deployment for the further handlers *)

Module Demo.

(** Text of a value that is not a string: none is needed below. *)
Definition toString (v : value) : string := EmptyString.

Definition toNumber (v : value) : option Q :=
  match v with
  | VNum q => Some q
  | _ => None
  end.

(** [new Date(v)] for a number of milliseconds: the whole part, when it
    is within the range of dates; other values are not needed below. *)
Definition newDate (v : value) : option Z :=
  match v with
  | VNum q =>
      let t := Z.quot (Qnum q) (Z.pos (Qden q)) in
      if Z.abs t <=? 8640000000000000 then Some t else None
  | _ => None
  end.

(** The message model is not among the sources: one that asks for a
    name. *)
Definition message_schema (data : value) : string + value :=
  if truthy (field "name" data) then inr data else inl "Name is required".

Definition text (v : value) : bool :=
  match v with
  | VStr s => negb (String.eqb s EmptyString)
  | _ => false
  end.

(** src/model/event.js, for data whose name and description are strings:
    both are required, and so are the two dates; the document keeps the
    paths of the schema (a status, tags and prices are not among them). *)
Definition event_schema (data : EventData) : string + Event :=
  if negb (text (e_name data))
  then inl "Event validation failed: name: Please enter event name!"
  else if negb (text (e_description data))
  then inl "Event validation failed: description: Please enter event description!"
  else
    match e_startDate data, e_endDate data with
    | Some (Some startDate), Some (Some endDate) =>
        inr {| event_images := map Sample.link_of (e_images data);
               event_doc :=
                 VObj [("name", e_name data);
                       ("description", e_description data);
                       ("startDate", VNum (inject_Z startDate));
                       ("endDate", VNum (inject_Z endDate));
                       ("shopId", VStr (e_shopId data));
                       ("shop", e_shop data)] |}
    | Some (Some _), _ =>
        inl "Event validation failed: endDate: Path `endDate` is required."
    | _, _ =>
        inl "Event validation failed: startDate: Path `startDate` is required."
    end.

Definition seller_id : string := "64b7f0c2a1d3e4f5a6b7cb01".

(** The sample shop belongs to [seller_id]. *)
Definition seller_of (shop : value) : option string :=
  match field "seller" shop with
  | VStr s => Some s
  | _ => None
  end.

Definition event1 : Event :=
  {| event_images := [Sample.picture "7"; Sample.picture "8"];
     event_doc :=
       VObj [("name", VStr "Open day");
             ("shop", VObj [("_id", VStr Sample.shop_id);
                            ("name", VStr "Shop")])] |}.

Definition world1 : World :=
  {| products := {[ Sample.product_id := Sample.product0 ]};
     orders := {[ Sample.order_id := Sample.order0 ]};
     shops := {[ Sample.shop_id :=
                   VObj [("name", VStr "Shop"); ("seller", VStr seller_id)] ]};
     events := {[ Sample.event_id := event1 ]};
     publicReviews := ∅;
     trace := [] |}.

Definition inbox0 : Inbox :=
  {| inbox_messages := ∅; inbox_console := [] |}.

Definition contact_body (email : string) : value :=
  VObj [("name", VStr "Ann"); ("email", VStr email);
        ("subject", VStr "Visit"); ("message", VStr "Hello")].

End Demo.

(** Unfolding of a review submission down to the steps of the handler. *)
Ltac run_handler :=
  unfold route, create_new_review, findById, Order_markReviewed;
  unfold try_catch, bind, call, read, update, exit, raise, ret.

(** ** Proofs *)

(** *** Votes *)

Lemma or0_id (x : Z) : or0 x = x.
Proof. unfold or0. destruct (x =? 0) eqn:E; [lia | reflexivity]. Qed.

Lemma is_str_true (s : string) (v : value) :
  is_str s v = true <-> v = VStr s.
Proof.
  destruct v; simpl; try (split; [discriminate | congruence]).
  rewrite String.eqb_eq. split; [intros -> | intros [= ->]]; reflexivity.
Qed.

Lemma includes_direction (v : value) :
  includes ["up"; "down"] v = true <-> direction v.
Proof.
  unfold includes, direction. simpl.
  rewrite !orb_true_iff, !is_str_true. intuition discriminate.
Qed.

(** A direction that is not valid ends the request before any lookup. *)
Lemma vote_helpful_invalid cast (body : value) (w : World) :
  ~ direction (field "vote" body) ->
  route (vote_helpful cast body) w = (fail "Invalid vote data" 400, w).
Proof.
  intros Hdir. unfold route, vote_helpful.
  destruct (includes ["up"; "down"] (field "vote" body)) eqn:E.
  - apply includes_direction in E. contradiction.
  - rewrite !orb_true_r. reflexivity.
Qed.

(** A valid vote on a stored review. *)
Lemma vote_helpful_found cast (body : value) (w : World) k r :
  truthy (field "reviewId" body) = true ->
  direction (field "vote" body) ->
  cast (field "reviewId" body) = Some k ->
  publicReviews w !! k = Some r ->
  let r' := if is_str "up" (field "vote" body) then vote_up r
            else vote_down r in
  route (vote_helpful cast body) w =
    (Json 200 (VoteRecorded "Vote recorded" (helpfulUp r') (helpfulDown r')),
     set_publicReviews <[k := r']>
       (log (DbSave "PublicReview" k)
          (log (DbFind "PublicReview" (field "reviewId" body)) w))).
Proof.
  intros Hid Hdir Hcast Hr. unfold route, vote_helpful.
  rewrite Hid. pose proof Hdir as Hinc. apply includes_direction in Hinc.
  rewrite Hinc.
  assert (Hv : truthy (field "vote" body) = true)
    by (destruct Hdir as [-> | ->]; reflexivity).
  rewrite Hv. simpl negb. simpl orb. cbv iota.
  unfold findById, bind, call, read, update, ret. rewrite Hcast.
  simpl. rewrite Hr. simpl.
  destruct Hdir as [-> | ->]; reflexivity.
Qed.

(** *** Submitting a review *)

Lemma bad_rating_false (v : value) :
  bad_rating v = false <-> exists r, v = VNum r /\ in_bounds r.
Proof.
  unfold bad_rating, in_bounds, Qgtb, Qltb.
  destruct v as [| | b | q | s | l | fs];
    try (split; [discriminate | intros (r & [=] & _)]).
  rewrite orb_false_iff, !negb_false_iff, !Qle_bool_iff.
  split.
  - intros [H1 H5]. exists q. auto.
  - intros (r & [= ->] & H). exact H.
Qed.

(** What an accepted submission has checked and what it has written. *)
Lemma create_new_review_accepted isValid cast env u body w b w' :
  route (create_new_review isValid cast env u body) w = (Json 200 b, w') ->
  exists r k p ko o,
    field "rating" body = VNum r /\ in_bounds r
    /\ cast (field "productId" body) = Some k /\ products w !! k = Some p
    /\ cast (field "orderId" body) = Some ko /\ orders w !! ko = Some o
    /\ existsb (line_matches (field "productId" body)) (cart o) = true
    /\ products w' =
         <[k := with_reviews
                  (upsert_review u r (field "comment" body)
                     (field "productId" body) (now env) (reviews p)) p]>
           (products w).
Proof.
  run_handler. intros H.
  destruct (bad_rating (field "rating" body)) eqn:Hbad.
  { repeat case_match; simplify_eq. }
  apply bad_rating_false in Hbad as (r & Hr & Hin).
  repeat case_match; simplify_eq; simpl in *.
  repeat match goal with
         | H : _ <$> _ = Some _ |- _ => apply fmap_Some in H as (? & ? & [= -> ->])
         end.
  rewrite Hr. simpl.
  match goal with H : negb _ = false |- _ => apply negb_false_iff in H end.
  eauto 15.
Qed.

(** A submission that is not answered with 200 is answered with an error
    and has written nothing. *)
Lemma create_new_review_cases isValid cast env u body w :
  let r := route (create_new_review isValid cast env u body) w in
  (exists b, fst r = Json 200 b)
  \/ (exists err, fst r = Next err /\ same_db w (snd r)).
Proof.
  run_handler. unfold same_db.
  repeat case_match; simplify_eq; simpl in *;
    repeat match goal with
           | H : _ <$> _ = Some _ |- _ =>
               apply fmap_Some in H as (? & ? & [= -> ->])
           end;
    simplify_eq; eauto 10.
Qed.

(** *** The review list *)

Lemma by_user_true (u : string) (rev : Review) :
  by_user u rev = true <-> user rev = Some u.
Proof.
  unfold by_user. destruct (user rev) as [u' |]; [| split; discriminate].
  rewrite String.eqb_eq. split; [intros -> | intros [= ->]]; reflexivity.
Qed.

Lemma by_user_false (u : string) (rev : Review) :
  by_user u rev = false <-> user rev <> Some u.
Proof.
  rewrite <- by_user_true. destruct (by_user u rev); split; congruence.
Qed.

Lemma find_none_reviews_by (u : string) (revs : list Review) :
  find (by_user u) revs = None -> reviews_by u revs = [].
Proof.
  unfold reviews_by. induction revs as [| x rest IH]; simpl; [reflexivity |].
  destruct (by_user u x) eqn:E; [discriminate |]. intros H.
  apply by_user_false in E. rewrite filter_cons_False by exact E. auto.
Qed.

Lemma update_first_reviews_by (u : string) (g : Review -> Review)
  (revs : list Review) x :
  (forall rev, user (g rev) = user rev) ->
  find (by_user u) revs = Some x ->
  (length (reviews_by u revs) <= 1)%nat ->
  exists y, find (by_user u) revs = Some y
    /\ reviews_by u (update_first (by_user u) g revs) = [g y].
Proof.
  intros Hg. unfold reviews_by.
  induction revs as [| y rest IH]; simpl; [discriminate |].
  destruct (by_user u y) eqn:E.
  - intros _ Hlen. apply by_user_true in E.
    rewrite filter_cons_True in Hlen by exact E.
    rewrite filter_cons_True by (rewrite Hg; exact E).
    exists y. split; [reflexivity |]. f_equal.
    simpl in Hlen. destruct (filter _ rest); [reflexivity | simpl in Hlen; lia].
  - intros Hfind Hlen. apply by_user_false in E.
    rewrite filter_cons_False in Hlen by exact E.
    rewrite filter_cons_False by exact E. auto.
Qed.

Lemma update_first_other (u u' : string) (g : Review -> Review)
  (revs : list Review) :
  (forall rev, user (g rev) = user rev) ->
  u' <> u ->
  reviews_by u' (update_first (by_user u) g revs) = reviews_by u' revs.
Proof.
  intros Hg Hne. unfold reviews_by.
  induction revs as [| y rest IH]; simpl; [reflexivity |].
  destruct (by_user u y) eqn:E.
  - apply by_user_true in E.
    rewrite !filter_cons_False; [reflexivity | |]; rewrite ?Hg, E; congruence.
  - destruct (decide (user y = Some u')) as [Hy | Hy].
    + rewrite !filter_cons_True by exact Hy. f_equal. exact IH.
    + rewrite !filter_cons_False by exact Hy. exact IH.
Qed.

(** After a submission by [u] on a list that held at most one review by
    [u], the list holds exactly one, with the submitted fields. *)
Lemma upsert_review_one (u : string) r c pid t (revs : list Review) :
  (length (reviews_by u revs) <= 1)%nat ->
  exists rev,
    reviews_by u (upsert_review u r c pid t revs) = [rev]
    /\ user rev = Some u /\ rating rev = r /\ comment rev = c
    /\ createdAt rev = t.
Proof.
  intros Hlen. unfold upsert_review.
  destruct (find (by_user u) revs) as [x |] eqn:Hfind.
  - destruct (update_first_reviews_by u (edit_review r c t) revs x)
      as (y & Hy & ->); auto.
    exists (edit_review r c t y). simpl. rewrite Hy in Hfind.
    apply find_some in Hy as [_ Hy]. apply by_user_true in Hy.
    auto.
  - unfold reviews_by in *. rewrite filter_app.
    fold (reviews_by u revs). rewrite (find_none_reviews_by _ _ Hfind).
    rewrite (filter_cons_True _ _ []) by reflexivity.
    eexists. split; [reflexivity |]. simpl. auto.
Qed.

(** The reviews of the other reviewers stay as they are. *)
Lemma upsert_review_other (u u' : string) r c pid t (revs : list Review) :
  u' <> u ->
  reviews_by u' (upsert_review u r c pid t revs) = reviews_by u' revs.
Proof.
  intros Hne. unfold upsert_review.
  destruct (find (by_user u) revs).
  - apply update_first_other; auto.
  - unfold reviews_by. rewrite filter_app.
    rewrite (filter_cons_False _ _ []) by (simpl; congruence).
    rewrite filter_nil. apply app_nil_r.
Qed.

Lemma update_first_length {A} (f : A -> bool) (g : A -> A) (l : list A) :
  length (update_first f g l) = length l.
Proof.
  induction l as [| x rest IH]; simpl; [reflexivity |].
  destruct (f x); simpl; congruence.
Qed.

Lemma upsert_review_nonempty (u : string) r c pid t (revs : list Review) :
  upsert_review u r c pid t revs <> [].
Proof.
  unfold upsert_review. destruct (find (by_user u) revs) eqn:Hfind.
  - intros H. apply (f_equal length) in H.
    rewrite update_first_length in H.
    destruct revs; [discriminate | discriminate].
  - destruct revs; discriminate.
Qed.

(** Ratings within the bounds stay within the bounds. *)
Lemma upsert_review_in_bounds (u : string) r c pid t (revs : list Review) :
  in_bounds r ->
  Forall (fun rev => in_bounds (rating rev)) revs ->
  Forall (fun rev => in_bounds (rating rev))
    (upsert_review u r c pid t revs).
Proof.
  intros Hr Hall. unfold upsert_review.
  destruct (find (by_user u) revs).
  - induction Hall as [| x rest Hx Hrest IH]; simpl; [constructor |].
    destruct (by_user u x); constructor; auto.
  - apply Forall_app. split; [exact Hall |]. constructor; [exact Hr | constructor].
Qed.

(** *** The average *)

Lemma totalRating_from (revs : list Review) (a : Q) :
  (fold_left (fun sum review => sum + rating review) revs a
   == a + Qsum (map rating revs))%Q.
Proof.
  revert a. induction revs as [| x rest IH]; intros a; simpl.
  - ring.
  - rewrite IH. ring.
Qed.

Lemma average_mean (revs : list Review) :
  (average revs == mean (map rating revs))%Q.
Proof.
  unfold average, mean, totalRating. rewrite totalRating_from.
  rewrite length_map. apply Qdiv_comp; [ring | reflexivity].
Qed.

Lemma upsert_review_stored (u : string) r c pid t (revs : list Review) :
  exists rev, In rev (upsert_review u r c pid t revs)
    /\ user rev = Some u /\ rating rev = r.
Proof.
  unfold upsert_review. destruct (find (by_user u) revs) as [x |] eqn:Hfind.
  - induction revs as [| y rest IH]; simpl in *; [discriminate |].
    destruct (by_user u y) eqn:E.
    + apply by_user_true in E. exists (edit_review r c t y).
      simpl. auto.
    + destruct (IH Hfind) as (rev & Hin & Hrev). exists rev. simpl. auto.
  - eexists. split; [apply in_or_app; right; left; reflexivity |].
    simpl. auto.
Qed.

(** The first submission of a reviewer appends a review. *)
Lemma upsert_review_new (u : string) r c pid t (revs : list Review) :
  Forall (fun rev => user rev <> Some u) revs ->
  upsert_review u r c pid t revs =
    (revs ++ [{| user := Some u; rating := r; comment := c;
                 productId := pid; createdAt := t |}])%list.
Proof.
  intros Hall. unfold upsert_review.
  destruct (find (by_user u) revs) as [x |] eqn:Hfind; [| reflexivity].
  apply find_some in Hfind as [Hin Hx]. apply by_user_true in Hx.
  rewrite Forall_forall in Hall. apply list_elem_of_In in Hin.
  destruct (Hall x Hin Hx).
Qed.

(** One accepted submission, seen from the product it names. *)
Lemma create_new_review_step isValid cast env u body w b w' k p :
  route (create_new_review isValid cast env u body) w = (Json 200 b, w') ->
  cast (field "productId" body) = Some k ->
  products w !! k = Some p ->
  exists r,
    field "rating" body = VNum r /\ in_bounds r
    /\ products w' !! k =
         Some (with_reviews
                 (upsert_review u r (field "comment" body)
                    (field "productId" body) (now env) (reviews p)) p).
Proof.
  intros H Hk Hp.
  apply create_new_review_accepted in H
    as (r & k' & p' & ko & o & Hr & Hin & Hk' & Hp' & _ & _ & _ & Hw').
  simplify_eq. exists r. rewrite Hw', lookup_insert_eq. auto.
Qed.

(** C1. After every accepted submission the stored [ratings] of the
    product is the arithmetic mean of the ratings of the reviews stored on
    it, sum over count; and once three distinct reviewers have rated a
    product without reviews 4, 2 and 5, its [ratings] is 11/3. *)
Theorem create_new_review_ratings_mean :
  (forall isValid cast env u body w b w',
      route (create_new_review isValid cast env u body) w = (Json 200 b, w') ->
      exists k p q,
        cast (field "productId" body) = Some k
        /\ products w' !! k = Some p
        /\ reviews p <> []
        /\ ratings p = Some q
        /\ (q == mean (map rating (reviews p)))%Q)
  /\ (forall isValid cast e1 e2 e3 u1 u2 u3 body1 body2 body3 pid k p0
             w0 w1 w2 w3 b1 b2 b3,
      u1 <> u2 -> u1 <> u3 -> u2 <> u3 ->
      field "productId" body1 = pid ->
      field "productId" body2 = pid ->
      field "productId" body3 = pid ->
      field "rating" body1 = VNum 4 ->
      field "rating" body2 = VNum 2 ->
      field "rating" body3 = VNum 5 ->
      cast pid = Some k ->
      products w0 !! k = Some p0 ->
      reviews p0 = [] ->
      route (create_new_review isValid cast e1 u1 body1) w0 = (Json 200 b1, w1) ->
      route (create_new_review isValid cast e2 u2 body2) w1 = (Json 200 b2, w2) ->
      route (create_new_review isValid cast e3 u3 body3) w2 = (Json 200 b3, w3) ->
      exists p q,
        products w3 !! k = Some p
        /\ length (reviews p) = 3%nat
        /\ ratings p = Some q
        /\ (q == 11 # 3)%Q).
Proof.
  split.
  - intros isValid cast env u body w b w' H.
    apply create_new_review_accepted in H
      as (r & k & p & ko & o & Hr & Hin & Hk & Hp & _ & _ & _ & Hw').
    eexists k, _, _. split; [exact Hk |].
    rewrite Hw', lookup_insert_eq. split; [reflexivity |]. simpl.
    split; [apply upsert_review_nonempty |].
    split; [reflexivity | apply average_mean].
  - intros isValid cast e1 e2 e3 u1 u2 u3 body1 body2 body3 pid k p0
      w0 w1 w2 w3 b1 b2 b3 H12 H13 H23 Hp1 Hp2 Hp3 Hr1 Hr2 Hr3 Hk Hp0 Hnil
      S1 S2 S3.
    rewrite <- Hp1 in Hk.
    destruct (create_new_review_step _ _ _ _ _ _ _ _ _ _ S1 Hk Hp0)
      as (r1 & Hr1' & _ & L1).
    rewrite Hp1, <- Hp2 in Hk.
    destruct (create_new_review_step _ _ _ _ _ _ _ _ _ _ S2 Hk L1)
      as (r2 & Hr2' & _ & L2).
    rewrite Hp2, <- Hp3 in Hk.
    destruct (create_new_review_step _ _ _ _ _ _ _ _ _ _ S3 Hk L2)
      as (r3 & Hr3' & _ & L3).
    rewrite Hr1 in Hr1'. rewrite Hr2 in Hr2'. rewrite Hr3 in Hr3'.
    simplify_eq.
    eexists _, _. split; [exact L3 |].
    simpl. rewrite Hnil.
    rewrite (upsert_review_new u1) by constructor. simpl.
    rewrite (upsert_review_new u2)
      by (repeat constructor; simpl; congruence).
    simpl.
    rewrite (upsert_review_new u3)
      by (repeat constructor; simpl; congruence).
    simpl. split; [reflexivity |]. split; reflexivity.
Qed.

(** The submissions of the three reviewers on the sample product. *)
Lemma create_new_review_ratings_mean_witness :
  exists p q,
    products
      (snd (Sample.submit 3 "u3" 5 "c"
         (snd (Sample.submit 2 "u2" 2 "b"
            (snd (Sample.submit 1 "u1" 4 "a" Sample.world0))))))
      !! Sample.product_id = Some p
    /\ length (reviews p) = 3%nat
    /\ ratings p = Some q
    /\ (q == 11 # 3)%Q.
Proof.
  eapply (proj2 create_new_review_ratings_mean
            Sample.isValid Sample.castId
            (Sample.env_at 1) (Sample.env_at 2) (Sample.env_at 3)
            "u1" "u2" "u3"
            (Sample.review_body 4 "a") (Sample.review_body 2 "b")
            (Sample.review_body 5 "c")
            (VStr Sample.product_id) Sample.product_id Sample.product0
            Sample.world0
            (snd (Sample.submit 1 "u1" 4 "a" Sample.world0))
            (snd (Sample.submit 2 "u2" 2 "b"
               (snd (Sample.submit 1 "u1" 4 "a" Sample.world0)))));
    try discriminate; try (vm_compute; reflexivity).
Defined.

(** One accepted submission by [u] on a product that holds at most one
    review by [u]. *)
Lemma create_new_review_upsert isValid cast env u body w b w' k p :
  route (create_new_review isValid cast env u body) w = (Json 200 b, w') ->
  cast (field "productId" body) = Some k ->
  products w !! k = Some p ->
  (length (reviews_by u (reviews p)) <= 1)%nat ->
  exists p' rev,
    products w' !! k = Some p'
    /\ reviews_by u (reviews p') = [rev]
    /\ field "rating" body = VNum (rating rev)
    /\ comment rev = field "comment" body
    /\ createdAt rev = now env
    /\ (forall u', u' <> u ->
          reviews_by u' (reviews p') = reviews_by u' (reviews p)).
Proof.
  intros H Hk Hp Hlen.
  destruct (create_new_review_step _ _ _ _ _ _ _ _ _ _ H Hk Hp)
    as (r & Hr & _ & Hp').
  destruct (upsert_review_one u r (field "comment" body)
              (field "productId" body) (now env) (reviews p) Hlen)
    as (rev & Hrev & _ & Hrat & Hcom & Htime).
  eexists _, rev. split; [exact Hp' |]. simpl.
  split; [exact Hrev |]. rewrite Hrat.
  repeat split; auto.
  intros u' Hne. apply upsert_review_other. exact Hne.
Qed.

(** C2. After any sequence of accepted submissions of one reviewer for one
    product (which held at most one review by that reviewer before), the
    product holds exactly one review by that reviewer; its rating, comment
    and date are those of the last submission, and the reviews of the
    other reviewers are the ones that were there. *)
Theorem create_new_review_one_per_reviewer isValid cast u pid k
  (calls : list (Env * value)) env body w p w' :
  cast pid = Some k ->
  products w !! k = Some p ->
  (length (reviews_by u (reviews p)) <= 1)%nat ->
  Forall (fun c => field "productId" (snd c) = pid) (calls ++ [(env, body)]) ->
  submit_all isValid cast u (calls ++ [(env, body)]) w = Some w' ->
  exists p' rev,
    products w' !! k = Some p'
    /\ reviews_by u (reviews p') = [rev]
    /\ field "rating" body = VNum (rating rev)
    /\ comment rev = field "comment" body
    /\ createdAt rev = now env
    /\ (forall u', u' <> u ->
          reviews_by u' (reviews p') = reviews_by u' (reviews p)).
Proof.
  intros Hk. revert w p.
  induction calls as [| [env0 body0] rest IH]; intros w p Hp Hlen Hall Hrun.
  - cbn [submit_all app] in Hrun.
    destruct (route (create_new_review isValid cast env u body) w)
      as [o w1] eqn:Hroute.
    destruct o as [status b | |]; try discriminate.
    simpl in Hrun. destruct (status =? 200) eqn:E; [| discriminate].
    apply Z.eqb_eq in E as ->.
    injection Hrun as <-.
    apply Forall_cons in Hall as [Hpid _]. simpl in Hpid.
    rewrite <- Hpid in Hk.
    exact (create_new_review_upsert _ _ _ _ _ _ _ _ _ _ Hroute Hk Hp Hlen).
  - cbn [submit_all app] in Hrun.
    destruct (route (create_new_review isValid cast env0 u body0) w)
      as [o w1] eqn:Hroute.
    destruct o as [status b | |]; try discriminate.
    simpl in Hrun. destruct (status =? 200) eqn:E; [| discriminate].
    apply Z.eqb_eq in E as ->.
    simpl in Hall. apply Forall_cons in Hall as [Hpid Hall].
    simpl in Hpid. pose proof Hk as Hk0. rewrite <- Hpid in Hk0.
    destruct (create_new_review_upsert _ _ _ _ _ _ _ _ _ _
                Hroute Hk0 Hp Hlen)
      as (p1 & rev1 & Hp1 & Hone & _ & _ & _ & Hothers).
    destruct (IH w1 p1 Hp1) as (p' & rev & Hp' & Hrev & Hr & Hc & Ht & Ho);
      [rewrite Hone; simpl; lia | exact Hall | exact Hrun |].
    exists p', rev. repeat split; auto.
    intros u' Hne. rewrite Ho by exact Hne. apply Hothers. exact Hne.
Qed.

(** Two submissions of one reviewer on the sample product: the second
    replaces the first. *)
Lemma create_new_review_one_per_reviewer_witness :
  exists p' rev,
    products
      (snd (Sample.submit 2 "u1" 5 "better"
         (snd (Sample.submit 1 "u1" 3 "fair" Sample.world0))))
      !! Sample.product_id = Some p'
    /\ reviews_by "u1" (reviews p') = [rev]
    /\ rating rev = 5%Q
    /\ comment rev = VStr "better"
    /\ createdAt rev = 2.
Proof.
  destruct (create_new_review_one_per_reviewer
              Sample.isValid Sample.castId "u1"
              (VStr Sample.product_id) Sample.product_id
              [(Sample.env_at 1, Sample.review_body 3 "fair")]
              (Sample.env_at 2) (Sample.review_body 5 "better")
              Sample.world0 Sample.product0
              (snd (Sample.submit 2 "u1" 5 "better"
                 (snd (Sample.submit 1 "u1" 3 "fair" Sample.world0)))))
    as (p' & rev & Hp' & Hrev & Hr & Hc & Ht & _).
  - reflexivity.
  - reflexivity.
  - simpl. lia.
  - repeat constructor.
  - vm_compute. reflexivity.
  - exists p', rev. injection Hr as Hr. auto.
Defined.

(** C3. A submission whose rating is not a number, or a number outside
    [1, 5], is refused with status 400 and changes nothing: neither the
    review list nor the ratings of any product. *)
Theorem create_new_review_rejects_bad_rating isValid cast env u body w :
  ~ (exists r, field "rating" body = VNum r /\ in_bounds r) ->
  exists text,
    route (create_new_review isValid cast env u body) w = (fail text 400, w).
Proof.
  intros Hbad. rewrite <- bad_rating_false in Hbad.
  apply not_false_iff_true in Hbad.
  run_handler. rewrite Hbad.
  destruct (negb (isValid (field "productId" body))
            || negb (isValid (field "orderId" body))); eauto.
Qed.

(** Ratings 0, 6 and "5" on the sample product. *)
Lemma create_new_review_rejects_bad_rating_witness :
  (exists text, Sample.submit 1 "u1" 0 "a" Sample.world0
                = (fail text 400, Sample.world0))
  /\ (exists text, Sample.submit 1 "u1" 6 "a" Sample.world0
                   = (fail text 400, Sample.world0))
  /\ (exists text,
        route (create_new_review Sample.isValid Sample.castId
                 (Sample.env_at 1) "u1"
                 (VObj [("rating", VStr "5"); ("comment", VStr "a");
                        ("productId", VStr Sample.product_id);
                        ("orderId", VStr Sample.order_id)]))
          Sample.world0
        = (fail text 400, Sample.world0)).
Proof.
  repeat split.
  - apply create_new_review_rejects_bad_rating.
    intros (r & [= <-] & H1 & _). vm_compute in H1. apply H1. reflexivity.
  - apply create_new_review_rejects_bad_rating.
    intros (r & [= <-] & _ & H5). vm_compute in H5. apply H5. reflexivity.
  - apply create_new_review_rejects_bad_rating.
    intros (r & [=] & _).
Defined.

Lemma line_matches_true (pid : value) (item : option CartItem) :
  line_matches pid item = true ->
  exists line s,
    item = Some line /\ item_productId line = Some s /\ pid = VStr s.
Proof.
  unfold line_matches. destruct item as [line |]; [| discriminate].
  destruct (item_productId line) as [s |] eqn:Hs; [| discriminate].
  rewrite andb_true_iff, is_str_true. intros [_ ->]. eauto.
Qed.

(** C4. When no line of the cart of the named order has the product id of
    the request, the submission is refused and the database is as it was;
    for a request that passes the checks made before (well-formed ids, a
    rating within bounds, an existing product) the refusal is "Product not
    found in order" with status 400. *)
Theorem create_new_review_product_not_in_order isValid cast env u body w ko o :
  cast (field "orderId" body) = Some ko ->
  orders w !! ko = Some o ->
  (forall line s, In (Some line) (cart o) -> item_productId line = Some s ->
                  field "productId" body <> VStr s) ->
  let r := route (create_new_review isValid cast env u body) w in
  (exists err, fst r = Next err /\ same_db w (snd r))
  /\ (isValid (field "productId" body) = true ->
      isValid (field "orderId" body) = true ->
      (exists q, field "rating" body = VNum q /\ in_bounds q) ->
      (exists k, cast (field "productId" body) = Some k
                 /\ is_Some (products w !! k)) ->
      r = (fail "Product not found in order" 400,
           log (DbFind "Order" (field "orderId" body))
             (log (DbFind "Product" (field "productId" body)) w))).
Proof.
  intros Hko Ho Hcart r.
  assert (Hnone : existsb (line_matches (field "productId" body)) (cart o)
                  = false).
  { apply not_true_iff_false. intros H.
    apply existsb_exists in H as (item & Hin & Hm).
    apply line_matches_true in Hm as (line & s & -> & Hs & Hpid).
    exact (Hcart line s Hin Hs Hpid). }
  split.
  - destruct (create_new_review_cases isValid cast env u body w)
      as [[b Hb] | H]; [| exact H].
    fold r in Hb. destruct r as [out w'] eqn:Hr. simpl in Hb. subst out.
    apply create_new_review_accepted in Hr
      as (q & k & p & ko' & o' & _ & _ & _ & _ & Hko' & Ho' & Hex & _).
    simplify_eq. congruence.
  - intros Hv1 Hv2 Hrat (k & Hk & [p Hp]). subst r.
    apply bad_rating_false in Hrat.
    run_handler. rewrite Hv1, Hv2, Hrat, Hk. simpl.
    rewrite Hp. simpl. rewrite Hko. simpl. rewrite Ho. simpl.
    rewrite Hnone. reflexivity.
Qed.

(** An order for another product. *)
Lemma create_new_review_product_not_in_order_witness :
  let w :=
    set_orders
      <[Sample.order_id :=
          {| cart := [Some {| item_productId := Some Sample.shop_id;
                              isReviewed := false |}; None] |}]>
      Sample.world0 in
  let r := Sample.submit 1 "u1" 4 "a" w in
  fst r = fail "Product not found in order" 400 /\ same_db w (snd r).
Proof.
  intros w r.
  destruct (create_new_review_product_not_in_order
              Sample.isValid Sample.castId (Sample.env_at 1) "u1"
              (Sample.review_body 4 "a") w Sample.order_id
              {| cart := [Some {| item_productId := Some Sample.shop_id;
                                  isReviewed := false |}; None] |})
    as [(err & Herr & Hdb) Hmsg].
  - reflexivity.
  - vm_compute. reflexivity.
  - intros line s [[= <-] | [[=] | []]] [= <-]. discriminate.
  - split; [| exact Hdb].
    unfold r, Sample.submit. rewrite Hmsg; [reflexivity | reflexivity
      | reflexivity | | ].
    + exists 4%Q. split; [reflexivity |]. split; discriminate.
    + exists Sample.product_id. split; [reflexivity |].
      exists Sample.product0. vm_compute. reflexivity.
Defined.

(** C8, as the code has it. Every rating that a review submission or a
    public review accepts is a number between 1 and 5, whole or not; it is
    the rating of a review stored for the reviewer, and if the ratings of
    the product were all within these bounds they still are. *)
Theorem accepted_ratings_in_bounds :
  (forall isValid cast env u body w b w',
      route (create_new_review isValid cast env u body) w = (Json 200 b, w') ->
      exists r k p p' rev,
        field "rating" body = VNum r /\ in_bounds r
        /\ cast (field "productId" body) = Some k
        /\ products w !! k = Some p
        /\ products w' !! k = Some p'
        /\ In rev (reviews p') /\ user rev = Some u /\ rating rev = r
        /\ (Forall (fun rev => in_bounds (rating rev)) (reviews p) ->
            Forall (fun rev => in_bounds (rating rev)) (reviews p')))
  /\ (forall castString env body w b w',
      route (public_review castString env body) w = (Json 201 b, w') ->
      exists r rev,
        field "rating" body = VNum r /\ in_bounds r
        /\ publicReviews w' !! new_id env = Some rev
        /\ review_rating rev = r).
Proof.
  split.
  - intros isValid cast env u body w b w' H.
    apply create_new_review_accepted in H
      as (r & k & p & ko & o & Hr & Hin & Hk & Hp & _ & _ & _ & Hw').
    destruct (upsert_review_stored u r (field "comment" body)
                (field "productId" body) (now env) (reviews p))
      as (rev & Hrev & Hu & Hrat).
    eexists r, k, p, _, rev. rewrite Hw', lookup_insert_eq.
    repeat split; eauto; try apply Hin.
    simpl. apply upsert_review_in_bounds. exact Hin.
  - intros castString env body w b w'.
    unfold route, public_review, PublicReview_create.
    unfold bind, call, update, exit, raise, ret. intros H.
    destruct (bad_rating (field "rating" body)) eqn:Hbad.
    { repeat case_match; simplify_eq. }
    apply bad_rating_false in Hbad as (r & Hr & Hin).
    repeat case_match; simplify_eq; simpl in *.
    rewrite Hr. simpl. eexists r, _.
    rewrite lookup_insert_eq. auto.
Qed.

(** A rating of four and a half on the sample product. *)
Lemma accepted_ratings_in_bounds_witness :
  exists r p' rev,
    in_bounds r
    /\ products (snd (Sample.submit 1 "u1" (9 # 2) "a" Sample.world0))
         !! Sample.product_id = Some p'
    /\ In rev (reviews p') /\ rating rev = r.
Proof.
  destruct (proj1 accepted_ratings_in_bounds
              Sample.isValid Sample.castId (Sample.env_at 1) "u1"
              (Sample.review_body (9 # 2) "a") Sample.world0
              (Message "Reviewed successfully!")
              (snd (Sample.submit 1 "u1" (9 # 2) "a" Sample.world0)))
    as (r & k & p & p' & rev & Hr & Hin & Hk & Hp & Hp' & Hrev & _ & Hrat & _).
  - vm_compute. reflexivity.
  - injection Hk as <-. exists r, p', rev. auto.
Defined.

(** C8, as stated, fails: a rating of four and a half is accepted and
    stored. *)
Lemma stores_integers_only_fails : ~ stores_integers_only.
Proof.
  intros H.
  destruct (H Sample.isValid Sample.castId (Sample.env_at 1) "u1"
              (Sample.review_body (9 # 2) "a") Sample.world0
              (Message "Reviewed successfully!")
              (snd (Sample.submit 1 "u1" (9 # 2) "a" Sample.world0))
              Sample.product_id
              (with_reviews
                 [{| user := Some "u1"; rating := 9 # 2; comment := VStr "a";
                     productId := VStr Sample.product_id; createdAt := 1 |}]
                 Sample.product0)
              {| user := Some "u1"; rating := 9 # 2; comment := VStr "a";
                 productId := VStr Sample.product_id; createdAt := 1 |})
    as (n & Hn & _).
  - vm_compute. reflexivity.
  - reflexivity.
  - vm_compute. reflexivity.
  - left. reflexivity.
  - reflexivity.
  - unfold Qeq in Hn. simpl in Hn. lia.
Qed.

(** *** Votes on public reviews *)

Lemma vote_up_votes (r : PublicReview) :
  vote_up r = with_votes (helpfulUp r + 1) (helpfulDown r) r.
Proof. unfold vote_up, with_votes. rewrite or0_id. reflexivity. Qed.

Lemma vote_down_votes (r : PublicReview) :
  vote_down r = with_votes (helpfulUp r) (helpfulDown r + 1) r.
Proof. unfold vote_down, with_votes. rewrite or0_id. reflexivity. Qed.

(** C9, as the code has it. A vote "up" on a stored review adds one to
    its [helpfulUp] and a vote "down" one to its [helpfulDown], and
    changes nothing else; two votes "up" on a review with no vote leave
    [helpfulUp] at 2; a vote with a valid direction for a well-formed id
    that names no stored review is answered "Review not found" (404); a
    direction other than "up" and "down" is answered "Invalid vote data"
    (400) and changes nothing, and so is a request without a review id,
    whatever its direction. *)
Theorem vote_helpful_counts cast :
  (forall body w k r,
      truthy (field "reviewId" body) = true ->
      cast (field "reviewId" body) = Some k ->
      publicReviews w !! k = Some r ->
      let res := route (vote_helpful cast body) w in
      (field "vote" body = VStr "up" ->
       fst res = Json 200 (VoteRecorded "Vote recorded"
                             (helpfulUp r + 1) (helpfulDown r))
       /\ publicReviews (snd res)
          = <[k := with_votes (helpfulUp r + 1) (helpfulDown r) r]>
              (publicReviews w))
      /\ (field "vote" body = VStr "down" ->
          fst res = Json 200 (VoteRecorded "Vote recorded"
                                (helpfulUp r) (helpfulDown r + 1))
          /\ publicReviews (snd res)
             = <[k := with_votes (helpfulUp r) (helpfulDown r + 1) r]>
                 (publicReviews w)))
  /\ (forall body w k r,
      truthy (field "reviewId" body) = true ->
      cast (field "reviewId" body) = Some k ->
      publicReviews w !! k = Some r ->
      field "vote" body = VStr "up" ->
      helpfulUp r = 0 ->
      let w1 := snd (route (vote_helpful cast body) w) in
      let res := route (vote_helpful cast body) w1 in
      fst res = Json 200 (VoteRecorded "Vote recorded" 2 (helpfulDown r))
      /\ publicReviews (snd res) !! k
         = Some (with_votes 2 (helpfulDown r) r))
  /\ (forall body w k,
      truthy (field "reviewId" body) = true ->
      direction (field "vote" body) ->
      cast (field "reviewId" body) = Some k ->
      publicReviews w !! k = None ->
      let res := route (vote_helpful cast body) w in
      fst res = fail "Review not found" 404 /\ same_db w (snd res))
  /\ (forall body w,
      ~ direction (field "vote" body) ->
      route (vote_helpful cast body) w = (fail "Invalid vote data" 400, w))
  /\ (forall body w,
      truthy (field "reviewId" body) = false ->
      route (vote_helpful cast body) w = (fail "Invalid vote data" 400, w)).
Proof.
  split; [| split; [| split; [| split]]].
  - intros body w k r Hid Hk Hr res. subst res. split; intros Hv.
    + rewrite (vote_helpful_found cast body w k r Hid) by (unfold direction; auto).
      rewrite Hv. simpl. rewrite vote_up_votes, or0_id. auto.
    + rewrite (vote_helpful_found cast body w k r Hid) by (unfold direction; auto).
      rewrite Hv. simpl. rewrite vote_down_votes, or0_id. auto.
  - intros body w k r Hid Hk Hr Hv H0 w1 res. subst res w1.
    assert (Hdir : direction (field "vote" body)) by (unfold direction; auto).
    rewrite (vote_helpful_found cast body w k r Hid Hdir Hk Hr).
    cbn [snd]. rewrite Hv. simpl is_str. cbv iota.
    erewrite (vote_helpful_found cast body _ k (vote_up r) Hid Hdir Hk)
      by (simpl; apply lookup_insert_eq).
    rewrite Hv. simpl. rewrite lookup_insert_eq, !or0_id, H0.
    split; [reflexivity |].
    unfold vote_up, with_votes. simpl. rewrite !or0_id, H0. reflexivity.
  - intros body w k Hid Hdir Hk Hnone res. subst res.
    unfold route, vote_helpful. rewrite Hid.
    pose proof Hdir as Hinc. apply includes_direction in Hinc. rewrite Hinc.
    assert (Hv : truthy (field "vote" body) = true)
      by (destruct Hdir as [-> | ->]; reflexivity).
    rewrite Hv. simpl negb. simpl orb. cbv iota.
    unfold findById, bind, call, read, exit. rewrite Hk. simpl.
    rewrite Hnone. simpl. unfold same_db. simpl. auto 10.
  - intros body w. apply vote_helpful_invalid.
  - intros body w Hid. unfold route, vote_helpful, exit. rewrite Hid.
    reflexivity.
Qed.

(** Two votes "up" on the sample review. *)
Lemma vote_helpful_counts_witness :
  let body := VObj [("reviewId", VStr Sample.review_id); ("vote", VStr "up")] in
  let w1 := snd (route (vote_helpful Sample.castId body) Sample.world0) in
  let res := route (vote_helpful Sample.castId body) w1 in
  fst res = Json 200 (VoteRecorded "Vote recorded" 2 0)
  /\ publicReviews (snd res) !! Sample.review_id
     = Some (with_votes 2 0 Sample.review0).
Proof.
  intros body.
  apply (proj1 (proj2 (vote_helpful_counts Sample.castId))
           body Sample.world0 Sample.review_id Sample.review0);
    reflexivity.
Defined.

(** C9, as stated, fails: not every review id that resolves to no stored
    review is answered "Review not found".  A vote "up" without a review
    id is answered "Invalid vote data" (400) by the check at the head of
    the handler; for the id "xyz" the lookup throws and the error leaves
    the handler. *)
Lemma not_found_when_unresolved_fails :
  ~ not_found_when_unresolved
  /\ route (vote_helpful Sample.castId (VObj [("vote", VStr "up")]))
       Sample.world0
     = (fail "Invalid vote data" 400, Sample.world0)
  /\ route (vote_helpful Sample.castId
              (VObj [("reviewId", VStr "xyz"); ("vote", VStr "up")]))
       Sample.world0
     = (Rejected "Cast to ObjectId failed",
        log (DbFind "PublicReview" (VStr "xyz")) Sample.world0).
Proof.
  split; [| split; reflexivity].
  intros H.
  specialize (H Sample.castId (VObj [("vote", VStr "up")]) Sample.world0).
  assert (Hrun : fst (route (vote_helpful Sample.castId
                               (VObj [("vote", VStr "up")])) Sample.world0)
                 = fail "Invalid vote data" 400) by reflexivity.
  rewrite Hrun in H.
  assert (Hno : fail "Invalid vote data" 400 = fail "Review not found" 404).
  { apply H.
    - left. reflexivity.
    - intros k Hk. discriminate Hk. }
  discriminate Hno.
Qed.

(** C10. The direction is checked before the review is looked up: a
    request whose direction is absent or is not "up" or "down" is answered
    "Invalid vote data" (400) whatever its review id, and no call to the
    database is made. *)
Theorem vote_helpful_checks_direction_first cast (body : value) (w : World) :
  ~ direction (field "vote" body) ->
  let res := route (vote_helpful cast body) w in
  fst res = fail "Invalid vote data" 400
  /\ fst res <> fail "Review not found" 404
  /\ trace (snd res) = trace w
  /\ snd res = w.
Proof.
  intros Hdir res. subst res. rewrite (vote_helpful_invalid cast body w Hdir).
  simpl. repeat split. discriminate.
Qed.

(** An unknown review and the direction "sideways". *)
Lemma vote_helpful_checks_direction_first_witness :
  let body := VObj [("reviewId", VStr Sample.shop_id);
                    ("vote", VStr "sideways")] in
  let res := route (vote_helpful Sample.castId body) Sample.world0 in
  publicReviews Sample.world0 !! Sample.shop_id = None
  /\ fst res = fail "Invalid vote data" 400
  /\ trace (snd res) = [].
Proof.
  intros body res. split; [reflexivity |].
  destruct (vote_helpful_checks_direction_first Sample.castId body
              Sample.world0) as (H1 & _ & H2 & _).
  - intros [[=] | [=]].
  - split; [exact H1 | exact H2].
Defined.

(** *** Deleting a product or an event *)

Lemma destroyed_log (c : Call) (w : World) :
  destroyed (trace (log c w)) =
    (destroyed (trace w)
     ++ match c with CloudDestroy id => [id] | _ => [] end)%list.
Proof.
  unfold destroyed. simpl. rewrite omap_app. f_equal.
  destruct c; reflexivity.
Qed.

(** The loop hands every image to the media service, whatever the answers,
    and ends normally. *)
Lemma destroy_images_all (env : Env) (text : string) (l : list ImageLink) :
  forall (i : nat) (w : World),
  exists w',
    destroy_images env text i l w = (Val tt, w')
    /\ same_db w w'
    /\ destroyed (trace w') = (destroyed (trace w) ++ map public_id l)%list.
Proof.
  induction l as [| image rest IH]; intros i w; simpl.
  - exists w. unfold ret, same_db. rewrite app_nil_r. auto 10.
  - unfold bind at 1, try_catch, cloud_destroy, bind, call, raise, ret.
    destruct (destroy_fails env i (public_id image)).
    + destruct (IH (S i) (log (ConsoleError text)
                            (log (CloudDestroy (public_id image)) w)))
        as (w' & Hrun & Hdb & Htr).
      exists w'. split; [exact Hrun |]. split; [exact Hdb |].
      rewrite Htr, !destroyed_log, app_nil_r, <- app_assoc. reflexivity.
    + destruct (IH (S i) (log (CloudDestroy (public_id image)) w))
        as (w' & Hrun & Hdb & Htr).
      exists w'. split; [exact Hrun |]. split; [exact Hdb |].
      rewrite Htr, !destroyed_log, <- app_assoc. reflexivity.
Qed.

(** C5. Deleting an existing product or event hands every one of its
    media to the media service for deletion, in order and whichever of
    these deletions fail, then removes the document and answers 200. *)
Theorem delete_attempts_all_media cast (env : Env) :
  (forall id k w p,
      cast (VStr id) = Some k ->
      products w !! k = Some p ->
      let res := route (delete_shop_product cast env id) w in
      fst res = Json 200 (Message "Product deleted successfully!")
      /\ destroyed (trace (snd res))
         = (destroyed (trace w) ++ map public_id (images p))%list
      /\ products (snd res) = delete k (products w))
  /\ (forall id k w e,
      cast (VStr id) = Some k ->
      events w !! k = Some e ->
      let res := route (delete_shop_event cast env id) w in
      fst res = Json 200 (Message "Event deleted successfully!")
      /\ destroyed (trace (snd res))
         = (destroyed (trace w) ++ map public_id (event_images e))%list
      /\ events (snd res) = delete k (events w)).
Proof.
  split.
  - intros id k w p Hk Hp res.
    destruct (destroy_images_all env "Failed to delete image:" (images p) 0%nat
                (log (DbFind "Product" (VStr id)) w))
      as (w' & Hrun & Hdb & Htr).
    assert (Hres : res = (Json 200 (Message "Product deleted successfully!"),
                          set_products (delete k)
                            (log (DbRemove "Product" k) w'))).
    { subst res. unfold route, delete_shop_product, findById.
      unfold try_catch, bind, call, read, update, ret. rewrite Hk. simpl.
      rewrite Hp. simpl. rewrite Hrun. reflexivity. }
    rewrite Hres. cbn [fst snd]. destruct Hdb as (Hprod & _).
    change (trace (set_products (delete k) (log (DbRemove "Product" k) w')))
      with (trace (log (DbRemove "Product" k) w')).
    rewrite destroyed_log, Htr, destroyed_log, !app_nil_r.
    simpl. rewrite Hprod. auto.
  - intros id k w e Hk He res.
    destruct (destroy_images_all env "Cloudinary deletion error:"
                (event_images e) 0%nat (log (DbFind "Event" (VStr id)) w))
      as (w' & Hrun & Hdb & Htr).
    assert (Hres : res = (Json 200 (Message "Event deleted successfully!"),
                          set_events (delete k)
                            (log (DbRemove "Event" k) w'))).
    { subst res. unfold route, delete_shop_event, findById.
      unfold bind, call, read, update, ret. rewrite Hk. simpl.
      rewrite He. simpl. rewrite Hrun. reflexivity. }
    rewrite Hres. cbn [fst snd]. destruct Hdb as (_ & _ & _ & Hev & _).
    change (trace (set_events (delete k) (log (DbRemove "Event" k) w')))
      with (trace (log (DbRemove "Event" k) w')).
    rewrite destroyed_log, Htr, destroyed_log, !app_nil_r.
    simpl. rewrite Hev. auto.
Qed.

(** The sample product and the sample event, three media each, with a
    media service that fails on the second. *)
Lemma delete_attempts_all_media_witness :
  let res :=
    route (delete_shop_product Sample.castId Sample.env_second_fails
             Sample.product_id) Sample.world0 in
  let res' :=
    route (delete_shop_event Sample.castId Sample.env_second_fails
             Sample.event_id) Sample.world0 in
  (fst res = Json 200 (Message "Product deleted successfully!")
   /\ destroyed (trace (snd res))
      = [VStr "products/1"; VStr "products/2"; VStr "products/3"]
   /\ products (snd res) !! Sample.product_id = None)
  /\ (fst res' = Json 200 (Message "Event deleted successfully!")
      /\ destroyed (trace (snd res'))
         = [VStr "products/4"; VStr "products/5"; VStr "products/6"]
      /\ events (snd res') !! Sample.event_id = None).
Proof.
  intros res res'. split.
  - destruct (proj1 (delete_attempts_all_media Sample.castId
                       Sample.env_second_fails)
                Sample.product_id Sample.product_id Sample.world0
                Sample.product0) as (H1 & H2 & H3);
      [reflexivity | reflexivity |].
    fold res in H1, H2, H3. rewrite H3. repeat split; auto.
  - destruct (proj2 (delete_attempts_all_media Sample.castId
                       Sample.env_second_fails)
                Sample.event_id Sample.event_id Sample.world0
                Sample.event0) as (H1 & H2 & H3);
      [reflexivity | reflexivity |].
    fold res' in H1, H2, H3. rewrite H3. repeat split; auto.
Defined.

(** *** Creating a product *)

(** The upload loop writes nothing to the database; it ends with the
    links or with "Image upload failed", and with the latter as soon as
    one upload fails. *)
Lemma upload_images_cases (env : Env) (l : list value) :
  forall (i : nat) (acc : list value) (w : World),
    let r := upload_images env i l acc w in
    same_db w (snd r)
    /\ ((exists links, fst r = Val links)
        \/ fst r = Return (fail "Image upload failed" 500))
    /\ ((exists j image,
           l !! j = Some image /\ upload_result env (i + j) image = None) ->
        fst r = Return (fail "Image upload failed" 500)).
Proof.
  induction l as [| image rest IH]; intros i acc w; simpl.
  - unfold ret, same_db. simpl. split; [auto 10 |].
    split; [eauto |]. intros (j & img & Hj & _). discriminate.
  - unfold bind at 1, try_catch, cloud_upload, bind, call, raise, ret, exit.
    destruct (upload_result env i image) as [result |] eqn:Hup.
    + destruct (IH (S i) (acc ++ [link_value result.1 result.2])%list
                  (log (CloudUpload image "products") w))
        as (Hdb & Hcases & Hfail).
      split; [exact Hdb |]. split; [exact Hcases |].
      intros (j & img & Hj & Hnone). destruct j as [| j].
      * simpl in Hj. injection Hj as <-.
        rewrite Nat.add_0_r in Hnone. congruence.
      * apply Hfail. exists j, img. split; [exact Hj |].
        rewrite <- Hnone. f_equal. lia.
    + simpl. unfold same_db. simpl. auto 10.
Qed.

(** C7. When the upload of one of the images of a creation request fails,
    the request ends in an error and no product is written; for a request
    that passes the checks made before the uploads (a location, the id of
    an existing shop) the error is "Image upload failed" with status
    500. *)
Theorem create_product_upload_failure cast schema env body w j image :
  imagesArray_of (field "images" body) !! j = Some image ->
  upload_result env j image = None ->
  let r := route (create_product cast schema env body) w in
  (exists err, fst r = Next err /\ same_db w (snd r))
  /\ (forall s ks shop,
        field "location" body = VStr s ->
        trim_is_empty s = false ->
        truthy (field "shopId" body) = true ->
        cast (field "shopId" body) = Some ks ->
        shops w !! ks = Some shop ->
        fst r = fail "Image upload failed" 500).
Proof.
  intros Hj Hnone r.
  assert (Hloop : forall w0,
             let l := upload_images env 0
                        (imagesArray_of (field "images" body)) [] w0 in
             fst l = Return (fail "Image upload failed" 500)
             /\ same_db w0 (snd l)).
  { intros w0.
    destruct (upload_images_cases env (imagesArray_of (field "images" body))
                0%nat [] w0) as (Hdb & _ & Hfail).
    split; [| exact Hdb]. apply Hfail. exists j, image. auto. }
  split.
  - subst r. unfold route, create_product, findById, blank, Product_create.
    unfold try_catch, bind, call, read, update, ret, exit, raise, same_db.
    repeat case_match; simplify_eq; simpl; eauto 10;
      match goal with
      | H : upload_images _ _ _ _ ?w0 = _ |- _ =>
          destruct (Hloop w0) as (Hout & Hdb); rewrite H in Hout, Hdb;
          simpl in Hout, Hdb; try discriminate
      end.
    all: simplify_eq; simpl in *; eauto 10.
  - intros s ks shop Hloc Hs Hshop Hks Hlook. subst r.
    unfold route, create_product, findById, blank.
    rewrite Hloc.
    assert (Ht : truthy (VStr s) = true).
    { destruct s; [discriminate | reflexivity]. }
    rewrite Ht, Hshop. simpl negb. cbv iota.
    unfold try_catch, bind, call, read, ret. rewrite Hs, Hks. simpl.
    rewrite Hlook. simpl.
    destruct (Hloop (log (DbFind "Shop" (field "shopId" body)) w))
      as (Hout & _).
    destruct (upload_images env 0 _ [] _) as [out w1].
    simpl in Hout. subst out. reflexivity.
Qed.

(** Three images for the sample shop, the second upload failing. *)
Lemma create_product_upload_failure_witness :
  let body :=
    VObj [("name", VStr "Flat"); ("location", VStr "Nairobi");
          ("shopId", VStr Sample.shop_id);
          ("images", VArr [VStr "a"; VStr "b"; VStr "c"])] in
  let r := route (create_product Sample.castId Sample.schema
                    Sample.env_second_fails body) Sample.world0 in
  fst r = fail "Image upload failed" 500
  /\ products (snd r) = products Sample.world0.
Proof.
  intros body r.
  destruct (create_product_upload_failure Sample.castId Sample.schema
              Sample.env_second_fails body Sample.world0 1%nat (VStr "b"))
    as [(err & _ & Hdb & _) Hmsg]; [reflexivity | reflexivity |].
  split; [| exact Hdb].
  apply (Hmsg "Nairobi" Sample.shop_id (VObj [("name", VStr "Shop")]));
    reflexivity.
Defined.

(** *** Normalising the media of a request *)

Lemma assoc_last_app (k : string) (fs gs : list (string * value)) (d : value) :
  assoc_last k (fs ++ gs) d = assoc_last k gs (assoc_last k fs d).
Proof.
  revert d. induction fs as [| [k' v] rest IH]; intros d; simpl;
    [reflexivity | apply IH].
Qed.

(** A field set after the others replaces it and leaves the others. *)
Lemma field_set (k k' : string) (v : value) (fs : list (string * value)) :
  field k (VObj (fs ++ [(k', v)])) =
    if String.eqb k k' then v else field k (VObj fs).
Proof. simpl. rewrite assoc_last_app. reflexivity. Qed.

Lemma omit_set (names : list string) (k : string) (v : value)
  (fs : list (string * value)) :
  existsb (String.eqb k) names = true ->
  omit names (VObj (fs ++ [(k, v)])) = omit names (VObj fs).
Proof.
  intros Hin. simpl. rewrite filter_app.
  rewrite (filter_cons_False _ _ []).
  - rewrite filter_nil. apply app_nil_r.
  - simpl. rewrite Hin. simpl. auto.
Qed.

(** C6, as the code has it. The two create-product routes normalise the
    images field each in its own way, on every string.  In the product
    controller, which uploads, a string stands for the list of that one
    string, whether it is JSON or not: the request goes on as the same
    request with that one-element array, so that "http://x/1.png" and
    "{not valid json" alike are the one payload handed to the media
    service.  In the controller that takes uploaded media, a string that
    is not JSON stands for the empty list: the request goes on as the same
    request with no images, for "{not valid json" and for "http://x/1.png"
    alike, neither of which is JSON. *)
Theorem media_normalization :
  (forall s, imagesArray_of (VStr s) = [VStr s])
  /\ (forall cast schema env fs w s,
        field "images" (VObj fs) = VStr s ->
        route (create_product cast schema env (VObj fs)) w
        = route (create_product cast schema env
                   (VObj (fs ++ [("images", VArr [VStr s])]))) w)
  /\ (forall cast schema env body w s t ks shop,
        field "images" body = VStr s ->
        field "location" body = VStr t ->
        trim_is_empty t = false ->
        truthy (field "shopId" body) = true ->
        cast (field "shopId" body) = Some ks ->
        shops w !! ks = Some shop ->
        uploaded (trace (snd (route (create_product cast schema env body) w)))
        = (uploaded (trace w) ++ [(VStr s, "products")])%list)
  /\ (forall s, JSON.parse s = None -> parseMediaArray (VStr s) = VArr [])
  /\ (forall cast schema env fs w s,
        field "images" (VObj fs) = VStr s ->
        JSON.parse s = None ->
        route (create_product_with_media cast schema env (VObj fs)) w
        = route (create_product_with_media cast schema env
                   (VObj (fs ++ [("images", VArr [])]))) w)
  /\ JSON.parse "http://x/1.png" = None
  /\ JSON.parse "{not valid json" = None.
Proof.
  assert (Hparse : forall s, JSON.parse s = None ->
                             parseMediaArray (VStr s) = VArr []).
  { intros s Hs. unfold parseMediaArray. rewrite Hs.
    destruct (negb (truthy (VStr s))); reflexivity. }
  split; [reflexivity |]. split; [| split; [| split; [exact Hparse |]]].
  - intros cast schema env fs w s Himg.
    unfold create_product.
    rewrite !field_set, omit_set by reflexivity.
    simpl String.eqb. cbv iota. rewrite Himg. reflexivity.
  - intros cast schema env body w s t ks shop Himg Hloc Ht Hshop Hks Hlook.
    unfold route, create_product, findById, blank. rewrite Hloc, Himg.
    assert (Htr : truthy (VStr t) = true).
    { destruct t; [discriminate | reflexivity]. }
    rewrite Htr, Hshop. simpl negb. cbv iota.
    unfold try_catch, bind at 1 2 3 4 5, call at 1, read, ret at 1.
    rewrite Ht, Hks. simpl. rewrite Hlook. simpl.
    unfold try_catch, bind, cloud_upload, call, ret, raise, exit,
      Product_create, update.
    destruct (upload_result env 0 (VStr s)) as [result |]; simpl.
    + destruct (schema _) as [err | p]; simpl;
        unfold uploaded; simpl; rewrite !omap_app; simpl;
        rewrite ?app_nil_r; reflexivity.
    + unfold uploaded; simpl; rewrite !omap_app; simpl;
        rewrite ?app_nil_r; reflexivity.
  - split; [| split; reflexivity].
    intros cast schema env fs w s Himg Hs.
    unfold create_product_with_media.
    rewrite !field_set, omit_set by reflexivity.
    simpl String.eqb. cbv iota. rewrite Himg, (Hparse s Hs). reflexivity.
Qed.

(** The sample shop creates a product with images "{not valid json" in
    the controller that takes uploaded media: the product is created,
    without images. *)
Lemma media_normalization_witness :
  let body :=
    [("name", VStr "Flat"); ("location", VStr "Nairobi");
     ("shopId", VStr Sample.shop_id); ("images", VStr "{not valid json")] in
  exists p,
    fst (route (create_product_with_media Sample.castId Sample.schema
                  (Sample.env_at 1) (VObj body)) Sample.world0)
    = Json 201 (Created (new_id (Sample.env_at 1)) p)
    /\ images p = [].
Proof.
  intros body.
  rewrite (proj1 (proj2 (proj2 (proj2 (proj2 media_normalization))))
             Sample.castId Sample.schema (Sample.env_at 1) body
             Sample.world0 "{not valid json")
    by reflexivity.
  eexists. split; [vm_compute; reflexivity | reflexivity].
Defined.

(** C6, as stated, fails: neither create-product route does both.  The
    one that uploads takes "{not valid json" for an image to upload, not
    for an empty list; the one that takes uploaded media reads
    "http://x/1.png" as no media at all, not as a list of one string. *)
Lemma media_normalization_as_stated_fails :
  ~ media_normalization_as_stated
  /\ imagesArray_of (VStr "{not valid json") = [VStr "{not valid json"]
  /\ parseMediaArray (VStr "http://x/1.png") = VArr [].
Proof.
  split; [| split; reflexivity].
  intros (normalize & Hin & H1 & H2).
  destruct Hin as [<- | [<- | []]].
  - discriminate H2.
  - discriminate H1.
Qed.

(** In the product controller "{not valid json" is uploaded like any
    other image. *)
Example create_product_not_json :
  let body :=
    VObj [("name", VStr "Flat"); ("location", VStr "Nairobi");
          ("shopId", VStr Sample.shop_id);
          ("images", VStr "{not valid json")] in
  let r := route (create_product Sample.castId Sample.schema
                    (Sample.env_at 1) body) Sample.world0 in
  uploaded (trace (snd r)) = [(VStr "{not valid json", "products")]
  /\ exists p, fst r = Json 201 (Created (new_id (Sample.env_at 1)) p)
               /\ length (images p) = 1%nat.
Proof. split; [vm_compute; reflexivity |]. eexists. split; reflexivity. Qed.

(** In the controller that takes uploaded media "http://x/1.png" leaves
    the product without images. *)
Example create_product_with_media_bare_string :
  let body :=
    VObj [("name", VStr "Flat"); ("location", VStr "Nairobi");
          ("shopId", VStr Sample.shop_id);
          ("images", VStr "http://x/1.png")] in
  let r := route (create_product_with_media Sample.castId Sample.schema
                    (Sample.env_at 1) body) Sample.world0 in
  exists p, fst r = Json 201 (Created (new_id (Sample.env_at 1)) p)
            /\ images p = [].
Proof. eexists. split; [vm_compute; reflexivity | reflexivity]. Qed.

(** The bare string is what the product controller uploads. *)
Example create_product_bare_string :
  let body :=
    VObj [("name", VStr "Flat"); ("location", VStr "Nairobi");
          ("shopId", VStr Sample.shop_id);
          ("images", VStr "http://x/1.png")] in
  let r := route (create_product Sample.castId Sample.schema
                    (Sample.env_at 1) body) Sample.world0 in
  trace (snd r)
  = [DbFind "Shop" (VStr Sample.shop_id);
     CloudUpload (VStr "http://x/1.png") "products";
     DbCreate "Product" (new_id (Sample.env_at 1))].
Proof. vm_compute. reflexivity. Qed.

Example parse_media_links :
  let q := String JSON.quote EmptyString in
  JSON.parse ("[{" ++ q ++ "public_id" ++ q ++ ": " ++ q ++ "p/1" ++ q ++ ", "
              ++ q ++ "url" ++ q ++ ": " ++ q ++ "http://x/1.png" ++ q ++ "}]")
  = Some (VArr [VObj [("public_id", VStr "p/1");
                      ("url", VStr "http://x/1.png")]]).
Proof. reflexivity. Qed.

(** A location of white space only is no location: a space, a tab and a
    no-break space (bytes 194, 160). *)
Example trim_is_empty_spaces :
  trim_is_empty
    (String " " (String (ascii_of_nat 9) (String (ascii_of_nat 194)
       (String (ascii_of_nat 160) EmptyString)))) = true
  /\ trim_is_empty " Nairobi " = false.
Proof. split; reflexivity. Qed.

(** A public review of four stars and a half is recorded. *)
Example public_review_half_star :
  let body := VObj [("name", VStr "Ann"); ("rating", VNum (9 # 2));
                    ("comment", VStr "Good")] in
  let r := route (public_review Sample.castStr (Sample.env_at 3) body)
             Sample.world0 in
  fst r = Json 201 (Message "Thank you for your review!")
  /\ publicReviews (snd r) !! new_id (Sample.env_at 3)
     = Some {| name := "Ann"; review_rating := 9 # 2;
               review_comment := "Good"; helpfulUp := 0; helpfulDown := 0;
               review_createdAt := 3 |}.
Proof. split; vm_compute; reflexivity. Qed.

(** ** Further properties of the handlers *)

(** *** Review submission *)

(** A submission that passes every check. *)
Lemma create_new_review_run isValid cast env u body w r k p ko o :
  isValid (field "productId" body) = true ->
  isValid (field "orderId" body) = true ->
  field "rating" body = VNum r ->
  in_bounds r ->
  cast (field "productId" body) = Some k ->
  products w !! k = Some p ->
  cast (field "orderId" body) = Some ko ->
  orders w !! ko = Some o ->
  existsb (line_matches (field "productId" body)) (cart o) = true ->
  route (create_new_review isValid cast env u body) w =
    (Json 200 (Message "Reviewed successfully!"),
     set_orders (alter (mark_reviewed k) ko)
       (log (DbUpdate "Order" (field "orderId" body))
          (set_products
             <[k := with_reviews
                      (upsert_review u r (field "comment" body)
                         (field "productId" body) (now env) (reviews p)) p]>
             (log (DbSave "Product" k)
                (log (DbFind "Order" (field "orderId" body))
                   (log (DbFind "Product" (field "productId" body)) w)))))).
Proof.
  intros Hv1 Hv2 Hr Hin Hk Hp Hko Ho Hline.
  assert (Hbad : bad_rating (field "rating" body) = false)
    by (apply bad_rating_false; eauto).
  run_handler. rewrite Hv1, Hv2, Hbad, Hk. simpl.
  rewrite Hp. simpl. rewrite Hko. simpl. rewrite Ho. simpl.
  rewrite Hline. simpl. rewrite Hr. reflexivity.
Qed.

(** X1. With well-formed ids and a rating within bounds, a submission for a
    product that does not exist is answered "Product not found" (404)
    after one lookup, and one for an order that does not exist "Order not
    found" (404) after two; neither writes anything. *)
Theorem create_new_review_not_found isValid cast env u body w k :
  isValid (field "productId" body) = true ->
  isValid (field "orderId" body) = true ->
  (exists r, field "rating" body = VNum r /\ in_bounds r) ->
  cast (field "productId" body) = Some k ->
  (products w !! k = None ->
   route (create_new_review isValid cast env u body) w
   = (fail "Product not found" 404,
      log (DbFind "Product" (field "productId" body)) w))
  /\ (forall p ko,
        products w !! k = Some p ->
        cast (field "orderId" body) = Some ko ->
        orders w !! ko = None ->
        route (create_new_review isValid cast env u body) w
        = (fail "Order not found" 404,
           log (DbFind "Order" (field "orderId" body))
             (log (DbFind "Product" (field "productId" body)) w))).
Proof.
  intros Hv1 Hv2 Hrat Hk. apply bad_rating_false in Hrat. split.
  - intros Hnone. run_handler. rewrite Hv1, Hv2, Hrat, Hk. simpl.
    rewrite Hnone. reflexivity.
  - intros p ko Hp Hko Hnone. run_handler.
    rewrite Hv1, Hv2, Hrat, Hk. simpl. rewrite Hp. simpl.
    rewrite Hko. simpl. rewrite Hnone. reflexivity.
Qed.

(** A review for a product that is not there, then one for an order that
    is not there. *)
Lemma create_new_review_not_found_witness :
  fst (route (create_new_review Sample.isValid Sample.castId
                (Sample.env_at 1) "u1"
                (VObj [("rating", VNum 4); ("comment", VStr "a");
                       ("productId", VStr Sample.shop_id);
                       ("orderId", VStr Sample.order_id)]))
         Sample.world0)
  = fail "Product not found" 404
  /\ fst (route (create_new_review Sample.isValid Sample.castId
                   (Sample.env_at 1) "u1"
                   (VObj [("rating", VNum 4); ("comment", VStr "a");
                          ("productId", VStr Sample.product_id);
                          ("orderId", VStr Sample.shop_id)]))
            Sample.world0)
     = fail "Order not found" 404.
Proof.
  assert (Hr : forall body, field "rating" body = VNum 4 ->
                 exists r, field "rating" body = VNum r /\ in_bounds r).
  { intros body H. exists 4%Q. split; [exact H | split; discriminate]. }
  split.
  - pose (body := VObj [("rating", VNum 4); ("comment", VStr "a");
                        ("productId", VStr Sample.shop_id);
                        ("orderId", VStr Sample.order_id)]).
    destruct (create_new_review_not_found Sample.isValid Sample.castId
                (Sample.env_at 1) "u1" body Sample.world0 Sample.shop_id
                eq_refl eq_refl (Hr body eq_refl) eq_refl) as [H _].
    fold body. rewrite H; reflexivity.
  - pose (body := VObj [("rating", VNum 4); ("comment", VStr "a");
                        ("productId", VStr Sample.product_id);
                        ("orderId", VStr Sample.shop_id)]).
    destruct (create_new_review_not_found Sample.isValid Sample.castId
                (Sample.env_at 1) "u1" body Sample.world0 Sample.product_id
                eq_refl eq_refl (Hr body eq_refl) eq_refl) as [_ H].
    fold body. rewrite (H Sample.product0 Sample.shop_id); reflexivity.
Defined.

(** The sum of ratings within the bounds lies between their count and five
    times their count. *)
Lemma Qsum_in_bounds (l : list Q) :
  Forall in_bounds l ->
  (inject_Z (Z.of_nat (length l)) <= Qsum l
   /\ Qsum l <= 5 * inject_Z (Z.of_nat (length l)))%Q.
Proof.
  induction 1 as [| x rest [Hx1 Hx5] _ [IH1 IH5]].
  - simpl. split; [apply Qle_refl | discriminate].
  - cbn [length Qsum]. rewrite Nat2Z.inj_succ, <- Z.add_1_l, inject_Z_plus.
    split.
    + apply Qplus_le_compat; assumption.
    + apply Qle_trans with (5 + 5 * inject_Z (Z.of_nat (length rest)))%Q.
      * apply Qplus_le_compat; assumption.
      * apply Qle_lteq. right. ring.
Qed.

Lemma mean_in_bounds (l : list Q) :
  l <> [] -> Forall in_bounds l -> in_bounds (mean l).
Proof.
  intros Hne Hall. destruct (Qsum_in_bounds l Hall) as [H1 H5].
  assert (Hpos : (0 < inject_Z (Z.of_nat (length l)))%Q).
  { destruct l; [congruence |]. unfold Qlt. simpl. lia. }
  unfold mean, in_bounds. split.
  - apply Qle_shift_div_l; [exact Hpos |]. rewrite Qmult_1_l. exact H1.
  - apply Qle_shift_div_r; [exact Hpos | exact H5].
Qed.

(** X2. When the ratings of the reviews of a product are all between 1 and
    5, so is its [ratings] after an accepted submission. *)
Theorem create_new_review_ratings_in_bounds isValid cast env u body w b w' k p :
  route (create_new_review isValid cast env u body) w = (Json 200 b, w') ->
  cast (field "productId" body) = Some k ->
  products w !! k = Some p ->
  Forall (fun rev => in_bounds (rating rev)) (reviews p) ->
  exists p' q,
    products w' !! k = Some p' /\ ratings p' = Some q /\ in_bounds q.
Proof.
  intros H Hk Hp Hall.
  destruct (create_new_review_step _ _ _ _ _ _ _ _ _ _ H Hk Hp)
    as (r & Hr & Hin & Hp').
  eexists _, _. split; [exact Hp' |]. split; [reflexivity |].
  set (revs := upsert_review u r (field "comment" body)
                 (field "productId" body) (now env) (reviews p)).
  assert (Hmean : in_bounds (mean (map rating revs))).
  { apply mean_in_bounds.
    - intros Hnil. apply map_eq_nil in Hnil.
      exact (upsert_review_nonempty _ _ _ _ _ _ Hnil).
    - apply Forall_map. apply upsert_review_in_bounds; assumption. }
  unfold in_bounds in *. rewrite average_mean. exact Hmean.
Qed.

(** Ratings 5 then 2 on the sample product: the average is 7/2. *)
Lemma create_new_review_ratings_in_bounds_witness :
  exists p' q,
    products (snd (Sample.submit 2 "u2" 2 "b"
                (snd (Sample.submit 1 "u1" 5 "a" Sample.world0))))
      !! Sample.product_id = Some p'
    /\ ratings p' = Some q /\ in_bounds q.
Proof.
  eapply (create_new_review_ratings_in_bounds Sample.isValid Sample.castId
            (Sample.env_at 2) "u2" (Sample.review_body 2 "b")
            (snd (Sample.submit 1 "u1" 5 "a" Sample.world0))
            (Message "Reviewed successfully!") _ Sample.product_id).
  - vm_compute. reflexivity.
  - reflexivity.
  - vm_compute. reflexivity.
  - repeat constructor; discriminate.
Defined.

Lemma find_some_reviews_by (u : string) (revs : list Review) x :
  find (by_user u) revs = Some x -> reviews_by u revs <> [].
Proof.
  intros Hfind Hnil. apply find_some in Hfind as [Hin Hx].
  apply by_user_true in Hx. apply list_elem_of_In in Hin.
  assert (Hmem : x ∈ reviews_by u revs)
    by (apply list_elem_of_filter; auto).
  rewrite Hnil in Hmem. inversion Hmem.
Qed.

(** X3. An accepted submission changes the reviews and the [ratings] of
    the product it names and nothing else in the product collection: a
    reviewer who had a review on the product leaves the number of reviews
    as it was, a new reviewer adds exactly one review at the end; the
    images and the rest of the product and all other products stay. *)
Theorem create_new_review_review_count isValid cast env u body w b w' k p :
  route (create_new_review isValid cast env u body) w = (Json 200 b, w') ->
  cast (field "productId" body) = Some k ->
  products w !! k = Some p ->
  exists p',
    products w' !! k = Some p'
    /\ images p' = images p /\ product_doc p' = product_doc p
    /\ (reviews_by u (reviews p) <> [] ->
        length (reviews p') = length (reviews p))
    /\ (reviews_by u (reviews p) = [] ->
        exists rev, reviews p' = (reviews p ++ [rev])%list
                    /\ user rev = Some u)
    /\ (forall k', k' <> k -> products w' !! k' = products w !! k').
Proof.
  intros H Hk Hp.
  destruct (create_new_review_step _ _ _ _ _ _ _ _ _ _ H Hk Hp)
    as (r & Hr & Hin & Hp').
  apply create_new_review_accepted in H
    as (r' & k0 & p0 & ko & o & _ & _ & Hk0 & _ & _ & _ & _ & Hw').
  assert (k0 = k) by congruence. subst k0.
  eexists. split; [exact Hp' |]. simpl.
  split; [reflexivity |]. split; [reflexivity |].
  split; [| split].
  - intros Hsome. unfold upsert_review.
    destruct (find (by_user u) (reviews p)) eqn:Hfind.
    + apply update_first_length.
    + apply find_none_reviews_by in Hfind. contradiction.
  - intros Hnone. unfold upsert_review.
    destruct (find (by_user u) (reviews p)) eqn:Hfind.
    + apply find_some_reviews_by in Hfind. contradiction.
    + eexists. split; [reflexivity | reflexivity].
  - intros k' Hne. rewrite Hw'. apply lookup_insert_ne. congruence.
Qed.

(** A first review on the sample product. *)
Lemma create_new_review_review_count_witness :
  exists p',
    products (snd (Sample.submit 1 "u1" 5 "a" Sample.world0))
      !! Sample.product_id = Some p'
    /\ images p' = images Sample.product0
    /\ length (reviews p') = 1%nat.
Proof.
  destruct (create_new_review_review_count Sample.isValid Sample.castId
              (Sample.env_at 1) "u1" (Sample.review_body 5 "a")
              Sample.world0 (Message "Reviewed successfully!")
              (snd (Sample.submit 1 "u1" 5 "a" Sample.world0))
              Sample.product_id Sample.product0)
    as (p' & Hp' & Himg & _ & _ & Hnew & _);
    [vm_compute; reflexivity | reflexivity | reflexivity |].
  exists p'. split; [exact Hp' |]. split; [exact Himg |].
  destruct (Hnew eq_refl) as (rev & -> & _). reflexivity.
Defined.

(** Submitting twice what was submitted once changes nothing more. *)
Lemma update_first_twice (u : string) (g : Review -> Review)
  (revs : list Review) :
  (forall rev, user (g rev) = user rev) ->
  (forall rev, g (g rev) = g rev) ->
  update_first (by_user u) g (update_first (by_user u) g revs)
  = update_first (by_user u) g revs.
Proof.
  intros Huser Hgg. induction revs as [| x rest IH]; simpl; [reflexivity |].
  destruct (by_user u x) eqn:E; simpl.
  - assert (E' : by_user u (g x) = true).
    { apply by_user_true. rewrite Huser. apply by_user_true. exact E. }
    rewrite E', Hgg. reflexivity.
  - rewrite E, IH. reflexivity.
Qed.

Lemma find_update_first (u : string) (g : Review -> Review)
  (revs : list Review) x :
  (forall rev, user (g rev) = user rev) ->
  find (by_user u) revs = Some x ->
  find (by_user u) (update_first (by_user u) g revs) = Some (g x).
Proof.
  intros Huser. induction revs as [| y rest IH]; simpl; [discriminate |].
  destruct (by_user u y) eqn:E; simpl.
  - intros [= ->].
    assert (E' : by_user u (g x) = true).
    { apply by_user_true. rewrite Huser. apply by_user_true. exact E. }
    rewrite E'. reflexivity.
  - rewrite E. exact IH.
Qed.

Lemma update_first_none {A} (f : A -> bool) (g : A -> A) (l : list A) :
  find f l = None -> update_first f g l = l.
Proof.
  induction l as [| x rest IH]; simpl; [reflexivity |].
  destruct (f x); [discriminate |]. intros H. rewrite IH by exact H.
  reflexivity.
Qed.

Lemma find_app_none {A} (f : A -> bool) (l l' : list A) :
  find f l = None -> find f (l ++ l') = find f l'.
Proof.
  induction l as [| x rest IH]; simpl; [reflexivity |].
  destruct (f x); [discriminate | exact IH].
Qed.

Lemma update_first_app_none {A} (f : A -> bool) (g : A -> A) (l l' : list A) :
  find f l = None ->
  update_first f g (l ++ l') = (l ++ update_first f g l')%list.
Proof.
  induction l as [| x rest IH]; simpl; [reflexivity |].
  destruct (f x); [discriminate |]. intros H. rewrite IH by exact H.
  reflexivity.
Qed.

Lemma upsert_review_twice (u : string) r c pid t (revs : list Review) :
  upsert_review u r c pid t (upsert_review u r c pid t revs)
  = upsert_review u r c pid t revs.
Proof.
  unfold upsert_review.
  destruct (find (by_user u) revs) as [x |] eqn:Hfind.
  - rewrite (find_update_first u (edit_review r c t) revs x) by auto.
    apply update_first_twice; auto.
  - rewrite find_app_none by exact Hfind.
    simpl. unfold by_user at 1. simpl. rewrite String.eqb_refl.
    rewrite update_first_app_none by exact Hfind.
    simpl. unfold by_user at 1. simpl. rewrite String.eqb_refl.
    reflexivity.
Qed.

Lemma line_matches_mark_reviewed (pid : value) (k : string) (o : Order) :
  existsb (line_matches pid) (cart (mark_reviewed k o))
  = existsb (line_matches pid) (cart o).
Proof.
  unfold mark_reviewed. simpl. induction (cart o) as [| item rest IH];
    simpl; [reflexivity |].
  rewrite IH. f_equal. destruct item as [line |]; [| reflexivity].
  case_decide; reflexivity.
Qed.

Lemma create_new_review_accepted_ids isValid cast env u body w b w' :
  route (create_new_review isValid cast env u body) w = (Json 200 b, w') ->
  isValid (field "productId" body) = true
  /\ isValid (field "orderId" body) = true
  /\ b = Message "Reviewed successfully!".
Proof.
  run_handler. intros H.
  destruct (isValid (field "productId" body));
    destruct (isValid (field "orderId" body)); simpl in H;
    try discriminate.
  repeat case_match; simplify_eq; auto.
Qed.

(** X4. Sending an accepted submission again, with the same clock, is
    accepted again and leaves the product collection exactly as the first
    one left it. *)
Theorem create_new_review_twice isValid cast env u body w b w1 :
  route (create_new_review isValid cast env u body) w = (Json 200 b, w1) ->
  exists w2,
    route (create_new_review isValid cast env u body) w1 = (Json 200 b, w2)
    /\ products w2 = products w1.
Proof.
  intros H.
  destruct (create_new_review_accepted_ids _ _ _ _ _ _ _ _ H)
    as (Hv1 & Hv2 & ->).
  pose proof H as Hacc.
  apply create_new_review_accepted in Hacc
    as (r & k & p & ko & o & Hr & Hin & Hk & Hp & Hko & Ho & Hline & Hw1).
  rewrite (create_new_review_run isValid cast env u body w r k p ko o) in H
    by assumption.
  injection H as <-.
  set (p1 := with_reviews
               (upsert_review u r (field "comment" body)
                  (field "productId" body) (now env) (reviews p)) p) in *.
  eexists. split.
  - apply (create_new_review_run isValid cast env u body _ r k p1 ko
             (mark_reviewed k o)); try assumption.
    + simpl. apply lookup_insert_eq.
    + simpl. rewrite lookup_alter_eq, Ho. reflexivity.
    + rewrite line_matches_mark_reviewed. exact Hline.
  - simpl. unfold p1 at 1. simpl. rewrite upsert_review_twice.
    rewrite insert_insert_eq. reflexivity.
Qed.

(** The same review sent twice to the sample product. *)
Lemma create_new_review_twice_witness :
  let w1 := snd (Sample.submit 1 "u1" 5 "a" Sample.world0) in
  exists w2,
    Sample.submit 1 "u1" 5 "a" w1
    = (Json 200 (Message "Reviewed successfully!"), w2)
    /\ products w2 = products w1.
Proof.
  intros w1.
  apply (create_new_review_twice Sample.isValid Sample.castId
           (Sample.env_at 1) "u1" (Sample.review_body 5 "a") Sample.world0).
  vm_compute. reflexivity.
Defined.

(** *** Public reviews and votes *)

Lemma with_votes_same (r : PublicReview) :
  with_votes (helpfulUp r) (helpfulDown r) r = r.
Proof. destruct r. reflexivity. Qed.

Lemma with_votes_again (a b a' b' : Z) (r : PublicReview) :
  with_votes a' b' (with_votes a b r) = with_votes a' b' r.
Proof. reflexivity. Qed.

Lemma votes_cons (d x : string) (ds : list string) :
  votes d (x :: ds) = (if decide (x = d) then 1 else 0) + votes d ds.
Proof.
  unfold votes. rewrite filter_cons. case_decide; simpl length; lia.
Qed.

(** One vote in a valid direction on a stored review. *)
Lemma vote_helpful_step cast (id : value) (k d : string) (w : World)
  (r : PublicReview) :
  truthy id = true ->
  cast id = Some k ->
  publicReviews w !! k = Some r ->
  d = "up" \/ d = "down" ->
  let res := route (vote_helpful cast (vote_body id d)) w in
  accepted (fst res) = true
  /\ publicReviews (snd res)
     = <[k := with_votes
                (helpfulUp r + (if decide (d = "up") then 1 else 0))
                (helpfulDown r + (if decide (d = "down") then 1 else 0)) r]>
         (publicReviews w).
Proof.
  intros Hid Hk Hr Hd res. subst res.
  assert (Hdir : direction (field "vote" (vote_body id d))).
  { unfold direction. simpl. destruct Hd as [-> | ->]; auto. }
  rewrite (vote_helpful_found cast (vote_body id d) w k r Hid Hdir Hk Hr).
  cbn [fst snd]. split; [reflexivity |].
  destruct Hd as [-> | ->]; simpl.
  - rewrite vote_up_votes, Z.add_0_r. reflexivity.
  - rewrite vote_down_votes, Z.add_0_r. reflexivity.
Qed.

(** X5. Votes add up: after any sequence of votes "up" and "down" on a
    stored review, each answered 200, its [helpfulUp] has grown by the
    number of votes "up" and its [helpfulDown] by the number of votes
    "down", in whatever order they came; the other reviews are as they
    were. *)
Theorem vote_helpful_sequence cast (id : value) (k : string)
  (ds : list string) :
  truthy id = true ->
  cast id = Some k ->
  Forall (fun d => d = "up" \/ d = "down") ds ->
  forall (w : World) (r : PublicReview),
    publicReviews w !! k = Some r ->
    let res := vote_all cast id ds w in
    Forall (fun o => accepted o = true) (fst res)
    /\ length (fst res) = length ds
    /\ publicReviews (snd res) !! k
       = Some (with_votes (helpfulUp r + votes "up" ds)
                 (helpfulDown r + votes "down" ds) r)
    /\ (forall k', k' <> k ->
          publicReviews (snd res) !! k' = publicReviews w !! k').
Proof.
  intros Hid Hk Hall. induction Hall as [| d ds Hd _ IH]; intros w r Hr.
  - simpl. unfold votes. simpl. rewrite !Z.add_0_r, with_votes_same. auto.
  - cbn [vote_all].
    destruct (vote_helpful_step cast id k d w r Hid Hk Hr Hd)
      as (Hacc & Hw').
    destruct (route (vote_helpful cast (vote_body id d)) w) as [o w'].
    cbn [fst snd] in *.
    destruct (IH w' _ (eq_trans (f_equal (fun m => m !! k) Hw')
                         (lookup_insert_eq _ _ _)))
      as (Hok & Hlen & Hlook & Hother).
    split; [constructor; assumption |].
    split; [simpl; congruence |].
    split.
    + rewrite Hlook, !votes_cons. unfold with_votes. simpl.
      f_equal. f_equal; lia.
    + intros k' Hne. rewrite Hother by exact Hne. rewrite Hw'.
      apply lookup_insert_ne. congruence.
Qed.

(** Up, down, up on the sample review. *)
Lemma vote_helpful_sequence_witness :
  publicReviews
    (snd (vote_all Sample.castId (VStr Sample.review_id)
            ["up"; "down"; "up"] Sample.world0))
    !! Sample.review_id
  = Some (with_votes 2 1 Sample.review0).
Proof.
  apply (vote_helpful_sequence Sample.castId (VStr Sample.review_id)
           Sample.review_id ["up"; "down"; "up"] eq_refl eq_refl).
  - repeat (apply Forall_cons; split; [auto |]). constructor.
  - reflexivity.
Defined.

(** X6. A public review without a name, a comment or a rating is refused
    with "Name, rating, and comment are required" (400); a rating of 0
    counts as no rating and gets this answer, not the one about the range.
    With the three present, a rating that is not a number from 1 to 5 is
    refused with "Rating must be a number between 1 and 5" (400).  Nothing
    is stored in either case. *)
Theorem public_review_rejects castString env body w :
  (truthy (field "rating" body) = false
   \/ truthy (field "comment" body) = false
   \/ truthy (field "name" body) = false ->
   route (public_review castString env body) w
   = (fail "Name, rating, and comment are required" 400, w))
  /\ (forall q, field "rating" body = VNum q -> (q == 0)%Q ->
      route (public_review castString env body) w
      = (fail "Name, rating, and comment are required" 400, w))
  /\ (truthy (field "rating" body) = true ->
      truthy (field "comment" body) = true ->
      truthy (field "name" body) = true ->
      ~ (exists r, field "rating" body = VNum r /\ in_bounds r) ->
      route (public_review castString env body) w
      = (fail "Rating must be a number between 1 and 5" 400, w)).
Proof.
  assert (Hmissing :
    truthy (field "rating" body) = false
    \/ truthy (field "comment" body) = false
    \/ truthy (field "name" body) = false ->
    route (public_review castString env body) w
    = (fail "Name, rating, and comment are required" 400, w)).
  { intros H. unfold route, public_review.
    destruct H as [-> | [-> | ->]]; rewrite ?orb_true_r; reflexivity. }
  split; [exact Hmissing |]. split.
  - intros q Hq Hzero. apply Hmissing. left. rewrite Hq. simpl.
    apply negb_false_iff. apply Qeq_bool_iff. exact Hzero.
  - intros H1 H2 H3 Hbad. rewrite <- bad_rating_false in Hbad.
    apply not_false_iff_true in Hbad.
    unfold route, public_review. rewrite H1, H2, H3, Hbad. reflexivity.
Qed.

(** Ratings 0 and 7 with a name and a comment. *)
Lemma public_review_rejects_witness :
  route (public_review Sample.castStr (Sample.env_at 1)
           (VObj [("name", VStr "Ann"); ("rating", VNum 0);
                  ("comment", VStr "Good")])) Sample.world0
  = (fail "Name, rating, and comment are required" 400, Sample.world0)
  /\ route (public_review Sample.castStr (Sample.env_at 1)
              (VObj [("name", VStr "Ann"); ("rating", VNum 7);
                     ("comment", VStr "Good")])) Sample.world0
     = (fail "Rating must be a number between 1 and 5" 400, Sample.world0).
Proof.
  split.
  - apply (proj1 (proj2 (public_review_rejects Sample.castStr
                           (Sample.env_at 1) _ Sample.world0)) 0%Q);
      reflexivity.
  - apply (proj2 (proj2 (public_review_rejects Sample.castStr
                           (Sample.env_at 1) _ Sample.world0)));
      try reflexivity.
    intros (r & Hr & _ & H5). vm_compute in Hr. injection Hr as <-.
    apply H5. reflexivity.
Defined.

(** X7. A public review that passes the checks and the schema is stored
    under the id the database gives it, with the name, rating and comment
    of the request, the date of the request and both counters at 0; a
    first vote "up" for that id is then answered with counters 1 and 0. *)
Theorem public_review_then_vote cast castString env body w r n c :
  field "rating" body = VNum r ->
  in_bounds r ->
  truthy (field "comment" body) = true ->
  truthy (field "name" body) = true ->
  castString (field "name" body) = Some n ->
  castString (field "comment" body) = Some c ->
  n <> EmptyString ->
  c <> EmptyString ->
  cast (VStr (new_id env)) = Some (new_id env) ->
  new_id env <> EmptyString ->
  let res := route (public_review castString env body) w in
  let stored :=
    {| name := n; review_rating := r; review_comment := c;
       helpfulUp := 0; helpfulDown := 0; review_createdAt := now env |} in
  fst res = Json 201 (Message "Thank you for your review!")
  /\ publicReviews (snd res) = <[new_id env := stored]> (publicReviews w)
  /\ fst (route (vote_helpful cast (vote_body (VStr (new_id env)) "up"))
            (snd res))
     = Json 200 (VoteRecorded "Vote recorded" 1 0).
Proof.
  intros Hr Hin Hc Hn Hcn Hcc Hne Hce Hcast Hid res stored.
  assert (Hres : res =
            (Json 201 (Message "Thank you for your review!"),
             set_publicReviews <[new_id env := stored]>
               (log (DbCreate "PublicReview" (new_id env)) w))).
  { subst res. unfold route, public_review, PublicReview_create.
    assert (Hbad : bad_rating (field "rating" body) = false)
      by (apply bad_rating_false; eauto).
    assert (Ht : truthy (field "rating" body) = true).
    { rewrite Hr. simpl. apply negb_true_iff.
      destruct (Qeq_bool r 0) eqn:E; [| reflexivity].
      apply Qeq_bool_iff in E. destruct Hin as [H1 _].
      rewrite E in H1. exfalso. apply H1. reflexivity. }
    rewrite Ht, Hc, Hn, Hbad, Hcn, Hcc. simpl.
    apply String.eqb_neq in Hne, Hce. rewrite Hne, Hce. simpl.
    unfold bind, call, update, ret. simpl. rewrite Hr. reflexivity. }
  rewrite Hres. cbn [fst snd]. split; [reflexivity |].
  split; [reflexivity |].
  erewrite (vote_helpful_found cast (vote_body (VStr (new_id env)) "up")
              _ (new_id env) stored).
  - reflexivity.
  - simpl. apply negb_true_iff. apply String.eqb_neq. exact Hid.
  - left. reflexivity.
  - exact Hcast.
  - simpl. apply lookup_insert_eq.
Qed.

(** A review of four stars and a half, then a vote for it. *)
Lemma public_review_then_vote_witness :
  let body := VObj [("name", VStr "Ann"); ("rating", VNum (9 # 2));
                    ("comment", VStr "Good")] in
  let res := route (public_review Sample.castStr (Sample.env_at 3) body)
               Sample.world0 in
  fst res = Json 201 (Message "Thank you for your review!")
  /\ fst (route (vote_helpful Sample.castId
                   (vote_body (VStr (new_id (Sample.env_at 3))) "up"))
            (snd res))
     = Json 200 (VoteRecorded "Vote recorded" 1 0).
Proof.
  intros body res.
  destruct (public_review_then_vote Sample.castId Sample.castStr
              (Sample.env_at 3) body Sample.world0 (9 # 2) "Ann" "Good")
    as (H1 & _ & H3); try reflexivity; try discriminate.
  - split; discriminate.
  - split; [exact H1 | exact H3].
Defined.

(** *** Deleting, further *)

(** What deleting an existing product does, step by step. *)
Lemma delete_shop_product_run cast env (id k : string) (w : World) p :
  cast (VStr id) = Some k ->
  products w !! k = Some p ->
  exists w1,
    route (delete_shop_product cast env id) w
    = (Json 200 (Message "Product deleted successfully!"),
       set_products (delete k) (log (DbRemove "Product" k) w1))
    /\ same_db w w1
    /\ destroyed (trace w1)
       = (destroyed (trace w) ++ map public_id (images p))%list.
Proof.
  intros Hk Hp.
  destruct (destroy_images_all env "Failed to delete image:" (images p) 0%nat
              (log (DbFind "Product" (VStr id)) w))
    as (w1 & Hrun & Hdb & Htr).
  exists w1. split; [| split].
  - unfold route, delete_shop_product, findById.
    unfold try_catch, bind, call, read, update, ret. rewrite Hk. simpl.
    rewrite Hp. simpl. rewrite Hrun. reflexivity.
  - exact Hdb.
  - rewrite Htr, destroyed_log, app_nil_r. reflexivity.
Qed.

(** X8. Deleting a product or an event whose id names no document is
    answered 404 after the one lookup: the media service is not called and
    nothing is removed. *)
Theorem delete_not_found cast env (id k : string) (w : World) :
  cast (VStr id) = Some k ->
  (products w !! k = None ->
   route (delete_shop_product cast env id) w
   = (fail "Product not found with this id" 404,
      log (DbFind "Product" (VStr id)) w))
  /\ (events w !! k = None ->
      route (delete_shop_event cast env id) w
      = (fail "Event not found with this ID" 404,
         log (DbFind "Event" (VStr id)) w)).
Proof.
  intros Hk. split; intros Hnone.
  - unfold route, delete_shop_product, findById.
    unfold try_catch, bind, call, read, exit. rewrite Hk. simpl.
    rewrite Hnone. reflexivity.
  - unfold route, delete_shop_event, findById.
    unfold bind, call, read, exit. rewrite Hk. simpl.
    rewrite Hnone. reflexivity.
Qed.

(** The id of the sample shop names no product and no event. *)
Lemma delete_not_found_witness :
  fst (route (delete_shop_product Sample.castId (Sample.env_at 1)
                Sample.shop_id) Sample.world0)
  = fail "Product not found with this id" 404
  /\ fst (route (delete_shop_event Sample.castId (Sample.env_at 1)
                   Sample.shop_id) Sample.world0)
     = fail "Event not found with this ID" 404.
Proof.
  destruct (delete_not_found Sample.castId (Sample.env_at 1) Sample.shop_id
              Sample.shop_id Sample.world0 eq_refl) as [Hp He].
  rewrite Hp, He by reflexivity. split; reflexivity.
Defined.

(** X9. An id that cannot be cast to an ObjectId: the product route
    catches the error and answers with status 400; the event route has no
    try/catch, and the error leaves the handler.  Neither calls the media
    service or removes anything. *)
Theorem delete_malformed_id cast env (id : string) (w : World) :
  cast (VStr id) = None ->
  (exists text,
     route (delete_shop_product cast env id) w
     = (fail text 400, log (DbFind "Product" (VStr id)) w))
  /\ (exists text,
        route (delete_shop_event cast env id) w
        = (Rejected text, log (DbFind "Event" (VStr id)) w)).
Proof.
  intros Hk. split.
  - unfold route, delete_shop_product, findById.
    unfold try_catch, bind, call, read, exit, raise. rewrite Hk. simpl.
    eauto.
  - unfold route, delete_shop_event, findById.
    unfold bind, call, read, exit, raise. rewrite Hk. simpl. eauto.
Qed.

(** The id "xyz". *)
Lemma delete_malformed_id_witness :
  (exists text,
     fst (route (delete_shop_product Sample.castId (Sample.env_at 1) "xyz")
            Sample.world0) = fail text 400)
  /\ (exists text,
        fst (route (delete_shop_event Sample.castId (Sample.env_at 1) "xyz")
               Sample.world0) = Rejected text).
Proof.
  destruct (delete_malformed_id Sample.castId (Sample.env_at 1) "xyz"
              Sample.world0 eq_refl) as [[t1 H1] [t2 H2]].
  rewrite H1, H2. eauto.
Defined.

(** X10. Deleting a product a second time is answered 404, and hands
    nothing more to the media service. *)
Theorem delete_shop_product_twice cast env env' (id k : string) (w : World) p :
  cast (VStr id) = Some k ->
  products w !! k = Some p ->
  let r1 := route (delete_shop_product cast env id) w in
  let r2 := route (delete_shop_product cast env' id) (snd r1) in
  fst r1 = Json 200 (Message "Product deleted successfully!")
  /\ fst r2 = fail "Product not found with this id" 404
  /\ destroyed (trace (snd r2)) = destroyed (trace (snd r1))
  /\ products (snd r2) = products (snd r1).
Proof.
  intros Hk Hp r1 r2.
  destruct (delete_shop_product_run cast env id k w p Hk Hp)
    as (w1 & Hrun & Hdb & Htr).
  subst r2 r1. rewrite Hrun. cbn [fst snd].
  split; [reflexivity |].
  unfold route at 1 2 3, delete_shop_product, findById.
  unfold try_catch, bind, call, read, exit. rewrite Hk. simpl.
  rewrite lookup_delete_eq. simpl.
  split; [reflexivity |]. split; [| reflexivity].
  unfold destroyed. rewrite !omap_app. simpl. rewrite !app_nil_r.
  reflexivity.
Qed.

(** The sample product, deleted twice. *)
Lemma delete_shop_product_twice_witness :
  let r1 := route (delete_shop_product Sample.castId Sample.env_second_fails
                     Sample.product_id) Sample.world0 in
  let r2 := route (delete_shop_product Sample.castId (Sample.env_at 2)
                     Sample.product_id) (snd r1) in
  fst r2 = fail "Product not found with this id" 404
  /\ destroyed (trace (snd r2)) = destroyed (trace (snd r1)).
Proof.
  intros r1 r2.
  destruct (delete_shop_product_twice Sample.castId Sample.env_second_fails
              (Sample.env_at 2) Sample.product_id Sample.product_id
              Sample.world0 Sample.product0 eq_refl eq_refl)
    as (_ & H2 & H3 & _).
  split; [exact H2 | exact H3].
Defined.

(** *** Creating a product, further *)

Lemma uploaded_log (c : Call) (w : World) :
  uploaded (trace (log c w)) =
    (uploaded (trace w)
     ++ match c with
        | CloudUpload payload folder => [(payload, folder)]
        | _ => []
        end)%list.
Proof.
  unfold uploaded. simpl. rewrite omap_app. f_equal.
  destruct c; reflexivity.
Qed.

(** When every upload succeeds the loop yields the links in the order of
    the images, after one upload for each image. *)
Lemma upload_images_all (env : Env) (l : list value) :
  forall (i : nat) (acc links : list value) (w : World),
    links_of env i l = Some links ->
    exists w',
      upload_images env i l acc w = (Val (acc ++ links)%list, w')
      /\ same_db w w'
      /\ uploaded (trace w')
         = (uploaded (trace w) ++ map (fun img => (img, "products")) l)%list
      /\ destroyed (trace w') = destroyed (trace w).
Proof.
  induction l as [| image rest IH]; intros i acc links w; simpl.
  - intros [= <-]. exists w. unfold ret, same_db.
    rewrite !app_nil_r. auto 10.
  - destruct (upload_result env i image) as [result |] eqn:Hup;
      [| discriminate].
    destruct (links_of env (S i) rest) as [links' |] eqn:Hrest;
      [| discriminate].
    intros [= <-].
    destruct (IH (S i) (acc ++ [link_value result.1 result.2])%list links'
                (log (CloudUpload image "products") w) Hrest)
      as (w' & Hrun & Hdb & Hup' & Hde).
    exists w'. split; [| split; [exact Hdb | split]].
    + unfold bind at 1, try_catch, cloud_upload, bind, call, ret.
      rewrite Hup. simpl. rewrite Hrun, <- app_assoc. reflexivity.
    + rewrite Hup', uploaded_log, <- app_assoc. reflexivity.
    + rewrite Hde, destroyed_log, app_nil_r. reflexivity.
Qed.

(** The loop up to the first upload that fails. *)
Lemma upload_images_prefix (env : Env) (l : list value) :
  forall (j i : nat) (acc links : list value) (w : World) image,
    links_of env i (take j l) = Some links ->
    l !! j = Some image ->
    upload_result env (i + j) image = None ->
    exists w',
      upload_images env i l acc w
      = (Return (fail "Image upload failed" 500), w')
      /\ same_db w w'
      /\ uploaded (trace w')
         = (uploaded (trace w)
            ++ map (fun img => (img, "products")) (take (S j) l))%list
      /\ destroyed (trace w') = destroyed (trace w).
Proof.
  induction l as [| x rest IH]; intros j i acc links w image;
    [intros _ H; discriminate |].
  destruct j as [| j]; simpl.
  - intros _ [= ->] Hnone. rewrite Nat.add_0_r in Hnone.
    exists (log (CloudUpload image "products") w).
    split; [| split; [| split]].
    + unfold bind at 1, try_catch, cloud_upload, bind, call, raise, exit.
      rewrite Hnone. reflexivity.
    + unfold same_db. simpl. auto 10.
    + rewrite uploaded_log. reflexivity.
    + rewrite destroyed_log, app_nil_r. reflexivity.
  - destruct (upload_result env i x) as [result |] eqn:Hup; [| discriminate].
    destruct (links_of env (S i) (take j rest)) as [links' |] eqn:Hrest;
      [| discriminate].
    intros _ Hj Hnone.
    destruct (IH j (S i) (acc ++ [link_value result.1 result.2])%list links'
                (log (CloudUpload x "products") w) image Hrest Hj)
      as (w' & Hrun & Hdb & Hup' & Hde).
    { rewrite <- Hnone. f_equal. lia. }
    exists w'. split; [| split; [exact Hdb | split]].
    + unfold bind at 1, try_catch, cloud_upload, bind, call, ret.
      rewrite Hup. simpl. exact Hrun.
    + rewrite Hup', uploaded_log, <- app_assoc. reflexivity.
    + rewrite Hde, destroyed_log, app_nil_r. reflexivity.
Qed.

(** The request of create-product up to the uploads, for a request with a
    location and the id of an existing shop. *)
Lemma create_product_checked cast schema env body w s ks shop :
  field "location" body = VStr s ->
  trim_is_empty s = false ->
  truthy (field "shopId" body) = true ->
  cast (field "shopId" body) = Some ks ->
  shops w !! ks = Some shop ->
  route (create_product cast schema env body) w
  = route
      (try_catch
         (let* imagesLinks :=
            upload_images env 0 (imagesArray_of (field "images" body)) [] in
          let* created :=
            Product_create schema env
              (productData_of env body shop imagesLinks) in
          ret (Json 201 (Created (fst created) (snd created))))
         (fun error => exit (fail error 400)))
      (log (DbFind "Shop" (field "shopId" body)) w).
Proof.
  intros Hloc Hs Hshop Hks Hlook.
  unfold route, create_product, findById, blank, productData_of.
  rewrite Hloc.
  assert (Ht : truthy (VStr s) = true).
  { destruct s; [discriminate | reflexivity]. }
  rewrite Ht, Hshop. simpl negb. cbv iota.
  unfold try_catch, bind, call, read, ret. rewrite Hs, Hks. simpl.
  rewrite Hlook. simpl. reflexivity.
Qed.

(** X11. A creation request with a location and the id of an existing
    shop, all of whose uploads succeed and whose data the schema accepts,
    is answered 201 with the product the schema built from the request,
    the links in the order of the images, sold_out 0 and the date of the
    request; the product is stored under the new id, and each image was
    uploaded once, in order, to the folder "products". *)
Theorem create_product_created cast schema env body w s ks shop links p :
  field "location" body = VStr s ->
  trim_is_empty s = false ->
  truthy (field "shopId" body) = true ->
  cast (field "shopId" body) = Some ks ->
  shops w !! ks = Some shop ->
  links_of env 0 (imagesArray_of (field "images" body)) = Some links ->
  schema (productData_of env body shop links) = inr p ->
  let r := route (create_product cast schema env body) w in
  fst r = Json 201 (Created (new_id env) p)
  /\ products (snd r) = <[new_id env := p]> (products w)
  /\ uploaded (trace (snd r))
     = (uploaded (trace w)
        ++ map (fun img => (img, "products"))
             (imagesArray_of (field "images" body)))%list.
Proof.
  intros Hloc Hs Hshop Hks Hlook Hlinks Hschema r.
  destruct (upload_images_all env (imagesArray_of (field "images" body))
              0%nat [] links (log (DbFind "Shop" (field "shopId" body)) w)
              Hlinks) as (w' & Hrun & Hdb & Hup & _).
  assert (Hres : r = (Json 201 (Created (new_id env) p),
                      set_products <[new_id env := p]>
                        (log (DbCreate "Product" (new_id env)) w'))).
  { subst r.
    rewrite (create_product_checked cast schema env body w s ks shop)
      by assumption.
    unfold route, try_catch, bind at 1. rewrite Hrun. simpl app.
    unfold Product_create. rewrite Hschema. reflexivity. }
  rewrite Hres. cbn [fst snd]. destruct Hdb as (Hprod & _).
  split; [reflexivity |]. split; [simpl; rewrite Hprod; reflexivity |].
  change (trace (set_products <[new_id env := p]>
                   (log (DbCreate "Product" (new_id env)) w')))
    with (trace (log (DbCreate "Product" (new_id env)) w')).
  rewrite uploaded_log, Hup, uploaded_log, !app_nil_r. reflexivity.
Qed.

(** Two images for the sample shop. *)
Lemma create_product_created_witness :
  let body :=
    VObj [("name", VStr "Flat"); ("location", VStr "Nairobi");
          ("shopId", VStr Sample.shop_id); ("sold_out", VNum 9);
          ("images", VArr [VStr "a"; VStr "b"])] in
  let r := route (create_product Sample.castId Sample.schema
                    (Sample.env_at 1) body) Sample.world0 in
  exists p,
    fst r = Json 201 (Created (new_id (Sample.env_at 1)) p)
    /\ field "sold_out" (product_doc p) = VNum 0
    /\ uploaded (trace (snd r)) = [(VStr "a", "products"); (VStr "b", "products")].
Proof.
  intros body r.
  destruct (create_product_created Sample.castId Sample.schema
              (Sample.env_at 1) body Sample.world0 "Nairobi" Sample.shop_id
              (VObj [("name", VStr "Shop")])
              [link_value "products/new" "http://x/new.png";
               link_value "products/new" "http://x/new.png"]
              {| images := [Sample.link_of (link_value "products/new" "http://x/new.png");
                            Sample.link_of (link_value "products/new" "http://x/new.png")];
                 reviews := []; ratings := None;
                 product_doc :=
                   productData_of (Sample.env_at 1) body
                     (VObj [("name", VStr "Shop")])
                     [link_value "products/new" "http://x/new.png";
                      link_value "products/new" "http://x/new.png"] |})
    as (H1 & _ & H3); try reflexivity.
  eexists. split; [exact H1 |]. split; [reflexivity | exact H3].
Defined.

(** X12. When the schema refuses the data of a creation request whose
    uploads all succeeded, the request is answered 400 with the message of
    the schema and no product is stored; the images have been uploaded all
    the same, and the media service is not asked to delete them. *)
Theorem create_product_refused cast schema env body w s ks shop links text :
  field "location" body = VStr s ->
  trim_is_empty s = false ->
  truthy (field "shopId" body) = true ->
  cast (field "shopId" body) = Some ks ->
  shops w !! ks = Some shop ->
  links_of env 0 (imagesArray_of (field "images" body)) = Some links ->
  schema (productData_of env body shop links) = inl text ->
  let r := route (create_product cast schema env body) w in
  fst r = fail text 400
  /\ same_db w (snd r)
  /\ uploaded (trace (snd r))
     = (uploaded (trace w)
        ++ map (fun img => (img, "products"))
             (imagesArray_of (field "images" body)))%list
  /\ destroyed (trace (snd r)) = destroyed (trace w).
Proof.
  intros Hloc Hs Hshop Hks Hlook Hlinks Hschema r.
  destruct (upload_images_all env (imagesArray_of (field "images" body))
              0%nat [] links (log (DbFind "Shop" (field "shopId" body)) w)
              Hlinks) as (w' & Hrun & Hdb & Hup & Hde).
  assert (Hres : r = (fail text 400, w')).
  { subst r.
    rewrite (create_product_checked cast schema env body w s ks shop)
      by assumption.
    unfold route, try_catch, bind at 1. rewrite Hrun. simpl app.
    unfold Product_create. rewrite Hschema. reflexivity. }
  rewrite Hres. cbn [fst snd].
  split; [reflexivity |]. split; [exact Hdb |].
  rewrite Hup, Hde, uploaded_log, destroyed_log, !app_nil_r. auto.
Qed.

(** A product without a name, which the sample schema refuses. *)
Lemma create_product_refused_witness :
  let body :=
    VObj [("location", VStr "Nairobi"); ("shopId", VStr Sample.shop_id);
          ("images", VStr "a")] in
  let r := route (create_product Sample.castId Sample.schema
                    (Sample.env_at 1) body) Sample.world0 in
  fst r = fail "Please enter your product name!" 400
  /\ products (snd r) = products Sample.world0
  /\ uploaded (trace (snd r)) = [(VStr "a", "products")]
  /\ destroyed (trace (snd r)) = [].
Proof.
  intros body r.
  destruct (create_product_refused Sample.castId Sample.schema
              (Sample.env_at 1) body Sample.world0 "Nairobi" Sample.shop_id
              (VObj [("name", VStr "Shop")])
              [link_value "products/new" "http://x/new.png"]
              "Please enter your product name!")
    as (H1 & (H2 & _) & H3 & H4); try reflexivity.
  auto.
Defined.

(** X13. The upload loop stops at the first upload that fails: with the
    uploads before image [j] successful and that of image [j] failing, the
    images up to and including [j] have been handed to the media service,
    in order, and no other; the uploaded ones are not deleted again. *)
Theorem create_product_upload_prefix cast schema env body w s ks shop
  j image links :
  field "location" body = VStr s ->
  trim_is_empty s = false ->
  truthy (field "shopId" body) = true ->
  cast (field "shopId" body) = Some ks ->
  shops w !! ks = Some shop ->
  links_of env 0 (take j (imagesArray_of (field "images" body)))
  = Some links ->
  imagesArray_of (field "images" body) !! j = Some image ->
  upload_result env j image = None ->
  let r := route (create_product cast schema env body) w in
  fst r = fail "Image upload failed" 500
  /\ uploaded (trace (snd r))
     = (uploaded (trace w)
        ++ map (fun img => (img, "products"))
             (take (S j) (imagesArray_of (field "images" body))))%list
  /\ destroyed (trace (snd r)) = destroyed (trace w).
Proof.
  intros Hloc Hs Hshop Hks Hlook Hlinks Hj Hnone r.
  destruct (upload_images_prefix env (imagesArray_of (field "images" body))
              j 0%nat [] links (log (DbFind "Shop" (field "shopId" body)) w)
              image Hlinks Hj Hnone) as (w' & Hrun & Hdb & Hup & Hde).
  assert (Hres : r = (fail "Image upload failed" 500, w')).
  { subst r.
    rewrite (create_product_checked cast schema env body w s ks shop)
      by assumption.
    unfold route, try_catch, bind at 1. rewrite Hrun. reflexivity. }
  rewrite Hres. cbn [fst snd]. split; [reflexivity |].
  rewrite Hup, Hde, uploaded_log, destroyed_log, !app_nil_r. auto.
Qed.

(** Three images, the second upload failing: the third is not tried. *)
Lemma create_product_upload_prefix_witness :
  let body :=
    VObj [("name", VStr "Flat"); ("location", VStr "Nairobi");
          ("shopId", VStr Sample.shop_id);
          ("images", VArr [VStr "a"; VStr "b"; VStr "c"])] in
  let r := route (create_product Sample.castId Sample.schema
                    Sample.env_second_fails body) Sample.world0 in
  uploaded (trace (snd r)) = [(VStr "a", "products"); (VStr "b", "products")]
  /\ destroyed (trace (snd r)) = [].
Proof.
  intros body r.
  destruct (create_product_upload_prefix Sample.castId Sample.schema
              Sample.env_second_fails body Sample.world0 "Nairobi"
              Sample.shop_id (VObj [("name", VStr "Shop")]) 1%nat (VStr "b")
              [link_value "products/new" "http://x/new.png"])
    as (_ & H2 & H3); try reflexivity.
  auto.
Defined.

(** X14. The checks of create-product come before any upload: without a
    location (absent, empty or white space only) the answer is "Product
    location is required" and without a shop id "Shop ID is required",
    both with status 400 and before any call to the database or the media
    service; for an id that names no shop it is "Shop Id is invalid!"
    (400) after the one lookup. *)
Theorem create_product_checks cast schema env body w :
  (truthy (field "location" body) = false
   \/ (exists s, field "location" body = VStr s /\ trim_is_empty s = true) ->
   route (create_product cast schema env body) w
   = (fail "Product location is required" 400, w))
  /\ (forall s, field "location" body = VStr s -> trim_is_empty s = false ->
      truthy (field "shopId" body) = false ->
      route (create_product cast schema env body) w
      = (fail "Shop ID is required" 400, w))
  /\ (forall s ks, field "location" body = VStr s ->
      trim_is_empty s = false ->
      truthy (field "shopId" body) = true ->
      cast (field "shopId" body) = Some ks ->
      shops w !! ks = None ->
      route (create_product cast schema env body) w
      = (fail "Shop Id is invalid!" 400,
         log (DbFind "Shop" (field "shopId" body)) w)).
Proof.
  split; [| split].
  - intros [Hf | (s & Hloc & Hs)];
      unfold route, create_product, blank, try_catch, bind, ret, exit.
    + rewrite Hf. reflexivity.
    + rewrite Hloc. destruct (negb (truthy (VStr s))); [reflexivity |].
      rewrite Hs. reflexivity.
  - intros s Hloc Hs Hshop.
    unfold route, create_product, blank, try_catch, bind, ret, exit.
    rewrite Hloc.
    assert (Ht : truthy (VStr s) = true).
    { destruct s; [discriminate | reflexivity]. }
    rewrite Ht, Hs, Hshop. reflexivity.
  - intros s ks Hloc Hs Hshop Hks Hnone.
    unfold route, create_product, findById, blank.
    unfold try_catch, bind, call, read, ret, exit.
    rewrite Hloc.
    assert (Ht : truthy (VStr s) = true).
    { destruct s; [discriminate | reflexivity]. }
    rewrite Ht, Hs, Hshop, Hks. simpl. rewrite Hnone. reflexivity.
Qed.

(** A location of spaces, and a shop that does not exist. *)
Lemma create_product_checks_witness :
  route (create_product Sample.castId Sample.schema (Sample.env_at 1)
           (VObj [("location", VStr "   ");
                  ("shopId", VStr Sample.shop_id)])) Sample.world0
  = (fail "Product location is required" 400, Sample.world0)
  /\ fst (route (create_product Sample.castId Sample.schema (Sample.env_at 1)
                   (VObj [("location", VStr "Nairobi");
                          ("shopId", VStr Sample.product_id)]))
            Sample.world0)
     = fail "Shop Id is invalid!" 400.
Proof.
  split.
  - apply (create_product_checks Sample.castId Sample.schema
             (Sample.env_at 1) _ Sample.world0).
    right. exists "   ". split; reflexivity.
  - pose (body := VObj [("location", VStr "Nairobi");
                        ("shopId", VStr Sample.product_id)]).
    destruct (create_product_checks Sample.castId Sample.schema
                (Sample.env_at 1) body Sample.world0) as (_ & _ & H).
    fold body.
    rewrite (H "Nairobi" Sample.product_id); reflexivity.
Defined.

(** *** Creating a product from uploaded media *)

Lemma bad_link_not_nullish (img : value) (w : World) :
  not_nullish img = true ->
  bad_link img w = (Val (negb (good_link img)), w).
Proof.
  intros Hn. unfold bad_link, good_link, prop, ret.
  destruct img; try discriminate;
    (destruct (truthy (field "public_id" _)); reflexivity).
Qed.

Lemma check_links_good (text : string) (l : list value) (w : World) :
  forallb not_nullish l = true ->
  check_links text l w
  = (if forallb good_link l then Val tt else Return (fail text 400), w).
Proof.
  induction l as [| img rest IH]; simpl; [reflexivity |].
  rewrite andb_true_iff. intros [Hn Hrest].
  unfold bind. rewrite (bad_link_not_nullish img w Hn).
  destruct (good_link img); simpl; [apply IH; exact Hrest | reflexivity].
Qed.

(** The request up to the checks of the media, for a request with a
    location and the id of an existing shop. *)
Lemma create_product_with_media_checked cast schema env body w s ks shop :
  field "location" body = VStr s ->
  trim_is_empty s = false ->
  truthy (field "shopId" body) = true ->
  cast (field "shopId" body) = Some ks ->
  shops w !! ks = Some shop ->
  route (create_product_with_media cast schema env body) w
  = route
      (check_media "Invalid image data format"
         (parseMediaArray (field "images" body));;
       check_media "Invalid video data format"
         (parseMediaArray (field "videos" body));;
       let* created :=
         Product_create schema env
           (VObj (omit ["shopId"; "images"; "videos"; "location"; "details"]
                    body
                  ++ [("location", field "location" body);
                      ("details", details_of (field "details" body));
                      ("images", parseMediaArray (field "images" body));
                      ("videos", parseMediaArray (field "videos" body));
                      ("shopId", field "shopId" body);
                      ("shop", shop);
                      ("sold_out", VNum 0);
                      ("createdAt", date (now env))])%list) in
       ret (Json 201 (Created (fst created) (snd created))))
      (log (DbFind "Shop" (field "shopId" body)) w).
Proof.
  intros Hloc Hs Hshop Hks Hlook.
  unfold route, create_product_with_media, findById, blank.
  rewrite Hloc.
  assert (Ht : truthy (VStr s) = true).
  { destruct s; [discriminate | reflexivity]. }
  rewrite Ht, Hshop. simpl negb. cbv iota.
  unfold bind at 1, ret. rewrite Hs.
  unfold bind at 1 2, call, read. rewrite Hks. simpl. rewrite Hlook.
  reflexivity.
Qed.

(** X15. In the controller that takes uploaded media, a request with a
    location and an existing shop whose image list holds a descriptor
    without [public_id] or without [url] is answered "Invalid image data
    format" (400); with good images and such a descriptor among the videos
    it is "Invalid video data format" (400).  Nothing is stored.  A null
    in first place in the image list is not answered that way: reading its
    [public_id] throws, and the error leaves the handler. *)
Theorem create_product_with_media_bad_link cast schema env body w s ks shop
  (imgs : list value) :
  field "location" body = VStr s ->
  trim_is_empty s = false ->
  truthy (field "shopId" body) = true ->
  cast (field "shopId" body) = Some ks ->
  shops w !! ks = Some shop ->
  iterate (parseMediaArray (field "images" body)) = Some imgs ->
  let r := route (create_product_with_media cast schema env body) w in
  (forallb not_nullish imgs = true -> forallb good_link imgs = false ->
   r = (fail "Invalid image data format" 400,
        log (DbFind "Shop" (field "shopId" body)) w))
  /\ (forall vids,
        forallb not_nullish imgs = true -> forallb good_link imgs = true ->
        iterate (parseMediaArray (field "videos" body)) = Some vids ->
        forallb not_nullish vids = true -> forallb good_link vids = false ->
        r = (fail "Invalid video data format" 400,
             log (DbFind "Shop" (field "shopId" body)) w))
  /\ (forall img rest, imgs = img :: rest -> not_nullish img = false ->
      exists text,
        r = (Rejected text, log (DbFind "Shop" (field "shopId" body)) w)).
Proof.
  intros Hloc Hs Hshop Hks Hlook Himgs r. subst r.
  rewrite (create_product_with_media_checked cast schema env body w s ks shop)
    by assumption.
  split; [| split].
  - intros Hn Hbad. unfold route, check_media. rewrite Himgs.
    unfold bind at 1. rewrite check_links_good by exact Hn.
    rewrite Hbad. reflexivity.
  - intros vids Hn Hgood Hvids Hnv Hbad. unfold route, check_media.
    rewrite Himgs. unfold bind at 1.
    rewrite check_links_good by exact Hn. rewrite Hgood, Hvids.
    unfold bind at 1. rewrite check_links_good by exact Hnv.
    rewrite Hbad. reflexivity.
  - intros img rest -> Hnull. unfold route, check_media. rewrite Himgs.
    simpl. unfold bind at 1 2, bad_link.
    destruct img; try discriminate; simpl; unfold raise; eauto.
Qed.

(** An image without url; a video without public_id; a null image. *)
Lemma create_product_with_media_bad_link_witness :
  let request images videos :=
    VObj [("name", VStr "Flat"); ("location", VStr "Nairobi");
          ("shopId", VStr Sample.shop_id); ("images", images);
          ("videos", videos)] in
  let run body :=
    fst (route (create_product_with_media Sample.castId Sample.schema
                  (Sample.env_at 1) body) Sample.world0) in
  run (request (VArr [VObj [("public_id", VStr "p/1")]]) (VArr []))
  = fail "Invalid image data format" 400
  /\ run (request (VArr [link_value "p/1" "http://x/1.png"])
            (VArr [VObj [("url", VStr "http://x/v.mp4")]]))
     = fail "Invalid video data format" 400
  /\ (exists text, run (request (VArr [VNull]) (VArr [])) = Rejected text).
Proof.
  intros request run. split; [| split].
  - pose (body := request (VArr [VObj [("public_id", VStr "p/1")]]) (VArr [])).
    destruct (create_product_with_media_bad_link Sample.castId Sample.schema
                (Sample.env_at 1) body Sample.world0 "Nairobi" Sample.shop_id
                (VObj [("name", VStr "Shop")])
                [VObj [("public_id", VStr "p/1")]]
                eq_refl eq_refl eq_refl eq_refl eq_refl eq_refl)
      as (H & _ & _).
    unfold run. fold body. rewrite H; reflexivity.
  - pose (body := request (VArr [link_value "p/1" "http://x/1.png"])
                    (VArr [VObj [("url", VStr "http://x/v.mp4")]])).
    destruct (create_product_with_media_bad_link Sample.castId Sample.schema
                (Sample.env_at 1) body Sample.world0 "Nairobi" Sample.shop_id
                (VObj [("name", VStr "Shop")])
                [link_value "p/1" "http://x/1.png"]
                eq_refl eq_refl eq_refl eq_refl eq_refl eq_refl)
      as (_ & H & _).
    unfold run. fold body.
    rewrite (H [VObj [("url", VStr "http://x/v.mp4")]]); reflexivity.
  - pose (body := request (VArr [VNull]) (VArr [])).
    destruct (create_product_with_media_bad_link Sample.castId Sample.schema
                (Sample.env_at 1) body Sample.world0 "Nairobi" Sample.shop_id
                (VObj [("name", VStr "Shop")]) [VNull]
                eq_refl eq_refl eq_refl eq_refl eq_refl eq_refl)
      as (_ & _ & H).
    destruct (H VNull [] eq_refl eq_refl) as [text Ht].
    exists text. unfold run. fold body. rewrite Ht. reflexivity.
Defined.

Lemma parseMediaArray_json (s : string) (l : list value) :
  JSON.parse s = Some (VArr l) ->
  parseMediaArray (VStr s) = parseMediaArray (VArr l).
Proof.
  intros Hs. unfold parseMediaArray. rewrite Hs.
  destruct s; [discriminate Hs | reflexivity].
Qed.

(** X16. In the controller that takes uploaded media, a media field that
    holds the JSON text of an array is treated exactly as that array: the
    request has the same outcome and leaves the same world as the request
    with the array in place of the text, for the images and for the
    videos. *)
Theorem create_product_with_media_json cast schema env
  (fs : list (string * value)) (w : World) (s : string) (l : list value) :
  JSON.parse s = Some (VArr l) ->
  (field "images" (VObj fs) = VStr s ->
   route (create_product_with_media cast schema env (VObj fs)) w
   = route (create_product_with_media cast schema env
              (VObj (fs ++ [("images", VArr l)]))) w)
  /\ (field "videos" (VObj fs) = VStr s ->
      route (create_product_with_media cast schema env (VObj fs)) w
      = route (create_product_with_media cast schema env
                 (VObj (fs ++ [("videos", VArr l)]))) w).
Proof.
  intros Hs. split; intros Hfield; unfold create_product_with_media;
    rewrite !field_set, omit_set by reflexivity;
    simpl String.eqb; cbv iota;
    rewrite Hfield, (parseMediaArray_json s l Hs); reflexivity.
Qed.

(** The JSON text of one descriptor, as images of a request of the sample
    shop. *)
Lemma create_product_with_media_json_witness :
  let q := String JSON.quote EmptyString in
  let text := "[{" ++ q ++ "public_id" ++ q ++ ":" ++ q ++ "p/1" ++ q ++ ","
              ++ q ++ "url" ++ q ++ ":" ++ q ++ "http://x/1.png" ++ q ++ "}]" in
  let body :=
    [("name", VStr "Flat"); ("location", VStr "Nairobi");
     ("shopId", VStr Sample.shop_id); ("images", VStr text)] in
  exists p,
    fst (route (create_product_with_media Sample.castId Sample.schema
                  (Sample.env_at 1) (VObj body)) Sample.world0)
    = Json 201 (Created (new_id (Sample.env_at 1)) p)
    /\ images p = [{| public_id := VStr "p/1"; url := VStr "http://x/1.png" |}].
Proof.
  intros q text body.
  rewrite (proj1 (create_product_with_media_json Sample.castId Sample.schema
                    (Sample.env_at 1) body Sample.world0 text
                    [link_value "p/1" "http://x/1.png"] eq_refl))
    by reflexivity.
  eexists. split; [vm_compute; reflexivity | reflexivity].
Defined.

(** *** Regular expressions *)

Module RegexFacts.
Import Regex.

Section Symbols.

Context {A : Type}.
Implicit Types (r s : re A) (l : list A).

Lemma Matches_Void_inv l : Matches (@Void A) l -> False.
Proof. inversion 1. Qed.

Lemma Matches_Eps_inv l : Matches (@Eps A) l -> l = [].
Proof. inversion 1. reflexivity. Qed.

Lemma Matches_Sym_inv (p : A -> bool) l :
  Matches (Sym p) l -> exists a, l = [a] /\ p a = true.
Proof. inversion 1; subst. eauto. Qed.

Lemma Matches_Cat_inv r s l :
  Matches (Cat r s) l ->
  exists l1 l2, l = (l1 ++ l2)%list /\ Matches r l1 /\ Matches s l2.
Proof. inversion 1; subst. eauto. Qed.

Lemma Matches_Alt_inv r s l :
  Matches (Alt r s) l -> Matches r l \/ Matches s l.
Proof. inversion 1; subst; auto. Qed.

Lemma nullable_Matches r : nullable r = true <-> Matches r [].
Proof.
  induction r as [| | p | r IHr s IHs | r IHr s IHs | r IHr]; simpl.
  - split; [discriminate | intros H; destruct (Matches_Void_inv _ H)].
  - split; [constructor | reflexivity].
  - split; [discriminate |].
    intros H. apply Matches_Sym_inv in H as (a & [=] & _).
  - rewrite andb_true_iff, IHr, IHs. split.
    + intros [Hr Hs]. exact (MCat r s [] [] Hr Hs).
    + intros H. apply Matches_Cat_inv in H as (l1 & l2 & Heq & Hr & Hs).
      symmetry in Heq. apply app_eq_nil in Heq as [-> ->]. auto.
  - rewrite orb_true_iff, IHr, IHs. split.
    + intros [Hr | Hs]; [apply MAltL | apply MAltR]; assumption.
    + apply Matches_Alt_inv.
  - split; [constructor | reflexivity].
Qed.

(** A non-empty word of [r*] starts with a non-empty word of [r]. *)
Lemma Matches_Star_cons r a l :
  Matches (Star r) (a :: l) ->
  exists l1 l2, l = (l1 ++ l2)%list /\ Matches r (a :: l1)
                /\ Matches (Star r) l2.
Proof.
  intros H. remember (Star r) as sr eqn:Hsr. remember (a :: l) as w eqn:Hw.
  revert a l Hw.
  induction H as [| | | | | | r' l1 l2 H1 _ H2 IH2]; try discriminate.
  intros a l Hw. injection Hsr as ->.
  destruct l1 as [| b l1]; simpl in Hw.
  - apply IH2; [reflexivity | exact Hw].
  - injection Hw as -> <-. eauto.
Qed.

Lemma deriv_Matches a r : forall l, Matches (deriv a r) l <-> Matches r (a :: l).
Proof.
  induction r as [| | p | r IHr s IHs | r IHr s IHs | r IHr]; intros l; simpl.
  - split; intros H; destruct (Matches_Void_inv _ H).
  - split; intros H.
    + destruct (Matches_Void_inv _ H).
    + apply Matches_Eps_inv in H. discriminate.
  - destruct (p a) eqn:Hp; split; intros H.
    + apply Matches_Eps_inv in H as ->. constructor. exact Hp.
    + apply Matches_Sym_inv in H as (b & [= -> ->] & _). constructor.
    + destruct (Matches_Void_inv _ H).
    + apply Matches_Sym_inv in H as (b & [= -> ->] & Hb). congruence.
  - assert (Hcat : Matches (Cat (deriv a r) s) l ->
                   Matches (Cat r s) (a :: l)).
    { intros H. apply Matches_Cat_inv in H as (l1 & l2 & -> & Hr & Hs).
      apply IHr in Hr. exact (MCat r s (a :: l1) l2 Hr Hs). }
    assert (Hback : Matches (Cat r s) (a :: l) ->
                    Matches (Cat (deriv a r) s) l
                    \/ (Matches r [] /\ Matches (deriv a s) l)).
    { intros H. apply Matches_Cat_inv in H as (l1 & l2 & Heq & Hr & Hs).
      destruct l1 as [| b l1]; simpl in Heq.
      - subst l2. right. split; [exact Hr | apply IHs; exact Hs].
      - injection Heq as <- ->. left.
        constructor; [apply IHr; exact Hr | exact Hs]. }
    destruct (nullable r) eqn:Hn; split; intros H.
    + apply Matches_Alt_inv in H as [H | H]; [auto |].
      apply nullable_Matches in Hn. apply IHs in H.
      exact (MCat r s [] (a :: l) Hn H).
    + destruct (Hback H) as [Hc | [_ Hs]];
        [apply MAltL | apply MAltR]; assumption.
    + auto.
    + destruct (Hback H) as [Hc | [Hr _]]; [exact Hc |].
      apply nullable_Matches in Hr. congruence.
  - split; intros H; apply Matches_Alt_inv in H as [H | H];
      [apply MAltL; apply IHr | apply MAltR; apply IHs
      | apply MAltL; apply IHr | apply MAltR; apply IHs]; exact H.
  - split; intros H.
    + apply Matches_Cat_inv in H as (l1 & l2 & -> & Hr & Hs).
      apply IHr in Hr. exact (MStarCons r (a :: l1) l2 Hr Hs).
    + apply Matches_Star_cons in H as (l1 & l2 & -> & Hr & Hs).
      constructor; [apply IHr; exact Hr | exact Hs].
Qed.

(** The test decides the language. *)
Lemma test_whole_Matches r l : test_whole r l = true <-> Matches r l.
Proof.
  revert r. induction l as [| a l IH]; intros r; simpl.
  - apply nullable_Matches.
  - rewrite IH. apply deriv_Matches.
Qed.

Lemma Matches_Any l : Matches (@Any A) l.
Proof.
  induction l as [| a l IH]; [constructor |].
  exact (MStarCons _ [a] l (MSym _ a eq_refl) IH).
Qed.

(** A search finds the expression between any two parts of the input. *)
Lemma test_Matches r l :
  test r l = true <->
  exists pre mid post, l = (pre ++ mid ++ post)%list /\ Matches r mid.
Proof.
  unfold test. rewrite test_whole_Matches. split.
  - intros H. apply Matches_Cat_inv in H as (pre & rest & -> & _ & H).
    apply Matches_Cat_inv in H as (mid & post & -> & Hmid & _). eauto.
  - intros (pre & mid & post & -> & Hmid).
    constructor; [apply Matches_Any |].
    constructor; [exact Hmid | apply Matches_Any].
Qed.

(** The words of [p*] and of [p+]. *)
Lemma Matches_Star_Sym (p : A -> bool) l :
  Matches (Star (Sym p)) l <-> Forall (fun a => p a = true) l.
Proof.
  split.
  - intros H. remember (Star (Sym p)) as sr eqn:Hsr.
    induction H as [| | | | | | r' l1 l2 H1 _ H2 IH2]; try discriminate.
    + constructor.
    + injection Hsr as ->. apply Matches_Sym_inv in H1 as (a & -> & Ha).
      constructor; [exact Ha | apply IH2; reflexivity].
  - induction 1 as [| a l Ha _ IH]; [constructor |].
    exact (MStarCons _ [a] l (MSym _ a Ha) IH).
Qed.

Lemma Matches_Plus_Sym (p : A -> bool) l :
  Matches (Plus (Sym p)) l <-> l <> [] /\ Forall (fun a => p a = true) l.
Proof.
  unfold Plus. split.
  - intros H. apply Matches_Cat_inv in H as (l1 & l2 & -> & H1 & H2).
    apply Matches_Sym_inv in H1 as (a & -> & Ha).
    apply Matches_Star_Sym in H2.
    split; [discriminate | constructor; assumption].
  - intros [Hne Hall]. destruct l as [| a l]; [congruence |].
    apply Forall_cons in Hall as [Ha Hl].
    exact (MCat _ _ [a] l (MSym _ a Ha) (proj2 (Matches_Star_Sym p l) Hl)).
Qed.

End Symbols.

Lemma Matches_Lit (s l : list ascii) : Matches (Lit s) l <-> l = s.
Proof.
  revert l. induction s as [| c s IH]; intros l; simpl.
  - split; [apply Matches_Eps_inv | intros ->; constructor].
  - split.
    + intros H. apply Matches_Cat_inv in H as (l1 & l2 & -> & H1 & H2).
      apply Matches_Sym_inv in H1 as (a & -> & Ha).
      apply Ascii.eqb_eq in Ha as <-. apply IH in H2 as ->. reflexivity.
    + intros ->. apply (MCat _ _ [c] s).
      * constructor. apply Ascii.eqb_refl.
      * apply IH. reflexivity.
Qed.

Lemma Matches_OneOf (words : list string) (l : list ascii) :
  Matches (OneOf words) l <->
  exists w, In w words /\ l = list_ascii_of_string w.
Proof.
  induction words as [| w rest IH]; simpl.
  - split; [intros H; destruct (Matches_Void_inv _ H) | intros (w & [] & _)].
  - split.
    + intros H. apply Matches_Alt_inv in H as [H | H].
      * exists w. split; [auto | apply Matches_Lit; assumption].
      * apply IH in H as (w' & Hin & ->). eauto.
    + intros (w' & [-> | Hin] & ->).
      * apply MAltL. apply Matches_Lit. reflexivity.
      * apply MAltR. apply IH. eauto.
Qed.

End RegexFacts.

(** *** The contact route *)

Lemma is_byte_true (c : ascii) (g : glyph) :
  is_byte c g = true <-> g = Byte c.
Proof.
  destruct g as [| c']; simpl; [split; discriminate |].
  rewrite Ascii.eqb_eq. split; [intros -> | intros [= ->]]; reflexivity.
Qed.

(** What a match of the whole pattern says of a list of characters. *)
Lemma emailRegex_Matches (l : list glyph) :
  Regex.Matches emailRegex l <->
  exists local domain last,
    l = (local ++ [Byte "@"] ++ domain ++ [Byte "."] ++ last)%list
    /\ local <> [] /\ domain <> [] /\ last <> []
    /\ Forall (fun g => not_white_or_at g = true) local
    /\ Forall (fun g => not_white_or_at g = true) domain
    /\ Forall (fun g => not_white_or_at g = true) last.
Proof.
  unfold emailRegex. split.
  - intros H.
    apply RegexFacts.Matches_Cat_inv in H as (local & l1 & -> & Hlocal & H).
    apply RegexFacts.Matches_Cat_inv in H as (at_ & l2 & -> & Hat & H).
    apply RegexFacts.Matches_Cat_inv in H as (domain & l3 & -> & Hdom & H).
    apply RegexFacts.Matches_Cat_inv in H as (dot & last & -> & Hdot & Hlast).
    apply RegexFacts.Matches_Sym_inv in Hat as (a & -> & Ha).
    apply RegexFacts.Matches_Sym_inv in Hdot as (d & -> & Hd).
    apply is_byte_true in Ha as ->. apply is_byte_true in Hd as ->.
    apply RegexFacts.Matches_Plus_Sym in Hlocal as [? ?].
    apply RegexFacts.Matches_Plus_Sym in Hdom as [? ?].
    apply RegexFacts.Matches_Plus_Sym in Hlast as [? ?].
    exists local, domain, last. auto 10.
  - intros (local & domain & last & -> & H1 & H2 & H3 & F1 & F2 & F3).
    constructor; [apply RegexFacts.Matches_Plus_Sym; auto |].
    constructor; [constructor; reflexivity |].
    constructor; [apply RegexFacts.Matches_Plus_Sym; auto |].
    constructor; [constructor; reflexivity |].
    apply RegexFacts.Matches_Plus_Sym; auto.
Qed.

(** X17. The address test of the contact route accepts exactly the strings
    made of a local part, "@", a domain, "." and a last part, where the
    three parts are not empty and hold neither white space nor "@". *)
Theorem email_ok_spec toString (s : string) :
  email_ok toString (VStr s) = true <->
  exists local domain last,
    glyphs s = (local ++ [Byte "@"] ++ domain ++ [Byte "."] ++ last)%list
    /\ local <> [] /\ domain <> [] /\ last <> []
    /\ Forall (fun g => not_white_or_at g = true) local
    /\ Forall (fun g => not_white_or_at g = true) domain
    /\ Forall (fun g => not_white_or_at g = true) last.
Proof.
  unfold email_ok. rewrite RegexFacts.test_whole_Matches.
  apply emailRegex_Matches.
Qed.

Lemma filter_at_plain (l : list glyph) :
  Forall (fun g => not_white_or_at g = true) l ->
  List.filter (is_byte "@") l = [] /\ Forall (fun g => is_white g = false) l.
Proof.
  induction 1 as [| g l Hg _ [IH1 IH2]]; [split; constructor |].
  unfold not_white_or_at in Hg. apply andb_true_iff in Hg as [Hw Ha].
  apply negb_true_iff in Hw, Ha. simpl. rewrite Ha.
  split; [exact IH1 | constructor; assumption].
Qed.

(** X18. An address that the contact route accepts holds no white space
    and exactly one "@", and there is a "." somewhere after the "@". *)
Theorem email_ok_shape toString (s : string) :
  email_ok toString (VStr s) = true ->
  Forall (fun g => is_white g = false) (glyphs s)
  /\ length (List.filter (is_byte "@") (glyphs s)) = 1%nat
  /\ exists before after,
       glyphs s = (before ++ Byte "@" :: after)%list
       /\ In (Byte ".") after.
Proof.
  unfold email_ok. rewrite RegexFacts.test_whole_Matches. intros H.
  apply emailRegex_Matches in H
    as (local & domain & last & -> & _ & _ & _ & F1 & F2 & F3).
  apply filter_at_plain in F1 as [A1 W1].
  apply filter_at_plain in F2 as [A2 W2].
  apply filter_at_plain in F3 as [A3 W3].
  split; [| split].
  - repeat (apply Forall_app; split); auto; repeat constructor.
  - rewrite !List.filter_app, A1, A2, A3. reflexivity.
  - exists local, (domain ++ [Byte "."] ++ last)%list.
    split; [reflexivity |]. apply in_or_app. right. left. reflexivity.
Qed.

(** The address "ann@example.org". *)
Lemma email_ok_spec_witness :
  email_ok Demo.toString (VStr "ann@example.org") = true.
Proof.
  apply email_ok_spec.
  exists (glyphs "ann"), (glyphs "example"), (glyphs "org").
  split; [reflexivity |].
  repeat split; try discriminate; repeat constructor.
Defined.

Lemma email_ok_shape_witness :
  length (List.filter (is_byte "@") (glyphs "ann@example.org")) = 1%nat.
Proof.
  apply (email_ok_shape Demo.toString "ann@example.org"). reflexivity.
Defined.

(** X19. The contact route refuses a request in which the name, the
    address, the subject or the message is absent or empty with "All
    fields are required." and, with the four present, an address that
    fails the test with "Invalid email format.", both with status 400;
    nothing is saved or written to the console. *)
Theorem contact_rejects toString schema env body box :
  (truthy (field "name" body) = false
   \/ truthy (field "email" body) = false
   \/ truthy (field "subject" body) = false
   \/ truthy (field "message" body) = false ->
   contact toString schema env body box
   = (ReplyError 400 "All fields are required.", box))
  /\ (truthy (field "name" body) = true ->
      truthy (field "email" body) = true ->
      truthy (field "subject" body) = true ->
      truthy (field "message" body) = true ->
      email_ok toString (field "email" body) = false ->
      contact toString schema env body box
      = (ReplyError 400 "Invalid email format.", box)).
Proof.
  split.
  - intros H. unfold contact.
    destruct H as [-> | [-> | [-> | ->]]]; rewrite ?orb_true_r; reflexivity.
  - intros H1 H2 H3 H4 Hbad. unfold contact.
    rewrite H1, H2, H3, H4, Hbad. reflexivity.
Qed.

(** No subject; an address with two "@". *)
Lemma contact_rejects_witness :
  contact Demo.toString Demo.message_schema (Sample.env_at 1)
    (VObj [("name", VStr "Ann"); ("email", VStr "ann@example.org");
           ("message", VStr "Hello")]) Demo.inbox0
  = (ReplyError 400 "All fields are required.", Demo.inbox0)
  /\ contact Demo.toString Demo.message_schema (Sample.env_at 1)
       (Demo.contact_body "ann@@example.org") Demo.inbox0
     = (ReplyError 400 "Invalid email format.", Demo.inbox0).
Proof.
  split.
  - apply (contact_rejects Demo.toString Demo.message_schema
             (Sample.env_at 1)). right. right. left. reflexivity.
  - apply (contact_rejects Demo.toString Demo.message_schema
             (Sample.env_at 1)); reflexivity.
Defined.

(** X20. A contact request with the four fields present and an address of
    the accepted form is handed to the message model: when the model
    takes it, the document is stored under a new id and the answer is
    "Message received and saved!" (200); when the model refuses it,
    nothing is stored, the error goes to the console and the answer is
    "Failed to save message." (500). *)
Theorem contact_saves toString schema env body box s :
  truthy (field "name" body) = true ->
  field "email" body = VStr s ->
  truthy (field "subject" body) = true ->
  truthy (field "message" body) = true ->
  email_ok toString (VStr s) = true ->
  let data := VObj [("name", field "name" body); ("email", VStr s);
                    ("subject", field "subject" body);
                    ("message", field "message" body)] in
  (forall doc, schema data = inr doc ->
     contact toString schema env body box
     = (ReplyMessage 200 "Message received and saved!",
        {| inbox_messages := <[new_id env := doc]> (inbox_messages box);
           inbox_console := inbox_console box |}))
  /\ (forall text, schema data = inl text ->
        exists box',
          contact toString schema env body box
          = (ReplyError 500 "Failed to save message.", box')
          /\ inbox_messages box' = inbox_messages box
          /\ inbox_console box'
             = (inbox_console box ++ ["Error saving message:"])%list).
Proof.
  intros H1 He H3 H4 Hok data.
  assert (H2 : truthy (field "email" body) = true).
  { rewrite He. destruct s; [discriminate Hok | reflexivity]. }
  split.
  - intros doc Hdoc. unfold contact. rewrite H1, H2, H3, H4, He, Hok.
    simpl. subst data. rewrite Hdoc. reflexivity.
  - intros text Htext. unfold contact. rewrite H1, H2, H3, H4, He, Hok.
    simpl. subst data. rewrite Htext. eauto.
Qed.

(** A message from ann@example.org. *)
Lemma contact_saves_witness :
  fst (contact Demo.toString Demo.message_schema (Sample.env_at 1)
         (Demo.contact_body "ann@example.org") Demo.inbox0)
  = ReplyMessage 200 "Message received and saved!".
Proof.
  destruct (contact_saves Demo.toString Demo.message_schema (Sample.env_at 1)
              (Demo.contact_body "ann@example.org") Demo.inbox0
              "ann@example.org" eq_refl eq_refl eq_refl eq_refl eq_refl)
    as [H _].
  rewrite (H (Demo.contact_body "ann@example.org")); reflexivity.
Defined.

(** *** The upload filter *)

Lemma split_on_nonempty (sep : ascii) (s : list ascii) :
  split_on sep s <> [].
Proof.
  destruct s as [| c rest]; simpl; [discriminate |].
  destruct (Ascii.eqb c sep); [discriminate |].
  destruct (split_on sep rest); discriminate.
Qed.

(** The pieces of a text cut at a separator are those of what precedes
    the separator, then those of what follows it. *)
Lemma split_on_app (sep : ascii) (pre rest : list ascii) :
  split_on sep (pre ++ sep :: rest)
  = (split_on sep pre ++ split_on sep rest)%list.
Proof.
  induction pre as [| c p IH]; simpl.
  - rewrite Ascii.eqb_refl. reflexivity.
  - destruct (Ascii.eqb c sep); [rewrite IH; reflexivity |].
    rewrite IH. pose proof (split_on_nonempty sep p) as Hne.
    destruct (split_on sep p); [congruence | reflexivity].
Qed.

Lemma split_on_none (sep : ascii) (s : list ascii) :
  ~ In sep s -> split_on sep s = [s].
Proof.
  induction s as [| c rest IH]; simpl; [reflexivity |].
  intros Hnot. destruct (Ascii.eqb c sep) eqn:E.
  - apply Ascii.eqb_eq in E. tauto.
  - rewrite IH by tauto. reflexivity.
Qed.

Lemma pop_app (l1 l2 : list (list ascii)) :
  l2 <> [] -> pop (l1 ++ l2) = pop l2.
Proof.
  intros Hne. unfold pop. induction l1 as [| x l1 IH]; [reflexivity |].
  simpl. rewrite IH. destruct (l1 ++ l2)%list eqn:E; [| reflexivity].
  apply app_eq_nil in E as [_ ->]. congruence.
Qed.

(** What follows the last dot is the last piece. *)
Lemma pop_split_dot (pre ext : list ascii) :
  ~ In "."%char ext -> pop (split_on "." (pre ++ "."%char :: ext)) = ext.
Proof.
  intros Hnot. rewrite split_on_app, pop_app by apply split_on_nonempty.
  rewrite split_on_none by exact Hnot. reflexivity.
Qed.

(** One step of lower-casing. *)
Lemma toLowerCase_step (c1 : ascii) (r1 : list ascii) :
  toLowerCase (c1 :: r1) =
    match wide_capital (c1 :: r1) with
    | 2%nat => "i"%char :: ascii_of_nat 204 :: ascii_of_nat 135
                 :: toLowerCase (drop 2 (c1 :: r1))
    | 3%nat => "k"%char :: toLowerCase (drop 3 (c1 :: r1))
    | _ => ascii_lower c1 :: toLowerCase r1
    end.
Proof.
  destruct r1 as [| c2 [| c3 r3]]; simpl; [reflexivity | |].
  - destruct ((nat_of_ascii c1 =? 196)%nat && (nat_of_ascii c2 =? 176)%nat);
      reflexivity.
  - destruct ((nat_of_ascii c1 =? 196)%nat && (nat_of_ascii c2 =? 176)%nat);
      [reflexivity |].
    destruct ((nat_of_ascii c1 =? 226)%nat && (nat_of_ascii c2 =? 132)%nat
              && (nat_of_ascii c3 =? 170)%nat); reflexivity.
Qed.

Lemma wide_capital_app_dot (c1 : ascii) (r1 ext : list ascii) :
  wide_capital ((c1 :: r1) ++ "."%char :: ext) = wide_capital (c1 :: r1).
Proof.
  destruct r1 as [| c2 [| c3 r3]]; simpl.
  - rewrite andb_false_r. destruct ext; [reflexivity |].
    rewrite andb_false_r. reflexivity.
  - destruct ((nat_of_ascii c1 =? 196)%nat && (nat_of_ascii c2 =? 176)%nat);
      [reflexivity |].
    rewrite andb_false_r. reflexivity.
  - reflexivity.
Qed.

Lemma wide_capital_length (s : list ascii) :
  (wide_capital s <= length s)%nat /\ (wide_capital s <= 3)%nat.
Proof.
  destruct s as [| c1 [| c2 [| c3 r3]]]; simpl; try lia.
  - destruct (_ && _); simpl; lia.
  - destruct (_ && _); simpl; [lia |]. destruct (_ && _); simpl; lia.
Qed.

Lemma toLowerCase_dot (ext : list ascii) :
  toLowerCase ("."%char :: ext) = "."%char :: toLowerCase ext.
Proof. destruct ext as [| c2 [| c3 r3]]; reflexivity. Qed.

(** Lower case does not reach across a dot. *)
Lemma toLowerCase_app_dot (base ext : list ascii) :
  toLowerCase (base ++ "."%char :: ext)
  = (toLowerCase base ++ "."%char :: toLowerCase ext)%list.
Proof.
  remember (length base) as n eqn:Hn.
  assert (Hle : (length base <= n)%nat) by lia. clear Hn.
  revert base Hle. induction n as [| n IH]; intros base Hle.
  - destruct base; [apply toLowerCase_dot | simpl in Hle; lia].
  - destruct base as [| c1 r1]; [apply toLowerCase_dot |].
    change (((c1 :: r1) ++ "."%char :: ext)%list)
      with (c1 :: (r1 ++ "."%char :: ext)%list).
    rewrite (toLowerCase_step c1 (r1 ++ "."%char :: ext)).
    rewrite (toLowerCase_step c1 r1).
    change (c1 :: (r1 ++ "."%char :: ext)%list)
      with (((c1 :: r1) ++ "."%char :: ext)%list).
    rewrite wide_capital_app_dot.
    pose proof (wide_capital_length (c1 :: r1)) as [Hlen _].
    simpl in Hle.
    destruct (wide_capital (c1 :: r1)) as [| [| [| [| k]]]] eqn:Hw.
    + simpl. rewrite IH by lia. reflexivity.
    + simpl. rewrite IH by lia. reflexivity.
    + rewrite drop_app_le by exact Hlen. rewrite IH.
      * reflexivity.
      * rewrite length_drop. simpl. lia.
    + rewrite drop_app_le by exact Hlen. rewrite IH.
      * reflexivity.
      * rewrite length_drop. simpl. lia.
    + simpl. rewrite IH by lia. reflexivity.
Qed.

(** On ASCII text lower case goes byte by byte. *)
Lemma toLowerCase_ascii (s : list ascii) :
  Forall (fun c => (nat_of_ascii c < 128)%nat) s ->
  toLowerCase s = map ascii_lower s.
Proof.
  induction 1 as [| c1 r1 H1 Hr IH]; [reflexivity |].
  cbn [toLowerCase map]. rewrite <- IH.
  assert (E1 : (nat_of_ascii c1 =? 196)%nat = false)
    by (apply Nat.eqb_neq; lia).
  assert (E2 : (nat_of_ascii c1 =? 226)%nat = false)
    by (apply Nat.eqb_neq; lia).
  rewrite E1, E2. simpl andb.
  destruct r1 as [| c2 [| c3 r3]]; reflexivity.
Qed.

Lemma list_ascii_app (a b : string) :
  list_ascii_of_string (a ++ b)
  = (list_ascii_of_string a ++ list_ascii_of_string b)%list.
Proof. induction a as [| c a IH]; simpl; [reflexivity | rewrite IH; reflexivity]. Qed.

(** What the test against the nine words says of a list of bytes. *)
Lemma allowedTypes_test (l : list ascii) :
  Regex.test allowedTypes l = true <->
  exists w before after,
    In w allowedTypes_words
    /\ l = (before ++ list_ascii_of_string w ++ after)%list.
Proof.
  rewrite RegexFacts.test_Matches. split.
  - intros (pre & mid & post & Heq & Hmid).
    apply RegexFacts.Matches_OneOf in Hmid as (w & Hin & ->). eauto.
  - intros (w & pre & post & Hin & Heq).
    exists pre, (list_ascii_of_string w), post.
    split; [exact Heq |]. apply RegexFacts.Matches_OneOf. eauto.
Qed.

(** X21. The upload filter accepts a file exactly when the part of its
    lower-cased name after the last dot (the whole name when it has no
    dot) contains one of jpeg, jpg, png, gif, mp4, mov, avi, mkv, webm;
    it refuses every other file with "Unsupported file type" (400), among
    them every file whose name ends in fewer than three characters after
    the last dot. *)
Theorem fileFilter_spec (originalname : string) :
  (fileFilter originalname = inr true <->
   exists w before after,
     In w allowedTypes_words
     /\ extension originalname
        = (before ++ list_ascii_of_string w ++ after)%list)
  /\ (fileFilter originalname <> inr true ->
      fileFilter originalname
      = inl {| message := "Unsupported file type"; statusCode := 400 |})
  /\ ((length (extension originalname) < 3)%nat ->
      fileFilter originalname <> inr true).
Proof.
  assert (Hiff : fileFilter originalname = inr true <->
    exists w before after,
      In w allowedTypes_words
      /\ extension originalname
         = (before ++ list_ascii_of_string w ++ after)%list).
  { rewrite <- allowedTypes_test. unfold fileFilter.
    destruct (Regex.test allowedTypes (extension originalname));
      split; congruence. }
  split; [exact Hiff |]. split.
  - unfold fileFilter.
    destruct (Regex.test allowedTypes (extension originalname));
      [congruence | reflexivity].
  - intros Hlen Hacc. apply Hiff in Hacc as (w & pre & post & Hin & Heq).
    rewrite Heq, !length_app in Hlen.
    assert (3 <= length (list_ascii_of_string w))%nat; [| lia].
    simpl in Hin.
    repeat (destruct Hin as [<- | Hin]; [simpl; lia |]). destruct Hin.
Qed.

(** "holiday.JPEG" is accepted, and so is "notes.pngx"; "notes.txt" is
    not. *)
Lemma fileFilter_spec_witness :
  fileFilter "holiday.JPEG" = inr true
  /\ fileFilter "notes.pngx" = inr true
  /\ fileFilter "notes.txt"
     = inl {| message := "Unsupported file type"; statusCode := 400 |}.
Proof.
  split; [| split].
  - apply (proj1 (fileFilter_spec "holiday.JPEG")).
    exists "jpeg", [], []. split; [simpl; auto | reflexivity].
  - apply (proj1 (fileFilter_spec "notes.pngx")).
    exists "png", [], (list_ascii_of_string "x").
    split; [simpl; auto | reflexivity].
  - apply (proj1 (proj2 (fileFilter_spec "notes.txt"))). discriminate.
Defined.

(** X22. Whatever precedes it, a last dot followed by one of the nine
    words, in any mix of ASCII capitals and small letters, makes the
    upload filter accept the name. *)
Theorem fileFilter_extension (base ext : string) (w : string) :
  In w allowedTypes_words ->
  Forall (fun c => (nat_of_ascii c < 128)%nat) (list_ascii_of_string ext) ->
  map ascii_lower (list_ascii_of_string ext) = list_ascii_of_string w ->
  fileFilter (base ++ "." ++ ext) = inr true.
Proof.
  intros Hin Hascii Hlow.
  assert (Htest : Regex.test allowedTypes (extension (base ++ "." ++ ext))
                  = true); [| unfold fileFilter; rewrite Htest; reflexivity].
  apply allowedTypes_test.
  exists w, [], []. split; [exact Hin |].
  unfold extension. rewrite !list_ascii_app.
  change (list_ascii_of_string ".") with ["."%char]. cbn [app].
  rewrite toLowerCase_app_dot, (toLowerCase_ascii _ Hascii), Hlow.
  rewrite pop_split_dot; [rewrite app_nil_r; reflexivity |].
  simpl in Hin.
  repeat (destruct Hin as [<- | Hin];
          [simpl; intros H; repeat (destruct H as [H | H]; [discriminate |]);
           exact H |]).
  destruct Hin.
Qed.

(** "My.Holiday.Mp4" *)
Lemma fileFilter_extension_witness :
  fileFilter ("My.Holiday" ++ "." ++ "Mp4") = inr true.
Proof.
  apply (fileFilter_extension "My.Holiday" "Mp4" "mp4").
  - simpl. auto 10.
  - repeat constructor; simpl; lia.
  - reflexivity.
Defined.

(** *** The tags of an event *)

Section Strip.

Variable sp1 : ascii -> bool.
Variable sp2 : ascii -> ascii -> bool.
Variable sp3 : ascii -> ascii -> ascii -> bool.

Local Abbreviation strip' := (strip sp1 sp2 sp3).
Local Abbreviation lead := (white_prefix sp1 sp2 sp3).

Lemma strip_step (s : list ascii) :
  strip' s = match lead s with
             | O => s
             | n => strip' (drop n s)
             end.
Proof.
  destruct s as [| c1 [| c2 [| c3 r3]]]; simpl; [reflexivity | | |].
  - destruct (sp1 c1); reflexivity.
  - destruct (sp1 c1); [reflexivity |]. destruct (sp2 c1 c2); reflexivity.
  - destruct (sp1 c1); [reflexivity |]. destruct (sp2 c1 c2); [reflexivity |].
    destruct (sp3 c1 c2 c3); reflexivity.
Qed.

Lemma lead_length (s : list ascii) : (lead s <= length s)%nat.
Proof.
  destruct s as [| c1 [| c2 [| c3 r3]]]; simpl; try lia.
  - destruct (sp1 c1); simpl; lia.
  - destruct (sp1 c1); [simpl; lia |]. destruct (sp2 c1 c2); simpl; lia.
  - destruct (sp1 c1); [simpl; lia |]. destruct (sp2 c1 c2); [simpl; lia |].
    destruct (sp3 c1 c2 c3); simpl; lia.
Qed.

(** What is left starts with no white space, and is the end of the
    list. *)
Lemma strip_spec (s : list ascii) :
  lead (strip' s) = 0%nat /\ exists k, strip' s = drop k s.
Proof.
  remember (length s) as n eqn:Hn.
  assert (Hle : (length s <= n)%nat) by lia. clear Hn.
  revert s Hle. induction n as [| n IH]; intros s Hle.
  - destruct s; [| simpl in Hle; lia].
    split; [reflexivity | exists 0%nat; reflexivity].
  - rewrite strip_step. destruct (lead s) as [| m] eqn:Hlead.
    + split; [exact Hlead | exists 0%nat; reflexivity].
    + pose proof (lead_length s) as Hlen. rewrite Hlead in Hlen.
      destruct (IH (drop (S m) s)) as [H0 [k Hk]].
      { rewrite length_drop. lia. }
      split; [exact H0 |]. exists (S m + k)%nat.
      rewrite Hk, drop_drop. reflexivity.
Qed.

Lemma strip_clean (s : list ascii) : lead s = 0%nat -> strip' s = s.
Proof. intros H. rewrite strip_step, H. reflexivity. Qed.

Lemma strip_twice (s : list ascii) : strip' (strip' s) = strip' s.
Proof. apply strip_clean. apply strip_spec. Qed.

(** A list that starts with no white space has no beginning that starts
    with white space. *)
Lemma lead_take (s : list ascii) (n : nat) :
  lead s = 0%nat -> lead (take n s) = 0%nat.
Proof.
  destruct s as [| c1 [| c2 [| c3 r3]]];
    destruct n as [| [| [| n]]]; simpl; try reflexivity;
    destruct (sp1 c1); try discriminate; try reflexivity;
    destruct (sp2 c1 c2); try discriminate; try reflexivity;
    destruct (sp3 c1 c2 c3); try discriminate; reflexivity.
Qed.

End Strip.

Lemma trimStart_twice (s : list ascii) : trimStart (trimStart s) = trimStart s.
Proof. apply strip_twice. Qed.

Lemma trimEnd_take (s : list ascii) : exists n, trimEnd s = take n s.
Proof.
  unfold trimEnd.
  destruct (strip_spec is_space (fun c2 c1 => is_space2 c1 c2)
              (fun c3 c2 c1 => is_space3 c1 c2 c3) (rev s)) as [_ [k Hk]].
  rewrite Hk. exists (length s - k)%nat.
  change (drop k (rev s)) with (skipn k (rev s)).
  rewrite skipn_rev, rev_involutive. reflexivity.
Qed.

Lemma trimEnd_twice (s : list ascii) : trimEnd (trimEnd s) = trimEnd s.
Proof.
  unfold trimEnd. rewrite rev_involutive, strip_twice. reflexivity.
Qed.

(** Trimming what has been trimmed changes nothing. *)
Lemma trim_twice (s : list ascii) : trim (trim s) = trim s.
Proof.
  unfold trim.
  assert (Hstart : trimStart (trimEnd (trimStart s)) = trimEnd (trimStart s)).
  { destruct (trimEnd_take (trimStart s)) as [n ->].
    apply strip_clean. apply lead_take. apply strip_spec. }
  rewrite Hstart. apply trimEnd_twice.
Qed.

(** Trimming only takes bytes away. *)
Lemma trim_In (c : ascii) (s : list ascii) : In c (trim s) -> In c s.
Proof.
  unfold trim. destruct (trimEnd_take (trimStart s)) as [n ->].
  unfold trimStart.
  destruct (strip_spec is_space is_space2 is_space3 s) as [_ [k ->]].
  intros H.
  rewrite <- (firstn_skipn k s). apply in_or_app. right.
  rewrite <- (firstn_skipn n (skipn k s)). apply in_or_app. left. exact H.
Qed.

Lemma split_on_pieces (sep : ascii) (s : list ascii) :
  Forall (fun piece => ~ In sep piece) (split_on sep s).
Proof.
  induction s as [| c rest IH]; simpl; [repeat constructor; auto |].
  destruct (Ascii.eqb c sep) eqn:E; [constructor; auto |].
  apply Ascii.eqb_neq in E.
  destruct (split_on sep rest) as [| piece pieces];
    [repeat constructor; simpl; intuition congruence |].
  apply Forall_cons in IH as [Hp Hps].
  constructor; [| exact Hps]. simpl. intuition congruence.
Qed.

(** X23. The tags that create-event makes of a string: each is a piece of
    the string between commas with the white space at both ends removed;
    none is empty, none holds a comma, and none begins or ends with white
    space (trimming it again changes nothing). *)
Theorem tagsArray_of_clean (s : string) (v : value) :
  In v (tagsArray_of (VStr s)) ->
  exists piece tag,
    In piece (split_on "," (list_ascii_of_string s))
    /\ tag = trim piece
    /\ v = VStr (string_of_list_ascii tag)
    /\ tag <> [] /\ ~ In ","%char tag /\ trim tag = tag.
Proof.
  unfold tagsArray_of, clean_tags. intros H.
  apply in_map_iff in H as (tag & <- & H).
  apply List.filter_In in H as [H Hne].
  apply in_map_iff in H as (piece & <- & Hpiece).
  exists piece, (trim piece). split; [exact Hpiece |].
  split; [reflexivity |]. split; [reflexivity |].
  split; [destruct (trim piece); [discriminate | discriminate] |].
  split; [| apply trim_twice].
  intros Hin. apply trim_In in Hin.
  pose proof (split_on_pieces "," (list_ascii_of_string s)) as Hall.
  rewrite Forall_forall in Hall. apply list_elem_of_In in Hpiece.
  exact (Hall piece Hpiece Hin).
Qed.

(** The tags of " sale , , open day,". *)
Lemma tagsArray_of_clean_witness :
  tagsArray_of (VStr " sale , , open day,") = [VStr "sale"; VStr "open day"]
  /\ exists piece tag,
       In piece (split_on "," (list_ascii_of_string " sale , , open day,"))
       /\ tag = trim piece
       /\ VStr "open day" = VStr (string_of_list_ascii tag)
       /\ tag <> [] /\ ~ In ","%char tag /\ trim tag = tag.
Proof.
  split; [reflexivity |].
  apply (tagsArray_of_clean " sale , , open day," (VStr "open day")).
  right. left. reflexivity.
Defined.

(** *** Creating an event *)

(** The upload loop of create-event when every upload succeeds. *)
Lemma upload_event_images_all (env : Env) (l : list value) :
  forall (i : nat) (acc links : list value) (w : World),
    links_of env i l = Some links ->
    exists w',
      upload_event_images env i l acc w = (Val (acc ++ links)%list, w')
      /\ same_db w w'
      /\ uploaded (trace w')
         = (uploaded (trace w) ++ map (fun img => (img, "events")) l)%list
      /\ destroyed (trace w') = destroyed (trace w).
Proof.
  induction l as [| image rest IH]; intros i acc links w; simpl.
  - intros [= <-]. exists w. unfold ret, same_db.
    rewrite !app_nil_r. auto 10.
  - destruct (upload_result env i image) as [result |] eqn:Hup;
      [| discriminate].
    destruct (links_of env (S i) rest) as [links' |] eqn:Hrest;
      [| discriminate].
    intros [= <-].
    destruct (IH (S i) (acc ++ [link_value result.1 result.2])%list links'
                (log (CloudUpload image "events") w) Hrest)
      as (w' & Hrun & Hdb & Hup' & Hde).
    exists w'. split; [| split; [exact Hdb | split]].
    + unfold bind at 1, cloud_upload, bind, call, ret.
      rewrite Hup. simpl. rewrite Hrun, <- app_assoc. reflexivity.
    + rewrite Hup', uploaded_log, <- app_assoc. reflexivity.
    + rewrite Hde, destroyed_log, app_nil_r. reflexivity.
Qed.

(** The loop up to the first upload that fails: the error is not caught. *)
Lemma upload_event_images_prefix (env : Env) (l : list value) :
  forall (j i : nat) (acc links : list value) (w : World) image,
    links_of env i (take j l) = Some links ->
    l !! j = Some image ->
    upload_result env (i + j) image = None ->
    exists w',
      upload_event_images env i l acc w = (Raise "upload failed", w')
      /\ same_db w w'
      /\ uploaded (trace w')
         = (uploaded (trace w)
            ++ map (fun img => (img, "events")) (take (S j) l))%list
      /\ destroyed (trace w') = destroyed (trace w).
Proof.
  induction l as [| x rest IH]; intros j i acc links w image;
    [intros _ H; discriminate |].
  destruct j as [| j]; simpl.
  - intros _ [= ->] Hnone. rewrite Nat.add_0_r in Hnone.
    exists (log (CloudUpload image "events") w).
    split; [| split; [| split]].
    + unfold bind at 1, cloud_upload, bind, call, raise.
      rewrite Hnone. reflexivity.
    + unfold same_db. simpl. auto 10.
    + rewrite uploaded_log. reflexivity.
    + rewrite destroyed_log, app_nil_r. reflexivity.
  - destruct (upload_result env i x) as [result |] eqn:Hup; [| discriminate].
    destruct (links_of env (S i) (take j rest)) as [links' |] eqn:Hrest;
      [| discriminate].
    intros _ Hj Hnone.
    destruct (IH j (S i) (acc ++ [link_value result.1 result.2])%list links'
                (log (CloudUpload x "events") w) image Hrest Hj)
      as (w' & Hrun & Hdb & Hup' & Hde).
    { rewrite <- Hnone. f_equal. lia. }
    exists w'. split; [| split; [exact Hdb | split]].
    + unfold bind at 1, cloud_upload, bind, call, ret.
      rewrite Hup. simpl. exact Hrun.
    + rewrite Hup', uploaded_log, <- app_assoc. reflexivity.
    + rewrite Hde, destroyed_log, app_nil_r. reflexivity.
Qed.

(** The request of create-event up to the uploads, for the id of an
    existing shop and images that are a string or an array. *)
Lemma create_event_checked cast toNumber newDate schema env body w ks shop :
  truthy (field "shopId" body) = true ->
  cast (field "shopId" body) = Some ks ->
  shops w !! ks = Some shop ->
  string_or_array (field "images" body) = true ->
  event_route (create_event cast toNumber newDate schema env body) w
  = event_route
      (let* imagesLinks :=
         upload_event_images env 0 (imagesArray_of (field "images" body)) [] in
       Event_create schema env
         (eventData_of toNumber newDate body ks shop imagesLinks))
      (log (DbFind "Shop" (field "shopId" body)) w).
Proof.
  intros Hshop Hks Hlook Himg.
  unfold event_route, create_event, findById. rewrite Hshop. simpl negb.
  cbv iota. unfold bind at 1 2 3, call, read. rewrite Hks. simpl.
  rewrite Hlook. simpl.
  destruct (field "images" body); try discriminate; reflexivity.
Qed.

(** X24. The checks of create-event come before any upload: without a
    shop id the answer is "Shop ID is required." before any call; for an
    id that names no shop it is "Invalid Shop ID.", and for images that
    are neither a string nor an array "Images must be a string or array.",
    after the one lookup; all with status 400, and nothing is uploaded or
    stored. *)
Theorem create_event_checks cast toNumber newDate schema env body w :
  (truthy (field "shopId" body) = false ->
   event_route (create_event cast toNumber newDate schema env body) w
   = (EventFailed (fail "Shop ID is required." 400), w))
  /\ (forall ks, truthy (field "shopId" body) = true ->
      cast (field "shopId" body) = Some ks ->
      shops w !! ks = None ->
      event_route (create_event cast toNumber newDate schema env body) w
      = (EventFailed (fail "Invalid Shop ID." 400),
         log (DbFind "Shop" (field "shopId" body)) w))
  /\ (forall ks shop, truthy (field "shopId" body) = true ->
      cast (field "shopId" body) = Some ks ->
      shops w !! ks = Some shop ->
      string_or_array (field "images" body) = false ->
      event_route (create_event cast toNumber newDate schema env body) w
      = (EventFailed (fail "Images must be a string or array." 400),
         log (DbFind "Shop" (field "shopId" body)) w)).
Proof.
  split; [| split].
  - intros Hf. unfold event_route, create_event, exit. rewrite Hf.
    reflexivity.
  - intros ks Hshop Hks Hnone.
    unfold event_route, create_event, findById. rewrite Hshop. simpl negb.
    cbv iota. unfold bind, call, read, exit. rewrite Hks. simpl.
    rewrite Hnone. reflexivity.
  - intros ks shop Hshop Hks Hlook Himg.
    unfold event_route, create_event, findById. rewrite Hshop. simpl negb.
    cbv iota. unfold bind at 1 2 3, call, read. rewrite Hks. simpl.
    rewrite Hlook. simpl.
    destruct (field "images" body); try discriminate; reflexivity.
Qed.

(** An event without images for the sample shop, and one for a shop that
    does not exist. *)
Lemma create_event_checks_witness :
  event_route (create_event Sample.castId Demo.toNumber Demo.newDate
                 Demo.event_schema (Sample.env_at 1)
                 (VObj [("name", VStr "Open day");
                        ("shopId", VStr Sample.shop_id)])) Demo.world1
  = (EventFailed (fail "Images must be a string or array." 400),
     log (DbFind "Shop" (VStr Sample.shop_id)) Demo.world1)
  /\ fst (event_route (create_event Sample.castId Demo.toNumber Demo.newDate
                         Demo.event_schema (Sample.env_at 1)
                         (VObj [("shopId", VStr Sample.product_id);
                                ("images", VStr "a")])) Demo.world1)
     = EventFailed (fail "Invalid Shop ID." 400).
Proof.
  split.
  - pose (body := VObj [("name", VStr "Open day");
                        ("shopId", VStr Sample.shop_id)]).
    destruct (create_event_checks Sample.castId Demo.toNumber Demo.newDate
                Demo.event_schema (Sample.env_at 1) body Demo.world1)
      as (_ & _ & H).
    fold body.
    rewrite (H Sample.shop_id
               (VObj [("name", VStr "Shop");
                      ("seller", VStr Demo.seller_id)])); reflexivity.
  - pose (body := VObj [("shopId", VStr Sample.product_id);
                        ("images", VStr "a")]).
    destruct (create_event_checks Sample.castId Demo.toNumber Demo.newDate
                Demo.event_schema (Sample.env_at 1) body Demo.world1)
      as (_ & H & _).
    fold body. rewrite (H Sample.product_id); reflexivity.
Defined.

(** X25. In create-event nothing catches a failed upload: with the
    uploads before image [j] successful and that of image [j] failing, the
    error leaves the handler (no answer with a status of its own, where
    create-product answers 500), no event is stored, and the images up to
    and including [j] have been handed to the media service for the
    folder "events", in order, and are not deleted again. *)
Theorem create_event_upload_fails cast toNumber newDate schema env body w
  ks shop j image links :
  truthy (field "shopId" body) = true ->
  cast (field "shopId" body) = Some ks ->
  shops w !! ks = Some shop ->
  string_or_array (field "images" body) = true ->
  links_of env 0 (take j (imagesArray_of (field "images" body)))
  = Some links ->
  imagesArray_of (field "images" body) !! j = Some image ->
  upload_result env j image = None ->
  let r := event_route (create_event cast toNumber newDate schema env body) w
  in
  fst r = EventFailed (Rejected "upload failed")
  /\ same_db w (snd r)
  /\ uploaded (trace (snd r))
     = (uploaded (trace w)
        ++ map (fun img => (img, "events"))
             (take (S j) (imagesArray_of (field "images" body))))%list
  /\ destroyed (trace (snd r)) = destroyed (trace w).
Proof.
  intros Hshop Hks Hlook Himg Hlinks Hj Hnone r.
  destruct (upload_event_images_prefix env
              (imagesArray_of (field "images" body)) j 0%nat [] links
              (log (DbFind "Shop" (field "shopId" body)) w) image
              Hlinks Hj Hnone) as (w' & Hrun & Hdb & Hup & Hde).
  assert (Hres : r = (EventFailed (Rejected "upload failed"), w')).
  { subst r.
    rewrite (create_event_checked cast toNumber newDate schema env body w
               ks shop) by assumption.
    unfold event_route, bind at 1. rewrite Hrun. reflexivity. }
  rewrite Hres. cbn [fst snd]. split; [reflexivity |].
  split; [exact Hdb |].
  rewrite Hup, Hde, uploaded_log, destroyed_log, !app_nil_r. auto.
Qed.

(** Three images, the second upload failing: the third is not tried. *)
Lemma create_event_upload_fails_witness :
  let body :=
    VObj [("name", VStr "Open day"); ("shopId", VStr Sample.shop_id);
          ("images", VArr [VStr "a"; VStr "b"; VStr "c"])] in
  let r := event_route (create_event Sample.castId Demo.toNumber Demo.newDate
                          Demo.event_schema Sample.env_second_fails body)
             Demo.world1 in
  fst r = EventFailed (Rejected "upload failed")
  /\ events (snd r) = events Demo.world1
  /\ uploaded (trace (snd r)) = [(VStr "a", "events"); (VStr "b", "events")].
Proof.
  intros body r.
  destruct (create_event_upload_fails Sample.castId Demo.toNumber
              Demo.newDate Demo.event_schema Sample.env_second_fails body
              Demo.world1 Sample.shop_id
              (VObj [("name", VStr "Shop"); ("seller", VStr Demo.seller_id)])
              1%nat (VStr "b")
              [link_value "products/new" "http://x/new.png"])
    as (H1 & (_ & _ & _ & H2 & _) & H3 & _); try reflexivity.
  auto.
Defined.

(** X26. A request for a new event with the id of an existing shop whose
    uploads all succeed: every image has been uploaded to the folder
    "events", once and in order, before the schema sees the data.  When
    the schema accepts them the event it built is stored under the new id
    and returned; when it refuses them its error leaves the handler, no
    event is stored, and the uploaded images are left with the media
    service. *)
Theorem create_event_created cast toNumber newDate schema env body w
  ks shop links :
  truthy (field "shopId" body) = true ->
  cast (field "shopId" body) = Some ks ->
  shops w !! ks = Some shop ->
  string_or_array (field "images" body) = true ->
  links_of env 0 (imagesArray_of (field "images" body)) = Some links ->
  let r := event_route (create_event cast toNumber newDate schema env body) w
  in
  uploaded (trace (snd r))
  = (uploaded (trace w)
     ++ map (fun img => (img, "events"))
          (imagesArray_of (field "images" body)))%list
  /\ destroyed (trace (snd r)) = destroyed (trace w)
  /\ match schema (eventData_of toNumber newDate body ks shop links) with
     | inr event =>
         fst r = EventCreated (new_id env) event
         /\ events (snd r) = <[new_id env := event]> (events w)
     | inl text =>
         fst r = EventFailed (Rejected text) /\ same_db w (snd r)
     end.
Proof.
  intros Hshop Hks Hlook Himg Hlinks r.
  destruct (upload_event_images_all env
              (imagesArray_of (field "images" body)) 0%nat [] links
              (log (DbFind "Shop" (field "shopId" body)) w) Hlinks)
    as (w' & Hrun & Hdb & Hup & Hde).
  assert (Hres :
    r = match schema (eventData_of toNumber newDate body ks shop links) with
        | inr event =>
            (EventCreated (new_id env) event,
             set_events <[new_id env := event]>
               (log (DbCreate "Event" (new_id env)) w'))
        | inl text => (EventFailed (Rejected text), w')
        end).
  { subst r.
    rewrite (create_event_checked cast toNumber newDate schema env body w
               ks shop) by assumption.
    unfold event_route, bind at 1. rewrite Hrun. simpl app.
    unfold Event_create.
    destruct (schema (eventData_of toNumber newDate body ks shop links));
      reflexivity. }
  rewrite Hres.
  destruct (schema (eventData_of toNumber newDate body ks shop links))
    as [text | event]; cbn [fst snd].
  - rewrite Hup, Hde, uploaded_log, destroyed_log, !app_nil_r.
    split; [reflexivity |]. split; [reflexivity |]. split; [reflexivity |].
    exact Hdb.
  - change (trace (set_events <[new_id env := event]>
                     (log (DbCreate "Event" (new_id env)) w')))
      with (trace (log (DbCreate "Event" (new_id env)) w')).
    rewrite !uploaded_log, !destroyed_log, Hup, Hde, uploaded_log,
      destroyed_log, !app_nil_r.
    split; [reflexivity |]. split; [reflexivity |]. split; [reflexivity |].
    destruct Hdb as (_ & _ & _ & Hev & _). simpl. rewrite Hev. reflexivity.
Qed.

(** Two images for the sample shop. *)
Lemma create_event_created_witness :
  let body :=
    VObj [("name", VStr "Open day"); ("description", VStr "Doors open");
          ("startDate", VNum 1700000000000); ("endDate", VNum 1700086400000);
          ("shopId", VStr Sample.shop_id);
          ("images", VArr [VStr "a"; VStr "b"])]
  in
  let r := event_route (create_event Sample.castId Demo.toNumber Demo.newDate
                          Demo.event_schema (Sample.env_at 1) body)
             Demo.world1 in
  uploaded (trace (snd r)) = [(VStr "a", "events"); (VStr "b", "events")]
  /\ exists event,
       fst r = EventCreated (new_id (Sample.env_at 1)) event
       /\ events (snd r) !! new_id (Sample.env_at 1) = Some event
       /\ field "name" (event_doc event) = VStr "Open day"
       /\ length (event_images event) = 2%nat.
Proof.
  intros body r.
  destruct (create_event_created Sample.castId Demo.toNumber Demo.newDate
              Demo.event_schema (Sample.env_at 1) body Demo.world1
              Sample.shop_id
              (VObj [("name", VStr "Shop"); ("seller", VStr Demo.seller_id)])
              [link_value "products/new" "http://x/new.png";
               link_value "products/new" "http://x/new.png"]
              eq_refl eq_refl eq_refl eq_refl eq_refl)
    as (H1 & _ & H3).
  split; [exact H1 |].
  destruct H3 as [H3 H4]. eexists. split; [exact H3 |].
  split; [unfold r; rewrite H4; apply lookup_insert_eq |].
  split; reflexivity.
Defined.

(** *** Deleting an event, with the owner checked *)

(** X27. The route that checks the owner deletes an event only for the
    seller of its shop.  For another user, or when the shop has no seller,
    the answer is 403 after the two lookups: nothing is handed to the
    media service and the event stays.  For the seller every image of the
    event is handed to the media service for deletion, in order and
    whichever of these deletions fail, the event is removed and the answer
    is 200. *)
Theorem delete_own_shop_event_owner cast seller_of env u (id k ks : string)
  (w : World) event shop_id shop :
  cast (VStr id) = Some k ->
  events w !! k = Some event ->
  prop "_id" (field "shop" (event_doc event)) = Some shop_id ->
  cast shop_id = Some ks ->
  shops w !! ks = Some shop ->
  let r := route (delete_own_shop_event cast seller_of env u id) w in
  if decide (seller_of shop = Some u)
  then fst r = Json 200 (Message "Event deleted successfully!")
       /\ events (snd r) = delete k (events w)
       /\ destroyed (trace (snd r))
          = (destroyed (trace w) ++ map public_id (event_images event))%list
  else r = (fail "Unauthorized: You can't delete this event." 403,
            log (DbFind "Shop" shop_id) (log (DbFind "Event" (VStr id)) w)).
Proof.
  intros Hk Hev Hid Hks Hshop r.
  assert (Hstart :
    r = route
          (if negb match seller_of shop with
                   | Some seller => String.eqb seller u
                   | None => false
                   end
           then exit (fail "Unauthorized: You can't delete this event." 403)
           else
             destroy_images env "Cloudinary deletion failed:" 0
               (event_images event);;
             call (DbRemove "Event" k);;
             update (set_events (delete k));;
             ret (Json 200 (Message "Event deleted successfully!")))
          (log (DbFind "Shop" shop_id) (log (DbFind "Event" (VStr id)) w))).
  { subst r. unfold route at 1, delete_own_shop_event, findById.
    unfold bind at 1 2, call at 1, read. rewrite Hk. simpl.
    rewrite Hev. simpl. rewrite Hid.
    unfold bind at 1 2, call at 1, read. rewrite Hks. simpl.
    rewrite Hshop. simpl. reflexivity. }
  rewrite Hstart. clear Hstart r.
  destruct (decide (seller_of shop = Some u)) as [Hown | Hother].
  - rewrite Hown, String.eqb_refl. simpl negb. cbv iota.
    destruct (destroy_images_all env "Cloudinary deletion failed:"
                (event_images event) 0%nat
                (log (DbFind "Shop" shop_id)
                   (log (DbFind "Event" (VStr id)) w)))
      as (w1 & Hrun & Hdb & Htr).
    assert (Hres :
      route
        (destroy_images env "Cloudinary deletion failed:" 0
           (event_images event);;
         call (DbRemove "Event" k);;
         update (set_events (delete k));;
         ret (Json 200 (Message "Event deleted successfully!")))
        (log (DbFind "Shop" shop_id) (log (DbFind "Event" (VStr id)) w))
      = (Json 200 (Message "Event deleted successfully!"),
         set_events (delete k) (log (DbRemove "Event" k) w1))).
    { unfold route, bind at 1. rewrite Hrun. reflexivity. }
    rewrite Hres. cbn [fst snd].
    split; [reflexivity |].
    destruct Hdb as (_ & _ & _ & Hevs & _).
    split; [simpl; rewrite Hevs; reflexivity |].
    change (trace (set_events (delete k) (log (DbRemove "Event" k) w1)))
      with (trace (log (DbRemove "Event" k) w1)).
    rewrite destroyed_log, Htr, !destroyed_log, !app_nil_r. reflexivity.
  - assert (Hno : match seller_of shop with
                  | Some seller => String.eqb seller u
                  | None => false
                  end = false).
    { destruct (seller_of shop) as [seller |]; [| reflexivity].
      apply String.eqb_neq. congruence. }
    rewrite Hno. reflexivity.
Qed.

(** The sample event, asked for by another user and then by the seller of
    its shop. *)
Lemma delete_own_shop_event_owner_witness :
  fst (route (delete_own_shop_event Sample.castId Demo.seller_of
                Sample.env_second_fails "64b7f0c2a1d3e4f5a6b7cb99"
                Sample.event_id) Demo.world1)
  = fail "Unauthorized: You can't delete this event." 403
  /\ destroyed
       (trace (snd (route (delete_own_shop_event Sample.castId Demo.seller_of
                             Sample.env_second_fails Demo.seller_id
                             Sample.event_id) Demo.world1)))
     = [VStr "products/7"; VStr "products/8"].
Proof.
  pose proof (delete_own_shop_event_owner Sample.castId Demo.seller_of
                Sample.env_second_fails "64b7f0c2a1d3e4f5a6b7cb99"
                Sample.event_id Sample.event_id Sample.shop_id Demo.world1
                Demo.event1 (VStr Sample.shop_id)
                (VObj [("name", VStr "Shop");
                       ("seller", VStr Demo.seller_id)])
                eq_refl eq_refl eq_refl eq_refl eq_refl) as H1.
  pose proof (delete_own_shop_event_owner Sample.castId Demo.seller_of
                Sample.env_second_fails Demo.seller_id
                Sample.event_id Sample.event_id Sample.shop_id Demo.world1
                Demo.event1 (VStr Sample.shop_id)
                (VObj [("name", VStr "Shop");
                       ("seller", VStr Demo.seller_id)])
                eq_refl eq_refl eq_refl eq_refl eq_refl) as H2.
  cbv zeta in H1, H2.
  destruct (decide (Demo.seller_of
                      (VObj [("name", VStr "Shop");
                             ("seller", VStr Demo.seller_id)])
                    = Some "64b7f0c2a1d3e4f5a6b7cb99")) as [Heq | _];
    [discriminate Heq |].
  destruct (decide (Demo.seller_of
                      (VObj [("name", VStr "Shop");
                             ("seller", VStr Demo.seller_id)])
                    = Some Demo.seller_id)) as [_ | Hne];
    [| exfalso; apply Hne; reflexivity].
  rewrite H1. destruct H2 as (_ & _ & H2). rewrite H2.
  split; reflexivity.
Defined.
